(** * Transparent While Moving: the fade engine of [transparent-while-moving.wh.cpp]

    A shallow embedding of the animation engine of the Windhawk mod
    (the per-window record table [g_anim], [SetLayered], [ApplyAlphaRemember],
    [ClampByte], [FadeTickCb], [StopFade], [StartFade] and the message switch of
    [DefWindowProcW_Hook]) over an explicit model of the part of Win32 the code
    calls: the extended style word of each window, the alpha given to
    [SetLayeredWindowAttributes], the live timer-queue timers, and a log of the
    mutating API calls.  [double] arithmetic is IEEE binary64 as specified by
    the Standard Library's [SpecFloat] (round to nearest, ties to even). *)

From Stdlib Require Import ZArith Bool List Lia Reals Lra.
From Stdlib Require Import Floats.SpecFloat.
From stdpp Require Import base option gmap.

Local Open Scope Z_scope.

(** ** Handles and the constants of <windows.h> used by the mod *)

(** [HWND] and [HANDLE] are pointer values; [nullptr] is 0. *)
Abbreviation HWND := Z (only parsing).
Abbreviation HANDLE := Z (only parsing).
Definition NULL : Z := 0.

Definition WS_EX_LAYERED : Z := 0x00080000.
Definition WM_DESTROY : Z := 0x0002.
Definition WM_CANCELMODE : Z := 0x001F.
Definition WM_NCDESTROY : Z := 0x0082.
Definition WM_NCLBUTTONUP : Z := 0x00A2.
Definition WM_CAPTURECHANGED : Z := 0x0215.
Definition WM_ENTERSIZEMOVE : Z := 0x0231.
Definition WM_EXITSIZEMOVE : Z := 0x0232.
Definition HTCAPTION : Z := 2.

(** [static const ULONG kTickMs = 15;] *)
Definition kTickMs : Z := 15.

(** ** [double]: IEEE binary64 *)

Module Dbl.

Definition double := spec_float.

Definition prec : Z := 53.
Definition emax : Z := 1024.

(** [(double)z] for an integer [z] *)
Definition of_Z (z : Z) : double := binary_normalize prec emax z 0 false.

Definition add : double -> double -> double := SFadd prec emax.
Definition sub : double -> double -> double := SFsub prec emax.
Definition mul : double -> double -> double := SFmul prec emax.
Definition div : double -> double -> double := SFdiv prec emax.
Definition ltb : double -> double -> bool := SFltb.
Definition leb : double -> double -> bool := SFleb.

Definition one : double := of_Z 1.
Definition half : double := div one (of_Z 2).

(** [std::min(a, b)] is [(b < a) ? b : a] *)
Definition min (a b : double) : double := if ltb b a then b else a.

Definition INT_MIN : Z := - 2 ^ 31.
Definition INT_MAX : Z := 2 ^ 31 - 1.

(** [(int)x]: truncation toward zero.  Out of the range of [int] the
    conversion is undefined in C++; x86 yields [INT_MIN] there. *)
Definition to_int (x : double) : Z :=
  match x with
  | S754_zero _ => 0
  | S754_finite s m e =>
      let z := cond_Zopp s (Z.shiftl (Zpos m) e) in
      if (INT_MIN <=? z) && (z <=? INT_MAX) then z else INT_MIN
  | _ => INT_MIN
  end.

End Dbl.

(** ** The record of one animated window: [struct WinAnim] *)

Record WinAnim := mkWinAnim {
  active      : bool;
  startAlpha  : Z;      (* BYTE *)
  targetAlpha : Z;      (* BYTE *)
  startTick   : Z;      (* ULONGLONG *)
  durationMs  : Z;      (* int *)
  lastApplied : Z;      (* BYTE: our own truth of last applied alpha *)
  hTimer      : HANDLE  (* thread-pool timer *)
}.

(** The default member initialisers of [WinAnim]. *)
Definition WinAnim_default : WinAnim :=
  {| active := false; startAlpha := 255; targetAlpha := 255; startTick := 0;
     durationMs := 0; lastApplied := 255; hTimer := NULL |}.

Definition set_active (b : bool) (st : WinAnim) : WinAnim :=
  mkWinAnim b (startAlpha st) (targetAlpha st) (startTick st) (durationMs st)
            (lastApplied st) (hTimer st).
Definition set_startAlpha (a : Z) (st : WinAnim) : WinAnim :=
  mkWinAnim (active st) a (targetAlpha st) (startTick st) (durationMs st)
            (lastApplied st) (hTimer st).
Definition set_targetAlpha (a : Z) (st : WinAnim) : WinAnim :=
  mkWinAnim (active st) (startAlpha st) a (startTick st) (durationMs st)
            (lastApplied st) (hTimer st).
Definition set_startTick (t : Z) (st : WinAnim) : WinAnim :=
  mkWinAnim (active st) (startAlpha st) (targetAlpha st) t (durationMs st)
            (lastApplied st) (hTimer st).
Definition set_durationMs (d : Z) (st : WinAnim) : WinAnim :=
  mkWinAnim (active st) (startAlpha st) (targetAlpha st) (startTick st) d
            (lastApplied st) (hTimer st).
Definition set_lastApplied (a : Z) (st : WinAnim) : WinAnim :=
  mkWinAnim (active st) (startAlpha st) (targetAlpha st) (startTick st)
            (durationMs st) a (hTimer st).
Definition set_hTimer (h : HANDLE) (st : WinAnim) : WinAnim :=
  mkWinAnim (active st) (startAlpha st) (targetAlpha st) (startTick st)
            (durationMs st) (lastApplied st) h.

(** ** The state: the mod's globals and the part of Win32 it acts on *)

(** The mutating API calls the code makes, logged newest first. *)
Inductive ApiCall :=
| Call_SetWindowLongPtrW (hwnd : HWND) (ex : Z)
| Call_SetLayeredWindowAttributes (hwnd : HWND) (a : Z)
| Call_CreateTimerQueue
| Call_CreateTimerQueueTimer (queue : HANDLE) (ctx : HWND) (period : Z)
| Call_DeleteTimerQueueTimer (queue : HANDLE) (h : HANDLE).

Record System := mkSystem {
  (* globals of the mod *)
  g_targetOpacity : Z;
  g_fadeMs        : Z;
  g_enabled       : bool;
  g_timerQueue    : HANDLE;
  g_anim          : gmap Z WinAnim;
  (* the windowing system *)
  w_windows : gset Z;      (* the handles for which IsWindow holds *)
  w_root    : gmap Z Z;    (* GetAncestor(hwnd, GA_ROOT) *)
  w_exstyle : gmap Z Z;    (* GWL_EXSTYLE of each window *)
  w_alpha   : gmap Z Z;    (* alpha last given to SetLayeredWindowAttributes *)
  w_timers  : gmap Z Z;    (* live timer-queue timers, with their context *)
  w_calls   : list ApiCall
}.

(** What the operating system answers during one call of the mod's code. *)
Record Os := mkOs {
  os_GetTickCount64        : Z;              (* ULONGLONG *)
  os_CreateTimerQueue      : HANDLE;         (* NULL on failure *)
  os_CreateTimerQueueTimer : option HANDLE   (* None: the call returns FALSE *)
}.

Definition with_anim (m : gmap Z WinAnim) (s : System) : System :=
  mkSystem (g_targetOpacity s) (g_fadeMs s) (g_enabled s) (g_timerQueue s) m
           (w_windows s) (w_root s) (w_exstyle s) (w_alpha s) (w_timers s) (w_calls s).
Definition with_timerQueue (q : HANDLE) (s : System) : System :=
  mkSystem (g_targetOpacity s) (g_fadeMs s) (g_enabled s) q (g_anim s)
           (w_windows s) (w_root s) (w_exstyle s) (w_alpha s) (w_timers s) (w_calls s).
Definition with_exstyle (m : gmap Z Z) (s : System) : System :=
  mkSystem (g_targetOpacity s) (g_fadeMs s) (g_enabled s) (g_timerQueue s) (g_anim s)
           (w_windows s) (w_root s) m (w_alpha s) (w_timers s) (w_calls s).
Definition with_alpha (m : gmap Z Z) (s : System) : System :=
  mkSystem (g_targetOpacity s) (g_fadeMs s) (g_enabled s) (g_timerQueue s) (g_anim s)
           (w_windows s) (w_root s) (w_exstyle s) m (w_timers s) (w_calls s).
Definition with_timers (m : gmap Z Z) (s : System) : System :=
  mkSystem (g_targetOpacity s) (g_fadeMs s) (g_enabled s) (g_timerQueue s) (g_anim s)
           (w_windows s) (w_root s) (w_exstyle s) (w_alpha s) m (w_calls s).
Definition log_call (c : ApiCall) (s : System) : System :=
  mkSystem (g_targetOpacity s) (g_fadeMs s) (g_enabled s) (g_timerQueue s) (g_anim s)
           (w_windows s) (w_root s) (w_exstyle s) (w_alpha s) (w_timers s)
           (c :: w_calls s).

(** ** A state monad for the code *)

Definition M (A : Type) : Type := System -> A * System.

Definition ret {A} (a : A) : M A := fun s => (a, s).
Definition bind {A B} (m : M A) (k : A -> M B) : M B :=
  fun s => let (a, s') := m s in k a s'.
Definition gets {A} (f : System -> A) : M A := fun s => (f s, s).
Definition modify (f : System -> System) : M unit := fun s => (tt, f s).
Definition exec {A} (m : M A) (s : System) : System := snd (m s).

Notation "x <- m ;; k" := (bind m (fun x => k))
  (at level 100, m at level 99, right associativity).
Notation "m ;; k" := (bind m (fun _ => k))
  (at level 100, right associativity).
Notation "'when' b 'then' m" := (if b then m else ret tt)
  (at level 99, b at level 98, m at level 98).

(** *** The Win32 calls *)

Definition IsWindow (hwnd : HWND) : M bool :=
  gets (fun s => bool_decide (hwnd ∈ w_windows s)).

Definition GetAncestor_ROOT (hwnd : HWND) : M HWND :=
  gets (fun s => default NULL (w_root s !! hwnd)).

Definition GetWindowLongPtrW_EXSTYLE (hwnd : HWND) : M Z :=
  gets (fun s => default 0 (w_exstyle s !! hwnd)).

Definition SetWindowLongPtrW_EXSTYLE (hwnd : HWND) (ex : Z) : M unit :=
  modify (fun s => log_call (Call_SetWindowLongPtrW hwnd ex)
                     (with_exstyle (<[hwnd := ex]> (w_exstyle s)) s)).

Definition SetLayeredWindowAttributes (hwnd : HWND) (a : Z) : M unit :=
  modify (fun s => log_call (Call_SetLayeredWindowAttributes hwnd a)
                     (with_alpha (<[hwnd := a]> (w_alpha s)) s)).

(** [DeleteTimerQueueTimer(g_timerQueue, h, INVALID_HANDLE_VALUE)] *)
Definition DeleteTimerQueueTimer (h : HANDLE) : M unit :=
  modify (fun s => log_call (Call_DeleteTimerQueueTimer (g_timerQueue s) h)
                     (with_timers (delete h (w_timers s)) s)).

(** [CreateTimerQueue()]: the handle the system answers, [NULL] on failure. *)
Definition CreateTimerQueue (os : Os) : M HANDLE :=
  modify (log_call Call_CreateTimerQueue) ;; ret (os_CreateTimerQueue os).

(** [CreateTimerQueueTimer(&h, g_timerQueue, FadeTickCb, ctx, 0, kTickMs, ...)]:
    on success the new handle is returned for storing through the out
    pointer; on failure nothing is stored. *)
Definition CreateTimerQueueTimer (os : Os) (ctx : HWND) : M (option HANDLE) :=
  q <- gets g_timerQueue ;;
  modify (log_call (Call_CreateTimerQueueTimer q ctx kTickMs)) ;;
  match os_CreateTimerQueueTimer os with
  | Some h => modify (fun s => with_timers (<[h := ctx]> (w_timers s)) s) ;; ret (Some h)
  | None => ret None
  end.

(** *** Access to [g_anim] *)

(** [g_anim.find(hwnd)] *)
Definition anim_find (hwnd : HWND) : M (option WinAnim) :=
  gets (fun s => g_anim s !! hwnd).

(** [g_anim[hwnd]]: the record, default-constructed and inserted if absent. *)
Definition anim_index (hwnd : HWND) : M WinAnim :=
  fun s => match g_anim s !! hwnd with
           | Some st => (st, s)
           | None => (WinAnim_default, with_anim (<[hwnd := WinAnim_default]> (g_anim s)) s)
           end.

(** A read [st.f] through a reference [st] into [g_anim] at [hwnd]. *)
Definition st_get {A} (hwnd : HWND) (f : WinAnim -> A) : M A :=
  gets (fun s => f (default WinAnim_default (g_anim s !! hwnd))).

(** A write [st.f = v] through a reference [st] into [g_anim] at [hwnd]. *)
Definition st_set (hwnd : HWND) (f : WinAnim -> WinAnim) : M unit :=
  modify (fun s => with_anim (alter f hwnd (g_anim s)) s).

(** [g_anim.erase(hwnd)] *)
Definition anim_erase (hwnd : HWND) : M unit :=
  modify (fun s => with_anim (delete hwnd (g_anim s)) s).

(** ** Helpers *)

Definition SetLayered (hwnd : HWND) (on : bool) : M unit :=
  ex <- GetWindowLongPtrW_EXSTYLE hwnd ;;
  if on then
    when (Z.land ex WS_EX_LAYERED =? 0) then
      SetWindowLongPtrW_EXSTYLE hwnd (Z.lor ex WS_EX_LAYERED)
  else
    when (negb (Z.land ex WS_EX_LAYERED =? 0)) then
      SetWindowLongPtrW_EXSTYLE hwnd (Z.land ex (Z.lnot WS_EX_LAYERED)).

Definition ApplyAlphaRemember (hwnd : HWND) (a : Z) : M unit :=
  SetLayered hwnd true ;;
  SetLayeredWindowAttributes hwnd a ;;
  anim_index hwnd ;;
  st_set hwnd (set_lastApplied a).

(** [(BYTE)v] *)
Definition to_BYTE (v : Z) : Z := v mod 256.

Definition ClampByte (v : Z) : Z := to_BYTE (Z.min 255 (Z.max 0 v)).

(** ** Animation *)

(** [now - st.startTick] on [ULONGLONG] *)
Definition elapsed (now start : Z) : Z := (now - start) mod 2 ^ 64.

(** The fraction [t] computed by [FadeTickCb]. *)
Definition tick_t (st : WinAnim) (now : Z) : Dbl.double :=
  if 0 <? durationMs st
  then Dbl.min Dbl.one
         (Dbl.div (Dbl.of_Z (elapsed now (startTick st))) (Dbl.of_Z (durationMs st)))
  else Dbl.one.

(** The interpolated value [v] computed by [FadeTickCb]. *)
Definition tick_v (st : WinAnim) (t : Dbl.double) : Dbl.double :=
  Dbl.add (Dbl.mul (Dbl.sub Dbl.one t) (Dbl.of_Z (startAlpha st)))
          (Dbl.mul t (Dbl.of_Z (targetAlpha st))).

(** The byte [a] that [FadeTickCb] applies. *)
Definition tick_alpha (st : WinAnim) (now : Z) : Z :=
  ClampByte (Dbl.to_int (Dbl.add (tick_v st (tick_t st now)) Dbl.half)).

Definition FadeTickCb (now : Z) (hwnd : HWND) : M unit :=
  alive <- IsWindow hwnd ;;
  if negb alive then ret tt else
  it <- anim_find hwnd ;;
  match it with
  | None => ret tt
  | Some st =>
    if negb (active st) then ret tt else
    let t := tick_t st now in
    let a := tick_alpha st now in
    ApplyAlphaRemember hwnd a ;;
    when (Dbl.leb Dbl.one t) then (
      h <- st_get hwnd hTimer ;;
      st_set hwnd (set_hTimer NULL) ;;
      st_set hwnd (set_active false) ;;
      (when (negb (h =? NULL)) then DeleteTimerQueueTimer h) ;;
      tgt <- st_get hwnd targetAlpha ;;
      when (tgt =? 255) then (
        SetLayered hwnd false ;;
        st_set hwnd (set_lastApplied 255)))
  end.

Definition StopFade (hwnd : HWND) (forceToTarget : bool) : M unit :=
  it <- anim_find hwnd ;;
  match it with
  | None => ret tt
  | Some _ =>
    h <- st_get hwnd hTimer ;;
    st_set hwnd (set_hTimer NULL) ;;
    st_set hwnd (set_active false) ;;
    (when (negb (h =? NULL)) then DeleteTimerQueueTimer h) ;;
    (when forceToTarget then (
       tgt <- st_get hwnd targetAlpha ;;
       ApplyAlphaRemember hwnd tgt)) ;;
    tgt <- st_get hwnd targetAlpha ;;
    when (tgt =? 255) then (
      SetLayered hwnd false ;;
      st_set hwnd (set_lastApplied 255))
  end.

Definition StartFade (os : Os) (hwnd : HWND) (targetAlpha' : Z) (durMs : Z) : M unit :=
  anim_index hwnd ;;
  h <- st_get hwnd hTimer ;;
  (when (negb (h =? NULL)) then (
     DeleteTimerQueueTimer h ;;
     st_set hwnd (set_hTimer NULL))) ;;
  last <- st_get hwnd lastApplied ;;
  st_set hwnd (set_startAlpha last) ;;
  st_set hwnd (set_targetAlpha targetAlpha') ;;
  st_set hwnd (set_startTick (os_GetTickCount64 os)) ;;
  st_set hwnd (set_durationMs (Z.max 0 durMs)) ;;
  st_set hwnd (set_active true) ;;
  dur <- st_get hwnd durationMs ;;
  sa <- st_get hwnd startAlpha ;;
  ta <- st_get hwnd targetAlpha ;;
  if (dur =? 0) || (sa =? ta) then
    ApplyAlphaRemember hwnd ta ;;
    st_set hwnd (set_active false) ;;
    tgt <- st_get hwnd targetAlpha ;;
    when (tgt =? 255) then (
      SetLayered hwnd false ;;
      st_set hwnd (set_lastApplied 255))
  else
    SetLayered hwnd true ;;
    q <- gets g_timerQueue ;;
    (when (q =? NULL) then (
       q' <- CreateTimerQueue os ;;
       modify (with_timerQueue q'))) ;;
    r <- CreateTimerQueueTimer os hwnd ;;
    match r with
    | Some h' => st_set hwnd (set_hTimer h')
    | None => ret tt
    end.

(** ** The hook *)

(** The message switch of [DefWindowProcW_Hook]; the call of the original
    window procedure that follows it is not part of the model. *)
Definition DefWindowProcW_Hook (os : Os) (hWnd : HWND) (Msg wParam : Z) : M unit :=
  en <- gets g_enabled ;;
  if negb en then ret tt else
  r <- GetAncestor_ROOT hWnd ;;
  let root := if r =? NULL then hWnd else r in
  if Msg =? WM_ENTERSIZEMOVE then
    tgt <- gets g_targetOpacity ;;
    ms <- gets g_fadeMs ;;
    StartFade os root (to_BYTE tgt) ms
  else if (Msg =? WM_EXITSIZEMOVE) || (Msg =? WM_CAPTURECHANGED) || (Msg =? WM_CANCELMODE) then
    ms <- gets g_fadeMs ;;
    StartFade os root 255 ms
  else if Msg =? WM_NCLBUTTONUP then
    when (wParam =? HTCAPTION) then (
      ms <- gets g_fadeMs ;;
      StartFade os root 255 ms)
  else if (Msg =? WM_DESTROY) || (Msg =? WM_NCDESTROY) then
    StopFade root false ;;
    ApplyAlphaRemember root 255 ;;
    SetLayered root false ;;
    anim_erase root
  else ret tt.

(** * Settings and life cycle *)

(** ** Wide strings *)

(** A [wchar_t] is a 16-bit code unit, a [std::wstring] the list of its
    units.  A buffer read through a [const wchar_t*] is the list of the units
    stored, a terminating NUL being understood after the last one. *)
Abbreviation wstring := (list Z) (only parsing).

(** [(wchar_t)v] *)
Definition to_wchar (v : Z) : Z := v mod 65536.

(** [towlower] and [iswspace] of <cwctype> depend on the C locale of the
    process; the code is modelled over any pair of them. *)
Class WCType := {
  towlower : Z -> Z;
  iswspace : Z -> bool
}.

(** The string a buffer holds: the units before the first NUL. *)
Fixpoint wcs (buf : list Z) : wstring :=
  match buf with
  | [] => []
  | c :: r => if c =? 0 then [] else c :: wcs r
  end.

(** [wcsrchr(s, c)]: the tail of [s] that starts at the last [c], if any. *)
Fixpoint wcsrchr (s : wstring) (c : Z) : option wstring :=
  match s with
  | [] => None
  | x :: r =>
      match wcsrchr r c with
      | Some p => Some p
      | None => if x =? c then Some s else None
      end
  end.

Definition ToLower `{WCType} (s : wstring) : wstring :=
  map (fun ch => to_wchar (towlower ch)) s.

(** ** What Windhawk and the system answer to the settings code *)

Record Host := mkHost {
  wh_opacity : Z;                    (* Wh_GetIntSetting(L"opacity") *)
  wh_fadeMs  : Z;                    (* Wh_GetIntSetting(L"fadeMs") *)
  wh_scope   : Z;                    (* Wh_GetIntSetting(L"scope") *)
  wh_appList : option (list Z);      (* Wh_GetStringSetting(L"appList"), None if null *)
  os_ModulePath : list Z;            (* the path of the executable, empty on failure *)
  wh_SetFunctionHook : bool          (* the result of Wh_SetFunctionHook *)
}.

Definition MAX_PATH : nat := 260.

(** [GetModuleFileNameW(nullptr, path, MAX_PATH)] into a zeroed buffer: the
    path, cut to [MAX_PATH - 1] units and terminated. *)
Definition GetModuleFileNameW (h : Host) : wstring :=
  take (MAX_PATH - 1) (wcs (os_ModulePath h)).

Definition CurrentExeNameLower `{WCType} (h : Host) : wstring :=
  let path := GetModuleFileNameW h in
  let name := match wcsrchr path 92 with   (* L'\\' *)
              | None => path
              | Some p => tail p           (* name++ *)
              end in
  ToLower name.

(** ** The application list *)

(** [c == 0 || c == L',' || c == L';' || c == L'\n' || c == L'\r' ||
     c == L'\t' || c == L' '] *)
Definition is_sep (c : Z) : bool :=
  (c =? 0) || (c =? 44) || (c =? 59) || (c =? 10) || (c =? 13) || (c =? 9) || (c =? 32).

(** [while (i < j && iswspace(token[i])) ++i;] with [n = j - i] *)
Fixpoint trim_front `{WCType} (token : wstring) (i n : nat) : nat :=
  match n with
  | O => i
  | S n' => if iswspace (nth i token 0) then trim_front token (S i) n' else i
  end.

(** [while (j > i && iswspace(token[j - 1])) --j;] with [n = j - i] *)
Fixpoint trim_back `{WCType} (token : wstring) (j n : nat) : nat :=
  match n with
  | O => j
  | S n' => if iswspace (nth (j - 1) token 0) then trim_back token (j - 1) n' else j
  end.

(** The body of [if (sep) { ... }] up to [token.clear()]: trim the token and
    insert it, lowered, unless nothing is left. *)
Definition add_token `{WCType} (token : wstring) (out : gset (list Z)) : gset (list Z) :=
  let i := trim_front token 0 (length token) in
  let j := trim_back token (length token) (length token - i) in
  if (i <? j)%nat then {[ ToLower (take (j - i) (drop i token)) ]} ∪ out else out.

(** The loop [for (const wchar_t* p = s;; ++p)], [p] pointing at the rest of
    the buffer. *)
Fixpoint parse_loop `{WCType} (p : list Z) (token : wstring) (out : gset (list Z))
  : gset (list Z) :=
  match p with
  | [] => add_token token out
  | c :: p' =>
      if is_sep c then
        let out' := add_token token out in
        if c =? 0 then out' else parse_loop p' [] out'
      else parse_loop p' (token ++ [c]) out
  end.

Definition ParseAppListToSet `{WCType} (s : option (list Z)) : gset (list Z) :=
  match s with
  | None => ∅
  | Some [] => ∅
  | Some (c :: p) => if c =? 0 then ∅ else parse_loop (c :: p) [] ∅
  end.

(** ** The mod as a whole *)

(** The engine's state with the global and the call that only the settings
    and life-cycle code use. *)
Record Mod := mkMod {
  m_sys   : System;
  g_scope : Z;
  w_queues_deleted : list HANDLE     (* the DeleteTimerQueue calls, newest first *)
}.

Definition with_settings (opacity fade : Z) (enabled : bool) (s : System) : System :=
  mkSystem opacity fade enabled (g_timerQueue s) (g_anim s)
           (w_windows s) (w_root s) (w_exstyle s) (w_alpha s) (w_timers s) (w_calls s).

(** [std::clamp(v, lo, hi)] *)
Definition clamp (v lo hi : Z) : Z :=
  if v <? lo then lo else if hi <? v then hi else v.

Definition LoadSettings `{WCType} (h : Host) (md : Mod) : Mod :=
  let opacity := clamp (wh_opacity h) 0 255 in
  let fade := if wh_fadeMs h <? 0 then 0 else wh_fadeMs h in
  let scope := wh_scope h in
  let listCopy := match wh_appList h with Some p => wcs p | None => [] end in
  let set := ParseAppListToSet (Some listCopy) in
  let exe := CurrentExeNameLower h in
  let listed := bool_decide (exe ∈ set) in
  let enabled := if scope =? 0 then negb listed else listed in
  mkMod (with_settings opacity fade enabled (m_sys md)) scope (w_queues_deleted md).

(** [Wh_ModInit]; the result is the [BOOL] returned.  The log line of the
    failure branch is not part of the model. *)
Definition Wh_ModInit `{WCType} (h : Host) (os : Os) (md : Mod) : bool * Mod :=
  let md1 := LoadSettings h md in
  let s2 := exec (q <- CreateTimerQueue os ;; modify (with_timerQueue q)) (m_sys md1) in
  let md2 := mkMod s2 (g_scope md1) (w_queues_deleted md1) in
  if negb (wh_SetFunctionHook h) then (false, md2) else (true, md2).

(** The loop of [Wh_ModUninit] over the records, here in the order of
    [map_to_list]; the order of an [unordered_map] is unspecified. *)
Fixpoint uninit_loop (kvs : list (Z * WinAnim)) : M unit :=
  match kvs with
  | [] => ret tt
  | kv :: rest =>
      (when (negb (hTimer (snd kv) =? NULL)) then DeleteTimerQueueTimer (hTimer (snd kv))) ;;
      uninit_loop rest
  end.

(** [Wh_ModUninit].  [DeleteTimerQueue] is recorded in [w_queues_deleted];
    the model lets it cancel no timer by itself, so that whatever holds of
    the live timers afterwards is due to the loop. *)
Definition Wh_ModUninit (md : Mod) : Mod :=
  let s1 := exec (uninit_loop (map_to_list (g_anim (m_sys md))) ;;
                  modify (with_anim ∅)) (m_sys md) in
  if negb (g_timerQueue s1 =? NULL)
  then mkMod (with_timerQueue NULL s1) (g_scope md) (g_timerQueue s1 :: w_queues_deleted md)
  else mkMod s1 (g_scope md) (w_queues_deleted md).

Definition Wh_ModSettingsChanged `{WCType} (h : Host) (md : Mod) : Mod :=
  LoadSettings h md.
(** ** Derived notions used by the statements *)

(** The record of [hwnd] as [g_anim[hwnd]] would read it. *)
Definition anim (s : System) (hwnd : HWND) : WinAnim :=
  default WinAnim_default (g_anim s !! hwnd).

(** The window the hook animates: [GetAncestor(hWnd, GA_ROOT)], or [hWnd]. *)
Definition root_of (s : System) (hWnd : HWND) : HWND :=
  let r := default NULL (w_root s !! hWnd) in if r =? NULL then hWnd else r.

(** The translucency bit: [WS_EX_LAYERED] in the extended style. *)
Definition layered (s : System) (hwnd : HWND) : bool :=
  negb (Z.land (default 0 (w_exstyle s !! hwnd)) WS_EX_LAYERED =? 0).

(** The live timers after [if (h) DeleteTimerQueueTimer(.., h, ..)]. *)
Definition del_timer (h : HANDLE) (m : gmap Z Z) : gmap Z Z :=
  if h =? NULL then m else delete h m.

(** The test of the fast path of [StartFade], on the record found. *)
Definition StartFade_fast (targetAlpha' durMs : Z) (st0 : WinAnim) : bool :=
  (Z.max 0 durMs =? 0) || (lastApplied st0 =? targetAlpha').

(** The record [StartFade] leaves, from the record it found. *)
Definition StartFade_rec (os : Os) (targetAlpha' durMs : Z) (st0 : WinAnim) : WinAnim :=
  if StartFade_fast targetAlpha' durMs st0 then
    mkWinAnim false (lastApplied st0) targetAlpha' (os_GetTickCount64 os)
              (Z.max 0 durMs) targetAlpha' NULL
  else
    mkWinAnim true (lastApplied st0) targetAlpha' (os_GetTickCount64 os)
              (Z.max 0 durMs) (lastApplied st0)
              (default NULL (os_CreateTimerQueueTimer os)).

(** The record [StopFade] leaves, from the record it found. *)
Definition StopFade_rec (forceToTarget : bool) (st0 : WinAnim) : WinAnim :=
  mkWinAnim false (startAlpha st0) (targetAlpha st0) (startTick st0) (durationMs st0)
            (if targetAlpha st0 =? 255 then 255
             else if forceToTarget then targetAlpha st0 else lastApplied st0)
            NULL.

(** [t >= 1.0] in [FadeTickCb]. *)
Definition tick_done (st : WinAnim) (now : Z) : bool :=
  Dbl.leb Dbl.one (tick_t st now).

(** The record a tick that passes the three guards leaves. *)
Definition tick_rec (now : Z) (st0 : WinAnim) : WinAnim :=
  if tick_done st0 now then
    mkWinAnim false (startAlpha st0) (targetAlpha st0) (startTick st0) (durationMs st0)
              (if targetAlpha st0 =? 255 then 255 else tick_alpha st0 now) NULL
  else set_lastApplied (tick_alpha st0 now) st0.

(** The sequence of the [WM_DESTROY] / [WM_NCDESTROY] case of the hook. *)
Definition on_destroy (root : HWND) : M unit :=
  StopFade root false ;;
  ApplyAlphaRemember root 255 ;;
  SetLayered root false ;;
  anim_erase root.

(** The three guards of [FadeTickCb] let the tick through. *)
Definition tick_runs (s : System) (hwnd : HWND) : bool :=
  bool_decide (hwnd ∈ w_windows s) &&
  match g_anim s !! hwnd with Some st => active st | None => false end.

(** The calls by which a tick is scheduled, and by which an opacity is written. *)
Definition is_timer_call (c : ApiCall) : bool :=
  match c with Call_CreateTimerQueueTimer _ _ _ => true | _ => false end.

Definition is_alpha_call (c : ApiCall) : bool :=
  match c with Call_SetLayeredWindowAttributes _ _ => true | _ => false end.

(** ** Runs of the engine *)

(** A successful [CreateTimerQueueTimer] never hands out the null handle. *)
Definition timer_nonnull (os : Os) : Prop :=
  os_CreateTimerQueueTimer os <> Some NULL.

(** [CreateTimerQueueTimer] succeeds. *)
Definition timer_created (os : Os) : Prop :=
  exists h, os_CreateTimerQueueTimer os = Some h /\ h <> NULL.

(** The states the engine reaches from a start with no record and no timer,
    by fade requests, ticks, stops and messages to the hook, while every
    answer of the operating system satisfies [P]. *)
Inductive reachable (P : Os -> Prop) : System -> Prop :=
| reach_init s :
    g_anim s = ∅ -> w_timers s = ∅ -> reachable P s
| reach_StartFade s os hwnd targetAlpha' durMs :
    reachable P s -> P os ->
    reachable P (exec (StartFade os hwnd targetAlpha' durMs) s)
| reach_Tick s now hwnd :
    reachable P s -> reachable P (exec (FadeTickCb now hwnd) s)
| reach_StopFade s hwnd forceToTarget :
    reachable P s -> reachable P (exec (StopFade hwnd forceToTarget) s)
| reach_Message s os hWnd Msg wParam :
    reachable P s -> P os ->
    reachable P (exec (DefWindowProcW_Hook os hWnd Msg wParam) s).

(** [tickHandle] is non-null iff [active], for every record. *)
Definition handle_iff_active (s : System) : Prop :=
  forall hwnd st, g_anim s !! hwnd = Some st ->
    (hTimer st <> NULL <-> active st = true).

(** Every live timer is the tick handle recorded for its context window. *)
Definition timers_tracked (s : System) : Prop :=
  forall h hwnd, w_timers s !! h = Some hwnd ->
    h <> NULL /\ hTimer (anim s hwnd) = h.

(** At most one tick is scheduled for [hwnd]. *)
Definition at_most_one_tick (s : System) (hwnd : HWND) : Prop :=
  forall h h', w_timers s !! h = Some hwnd -> w_timers s !! h' = Some hwnd -> h = h'.

(** ** Sample states *)

(** A process with one window, 7, and nothing animated yet. *)
Definition sys0 : System :=
  mkSystem 180 120 true NULL ∅ {[ 7 ]} ∅ ∅ ∅ ∅ [].

(** Window 7 fading from 255 to 120 over 100 ms, started at tick 1000. *)
Definition sys_fading : System :=
  exec (StartFade (mkOs 1000 55 (Some 9)) 7 120 100) sys0.

(** The same fade after the tick at 1050. *)
Definition sys_mid : System := exec (FadeTickCb 1050 7) sys_fading.

(** The same fade, completed by the tick at 1100. *)
Definition sys_dim : System := exec (FadeTickCb 1100 7) sys_mid.

(** A fade request during which [CreateTimerQueueTimer] fails. *)
Definition sys_stuck : System :=
  exec (StartFade (mkOs 1200 55 None) 7 255 100) sys_dim.

(** ** Checks over all byte values *)

Definition bytes : list Z := map Z.of_nat (seq 0 256).

(** [(1.0 - 1.0) * (double)z] is [+0.0]. *)
Definition mul_zero_ok (z : Z) : bool :=
  match Dbl.mul (Dbl.sub Dbl.one Dbl.one) (Dbl.of_Z z) with
  | S754_zero false => true
  | _ => false
  end.

(** [ClampByte((int)(0.0 + 1.0 * (double)z + 0.5))] is [z]. *)
Definition alpha_at_one_ok (z : Z) : bool :=
  ClampByte (Dbl.to_int (Dbl.add (Dbl.add (S754_zero false)
                                    (Dbl.mul Dbl.one (Dbl.of_Z z))) Dbl.half)) =? z.

(** ** Fading to 255 *)

(** [hwnd] rests at full opacity: it was given alpha 255, which its record
    remembers, the record is inactive, the translucency bit is cleared and no
    tick is scheduled for the window. *)
Definition ends_at_255 (s : System) (hwnd : HWND) : Prop :=
  w_alpha s !! hwnd = Some 255 /\ lastApplied (anim s hwnd) = 255 /\
  active (anim s hwnd) = false /\ layered s hwnd = false /\
  forall k, w_timers s !! k <> Some hwnd.

(** The timer callback of [hwnd] run at each of the times [nows], in order. *)
Definition ticks (nows : list Z) (hwnd : HWND) (s : System) : System :=
  foldl (fun s now => exec (FadeTickCb now hwnd) s) s nows.

(** A fade of [hwnd] to 255 is under way: the window exists, its record is
    active with target 255, a byte as start, the start tick [start] and the
    duration [dur], and the one tick scheduled for the window is [h], the
    handle the record holds. *)
Definition fade_pending (s : System) (hwnd : HWND) (h : HANDLE) (start dur : Z) : Prop :=
  hwnd ∈ w_windows s /\
  active (anim s hwnd) = true /\ targetAlpha (anim s hwnd) = 255 /\
  0 <= startAlpha (anim s hwnd) <= 255 /\
  startTick (anim s hwnd) = start /\ durationMs (anim s hwnd) = dur /\ dur < 2 ^ 31 /\
  h <> NULL /\ hTimer (anim s hwnd) = h /\ w_timers s !! h = Some hwnd /\
  forall k, w_timers s !! k = Some hwnd -> k = h.

(** The terminal opacity of [hwnd] is 255: the window rests at 255 already,
    or one tick [h] is scheduled for it and, whatever ticks come before the
    duration has elapsed, the record stays active, [h] stays the one tick
    scheduled, and the first tick that comes once the duration has elapsed
    leaves the window resting at 255. *)
Definition fades_to_255 (s : System) (hwnd : HWND) : Prop :=
  ends_at_255 s hwnd \/
  exists h, h <> NULL /\
    forall early,
      Forall (fun now => elapsed now (startTick (anim s hwnd)) < durationMs (anim s hwnd))
             early ->
      let s' := ticks early hwnd s in
      active (anim s' hwnd) = true /\
      w_timers s' !! h = Some hwnd /\
      (forall k, w_timers s' !! k = Some hwnd -> k = h) /\
      forall now, durationMs (anim s hwnd) <= elapsed now (startTick (anim s hwnd)) ->
        ends_at_255 (exec (FadeTickCb now hwnd) s') hwnd.

(** ** Tokens of the application list *)

(** A token as [ParseAppListToSet] inserts it, before lowering: not empty,
    free of separators, with no space at either end. *)
Definition trimmed_token `{WCType} (tok : wstring) : Prop :=
  tok <> [] /\ Forall (fun c => is_sep c = false) tok /\
  iswspace (nth 0 tok 0) = false /\ iswspace (nth (length tok - 1) tok 0) = false.

(** The <cwctype> functions of the C locale on the ASCII range. *)
Definition ascii_ctype : WCType :=
  {| towlower := fun c => if (65 <=? c) && (c <=? 90) then c + 32 else c;
     iswspace := fun c => ((9 <=? c) && (c <=? 13)) || (c =? 32) |}.

(** ** Runs of the hooked process *)

(** The calls by which a timer queue is created. *)
Definition is_queue_call (c : ApiCall) : bool :=
  match c with Call_CreateTimerQueue => true | _ => false end.

(** What neither the engine nor the hook ever writes. *)
Definition settings_of (s : System) : Z * Z * bool * gset Z * gmap Z Z :=
  (g_targetOpacity s, g_fadeMs s, g_enabled s, w_windows s, w_root s).

(** The states a process goes through from [s]: messages to the hook and
    timer callbacks, while every answer of the operating system satisfies [P]. *)
Inductive run (P : Os -> Prop) (s : System) : System -> Prop :=
| run_refl : run P s s
| run_Message s' os hWnd Msg wParam :
    run P s s' -> P os -> run P s (exec (DefWindowProcW_Hook os hWnd Msg wParam) s')
| run_Tick s' now hwnd :
    run P s s' -> run P s (exec (FadeTickCb now hwnd) s').

(** The fields of a record hold what their C++ types can: three [BYTE]s and
    a duration between 0 and the configured one. *)
Definition record_ok (fade : Z) (st : WinAnim) : Prop :=
  0 <= startAlpha st <= 255 /\ 0 <= targetAlpha st <= 255 /\
  0 <= lastApplied st <= 255 /\ 0 <= durationMs st <= Z.max 0 fade.

Definition records_ok (s : System) : Prop :=
  forall hwnd st, g_anim s !! hwnd = Some st -> record_ok (g_fadeMs s) st.

(** [lastApplied] is the alpha the window was last given, 255 standing for a
    window that was never given one. *)
Definition alpha_remembered (s : System) : Prop :=
  forall hwnd, lastApplied (anim s hwnd) = default 255 (w_alpha s !! hwnd).

(** ** More sample states *)

(** A process with a top-level window 7 and its child 8, fades being instant. *)
Definition sys_child : System :=
  mkSystem 180 0 true NULL ∅ {[ 7; 8 ]} {[ 8 := 7 ]} ∅ ∅ ∅ [].

(** Any answer of the operating system. *)
Definition any_os (os : Os) : Prop := True.

(** The drag of window 7 begins at tick 1000; a timer callback runs at 1060;
    the drag ends at 1070. *)
Definition sys_drag : System :=
  exec (DefWindowProcW_Hook (mkOs 1000 55 (Some 9)) 7 WM_ENTERSIZEMOVE 0) sys0.

Definition sys_drag_mid : System := exec (FadeTickCb 1060 7) sys_drag.

Definition sys_back : System :=
  exec (DefWindowProcW_Hook (mkOs 1070 55 (Some 11)) 7 WM_EXITSIZEMOVE 0) sys_drag_mid.

(** ** Sample settings *)

(** The settings [opacity = 300], [fadeMs = -5], scope 0 and the list
    [Code.exe; Notepad.EXE] followed by a line feed, read in the process
    [C:\Apps\notepad.exe]; the hook can be set. *)
Definition host_notepad : Host :=
  mkHost 300 (-5) 0
    (Some [67; 111; 100; 101; 46; 101; 120; 101; 59; 32;
           78; 111; 116; 101; 112; 97; 100; 46; 69; 88; 69; 10])
    [67; 58; 92; 65; 112; 112; 115; 92; 110; 111; 116; 101; 112; 97; 100; 46; 101; 120; 101]
    true.

(** Settings with no list at all, in the mode ``all except listed''. *)
Definition host_plain : Host :=
  mkHost 200 80 0 None
    [67; 58; 92; 65; 112; 112; 115; 92; 110; 111; 116; 101; 112; 97; 100; 46; 101; 120; 101]
    true.

(** The mod before [Wh_ModInit]. *)
Definition mod0 : Mod := mkMod sys0 0 [].

(** The mod initialised with [host_plain], the timer queue being 55. *)
Definition mod_init : Mod := snd (Wh_ModInit (H := ascii_ctype) host_plain (mkOs 900 55 None) mod0).

(** The process after the start of a drag of window 7 and one timer callback. *)
Definition sys_run : System :=
  exec (FadeTickCb 1040 7)
    (exec (DefWindowProcW_Hook (mkOs 1000 0 (Some 9)) 7 WM_ENTERSIZEMOVE 0) (m_sys mod_init)).

(** ** Real values of doubles *)

Definition pow2 (e : Z) : R := powerRZ 2 e.

Definition SF2R (f : spec_float) : R :=
  match f with
  | S754_finite s m e => (IZR (cond_Zopp s (Zpos m)) * pow2 e)%R
  | _ => 0%R
  end.

(** A positive double in the normal range: mantissa [m] of 53 bits, exponent [e]. *)
Definition pos_normal (f : spec_float) (m : positive) (e : Z) : Prop :=
  f = S754_finite false m e /\ Zpos (digits2_pos m) = 53.

(** [r] is a rounding of the positive real [x] to 53 bits: within relative
    error [2^-52], and on the same side of every power of two. *)
Definition rnd (x r : R) : Prop :=
  (Rabs (r - x) <= pow2 (-52) * x)%R /\
  (forall k : Z, pow2 k <= x -> pow2 k <= r)%R.


(** ** Doubles that are [+0.0] or positive normal *)

(** [f] is [+0.0], or positive normal with its exponent in [[lo, hi]]. *)
Definition nonneg (f : spec_float) (lo hi : Z) : Prop :=
  f = S754_zero false \/ exists m e, pos_normal f m e /\ lo <= e <= hi.

(** [r] is [x] up to a relative error of [2^-52]. *)
Definition rel (x r : R) : Prop := (Rabs (r - x) <= pow2 (-52) * x)%R.
(** * Binary64 arithmetic: rounding of the operations of [Dbl] *)

(** Powers of two are atoms for linear arithmetic. *)
Ltac gen_pow :=
  repeat match goal with
  | |- context [Z.pow 2 ?x] =>
      let a := fresh "pw" in
      let H := fresh "Hpw" in
      assert (H : 0 < 2 ^ x \/ x < 0) by
        (destruct (Z.ltb_spec x 0); [right; assumption | left; apply Z.pow_pos_nonneg; lia]);
      set (a := 2 ^ x) in *; clearbody a
  | H0 : context [Z.pow 2 ?x] |- _ =>
      let a := fresh "pw" in
      let H := fresh "Hpw" in
      assert (H : 0 < 2 ^ x \/ x < 0) by
        (destruct (Z.ltb_spec x 0); [right; assumption | left; apply Z.pow_pos_nonneg; lia]);
      set (a := 2 ^ x) in *; clearbody a
  end.

Ltac pow_lia := gen_pow; lia.

(** ** Digits of a mantissa *)

Lemma digits2_pos_bounds (p : positive) :
  2 ^ (Zpos (digits2_pos p) - 1) <= Zpos p < 2 ^ Zpos (digits2_pos p).
Proof.
  induction p as [p IH|p IH|]; cbn [digits2_pos].
  - rewrite Pos2Z.inj_succ.
    replace (Z.succ (Zpos (digits2_pos p)) - 1) with (Zpos (digits2_pos p) - 1 + 1) by lia.
    rewrite Z.pow_succ_r by lia. rewrite Z.pow_add_r by lia.
    change (2 ^ 1) with 2. rewrite (Pos2Z.inj_xI p). pow_lia.
  - rewrite Pos2Z.inj_succ.
    replace (Z.succ (Zpos (digits2_pos p)) - 1) with (Zpos (digits2_pos p) - 1 + 1) by lia.
    rewrite Z.pow_succ_r by lia. rewrite Z.pow_add_r by lia.
    change (2 ^ 1) with 2. rewrite (Pos2Z.inj_xO p). pow_lia.
  - cbn. lia.
Qed.

Lemma digits2_pos_unique (p : positive) (k : Z) :
  2 ^ (k - 1) <= Zpos p < 2 ^ k -> Zpos (digits2_pos p) = k.
Proof.
  intros [H1 H2]. pose proof (digits2_pos_bounds p) as [B1 B2].
  assert (0 < k).
  { destruct (Z.ltb_spec 0 k); [assumption|].
    assert (2 ^ k <= 2 ^ 0) by (destruct (Z.eq_dec k 0); [subst; lia|
       rewrite Z.pow_neg_r by lia; cbn; lia]). cbn in *. lia. }
  destruct (Z.lt_trichotomy (Zpos (digits2_pos p)) k) as [Hlt|[Heq|Hgt]]; [|exact Heq|].
  - assert (2 ^ Zpos (digits2_pos p) <= 2 ^ (k - 1)) by (apply Z.pow_le_mono_r; lia). lia.
  - assert (2 ^ k <= 2 ^ (Zpos (digits2_pos p) - 1)) by (apply Z.pow_le_mono_r; lia). lia.
Qed.

(** ** Shifting right *)

Lemma shr_1_m (mrs : shr_record) :
  0 <= shr_m mrs -> shr_m (shr_1 mrs) = shr_m mrs / 2.
Proof.
  destruct mrs as [m r s]. cbn. intros Hm.
  destruct m as [|[p|p|]|p]; cbn; try reflexivity.
  - rewrite (Pos2Z.inj_xI p). apply Z.div_unique with (r := 1); lia.
  - rewrite (Pos2Z.inj_xO p). apply Z.div_unique with (r := 0); lia.
  - lia.
Qed.

Lemma iter_pos_m (p : positive) (mrs : shr_record) :
  0 <= shr_m mrs ->
  shr_m (SpecFloat.iter_pos shr_1 p mrs) = shr_m mrs / 2 ^ Zpos p.
Proof.
  revert mrs. induction p as [p IH|p IH|]; intros mrs Hm; cbn [SpecFloat.iter_pos].
  - assert (H1 : 0 <= shr_m (shr_1 mrs)) by (rewrite shr_1_m by lia; apply Z.div_pos; lia).
    assert (H2 : 0 <= shr_m (SpecFloat.iter_pos shr_1 p (shr_1 mrs)))
      by (rewrite IH by lia; apply Z.div_pos; [lia|apply Z.pow_pos_nonneg; lia]).
    rewrite IH by exact H2. rewrite IH by exact H1. rewrite shr_1_m by exact Hm.
    rewrite !Z.div_div by (try apply Z.pow_pos_nonneg; lia).
    f_equal. rewrite (Pos2Z.inj_xI p).
    replace (2 * Zpos p + 1) with (1 + Zpos p + Zpos p) by lia.
    rewrite !Z.pow_add_r by lia. change (2 ^ 1) with 2. ring.
  - assert (H2 : 0 <= shr_m (SpecFloat.iter_pos shr_1 p mrs))
      by (rewrite IH by lia; apply Z.div_pos; [lia|apply Z.pow_pos_nonneg; lia]).
    rewrite IH by exact H2. rewrite IH by exact Hm.
    rewrite !Z.div_div by (try apply Z.pow_pos_nonneg; lia).
    f_equal. rewrite (Pos2Z.inj_xO p).
    replace (2 * Zpos p) with (Zpos p + Zpos p) by lia.
    rewrite !Z.pow_add_r by lia. ring.
  - apply shr_1_m, Hm.
Qed.

Lemma shr_record_of_loc_m m l : shr_m (shr_record_of_loc m l) = m.
Proof. destruct l as [|[]]; reflexivity. Qed.

Lemma loc_of_shr_record_of_loc m l : loc_of_shr_record (shr_record_of_loc m l) = l.
Proof. destruct l as [|[]]; reflexivity. Qed.

Lemma shr_m_shift mrs e n :
  0 <= shr_m mrs -> 0 <= n ->
  shr_m (fst (shr mrs e n)) = shr_m mrs / 2 ^ n /\ snd (shr mrs e n) = e + n.
Proof.
  intros Hm Hn. destruct n as [|p|p]; cbn [shr fst snd].
  - rewrite Z.div_1_r. split; [reflexivity|lia].
  - split; [apply iter_pos_m, Hm|reflexivity].
  - lia.
Qed.

Lemma round_nearest_even_cases m l :
  round_nearest_even m l = m \/ round_nearest_even m l = m + 1.
Proof.
  destruct l as [|[]]; cbn; auto. destruct (Z.even m); auto.
Qed.

(** ** Rounding in the normal range *)

Lemma fexp_normal (k : Z) : -1074 <= k - 53 -> fexp 53 1024 k = k - 53.
Proof. intros H. unfold fexp, emin. lia. Qed.

Lemma div_pow2_window (m dg : Z) :
  53 <= dg -> 2 ^ (dg - 1) <= m < 2 ^ dg ->
  2 ^ 52 <= m / 2 ^ (dg - 53) < 2 ^ 53.
Proof.
  intros Hd [H1 H2].
  assert (Hp : 0 < 2 ^ (dg - 53)) by (apply Z.pow_pos_nonneg; lia).
  split.
  - apply Z.div_le_lower_bound; [exact Hp|].
    rewrite <- Z.pow_add_r by lia. replace (dg - 53 + 52) with (dg - 1) by lia. exact H1.
  - apply Z.div_lt_upper_bound; [exact Hp|].
    rewrite <- Z.pow_add_r by lia. replace (dg - 53 + 53) with dg by lia. exact H2.
Qed.

Lemma round_aux_normal (sx : bool) (mx : positive) (ex : Z) (lx : location) :
  let dg := Zpos (digits2_pos mx) in
  53 <= dg -> -1074 <= dg + ex - 53 -> dg + ex - 53 < 971 ->
  let n := dg - 53 in
  let m' := Zpos mx / 2 ^ n in
  exists mz ez M,
    binary_round_aux 53 1024 sx (Zpos mx) ex lx = S754_finite sx mz ez /\
    (M = m' \/ M = m' + 1) /\
    (lx = loc_Exact -> n = 0 -> M = m') /\
    2 ^ 52 <= m' < 2 ^ 53 /\
    Zpos (digits2_pos mz) = 53 /\
    ((ez = ex + n /\ Zpos mz = M) \/
     (ez = ex + n + 1 /\ Zpos mz = 2 ^ 52 /\ M = 2 ^ 53)).
Proof.
  intros dg Hdg Hlo Hhi n m'.
  pose proof (div_pow2_window (Zpos mx) dg Hdg (digits2_pos_bounds mx)) as Hm'.
  fold n in Hm'. fold m' in Hm'.
  unfold binary_round_aux, shr_fexp.
  change (Zdigits2 (Zpos mx)) with dg.
  rewrite (fexp_normal (dg + ex)) by lia.
  replace (dg + ex - 53 - ex) with n by (unfold n; lia).
  pose proof (shr_m_shift (shr_record_of_loc (Zpos mx) lx) ex n) as Hs.
  rewrite shr_record_of_loc_m in Hs. specialize (Hs ltac:(lia) ltac:(unfold n; lia)).
  destruct (shr (shr_record_of_loc (Zpos mx) lx) ex n) as [mrs' e'] eqn:Es.
  cbn [fst snd] in Hs. destruct Hs as [Hs1 Hs2]. fold m' in Hs1.
  set (M := round_nearest_even (shr_m mrs') (loc_of_shr_record mrs')).
  assert (HM : M = m' \/ M = m' + 1).
  { unfold M. rewrite <- Hs1. apply round_nearest_even_cases. }
  assert (Hex : lx = loc_Exact -> n = 0 -> M = m').
  { intros -> Hn. rewrite Hn in Es. cbn in Es. injection Es as <- <-.
    unfold M. cbn. unfold m'. rewrite Hn, Z.pow_0_r, Z.div_1_r.
    reflexivity. }
  assert (HMpos : 0 < M) by (gen_pow; lia).
  destruct M as [|pM|pM] eqn:EM; try lia.
  assert (HMr : 2 ^ 52 <= Zpos pM < 2 ^ 53 \/ Zpos pM = 2 ^ 53) by lia.
  destruct HMr as [HMr|HMr].
  - (* the mantissa still has 53 digits *)
    assert (Hd : Zpos (digits2_pos pM) = 53) by (apply digits2_pos_unique; exact HMr).
    cbn [Zdigits2]. rewrite Hd. rewrite (fexp_normal (53 + e')) by lia.
    replace (53 + e' - 53 - e') with 0 by lia. cbn [shr shr_record_of_loc shr_m].
    replace (e' <=? 1024 - 53) with true by (symmetry; apply Z.leb_le; lia).
    exists pM, e', (Zpos pM). repeat split; try assumption; try lia.
  - (* the mantissa was rounded up to 2^53 *)
    assert (Hd : Zpos (digits2_pos pM) = 54).
    { apply digits2_pos_unique. rewrite HMr. split; [reflexivity|].
      apply Z.pow_lt_mono_r; lia. }
    cbn [Zdigits2]. rewrite Hd. rewrite (fexp_normal (54 + e')) by lia.
    replace (54 + e' - 53 - e') with 1 by lia.
    cbn [shr shr_record_of_loc SpecFloat.iter_pos].
    assert (EpM : pM = (2 ^ 53)%positive).
    { apply Pos2Z.inj. rewrite HMr. reflexivity. }
    rewrite EpM. cbn [shr_1 shr_m Pos.pow Pos.iter Pos.mul].
    replace (e' + 1 <=? 1024 - 53) with true by (symmetry; apply Z.leb_le; lia).
    eexists _, (e' + 1), (Zpos pM). split; [reflexivity|].
    repeat split; try assumption; try lia.
Qed.

(** ** Powers of two over the reals *)

Lemma pow2_pos e : (0 < pow2 e)%R.
Proof. apply powerRZ_lt. lra. Qed.

Lemma pow2_add a b : pow2 (a + b) = (pow2 a * pow2 b)%R.
Proof. apply powerRZ_add. lra. Qed.

Lemma pow2_0 : pow2 0 = 1%R.
Proof. reflexivity. Qed.

Lemma pow2_1 : pow2 1 = 2%R.
Proof. unfold pow2. simpl. lra. Qed.

Lemma pow2_IZR n : 0 <= n -> pow2 n = IZR (2 ^ n).
Proof.
  intros Hn. unfold pow2. destruct n as [|p|p]; [reflexivity| |lia].
  symmetry. apply (Zpower_pos_powerRZ 2 p).
Qed.

Lemma pow2_ge_1 n : 0 <= n -> (1 <= pow2 n)%R.
Proof.
  intros Hn. rewrite pow2_IZR by exact Hn. apply IZR_le.
  assert (0 < 2 ^ n) by (apply Z.pow_pos_nonneg; lia). lia.
Qed.

Lemma pow2_le a b : a <= b -> (pow2 a <= pow2 b)%R.
Proof.
  intros H. replace b with (a + (b - a)) by lia. rewrite pow2_add.
  pose proof (pow2_pos a). pose proof (pow2_ge_1 (b - a) ltac:(lia)). nra.
Qed.

Lemma pow2_lt a b : a < b -> (pow2 a < pow2 b)%R.
Proof.
  intros H. replace b with (a + 1 + (b - a - 1)) by lia. rewrite !pow2_add.
  pose proof (pow2_pos a). pose proof (pow2_ge_1 (b - a - 1) ltac:(lia)).
  rewrite pow2_1. nra.
Qed.

Lemma pow2_lt_inv a b : (pow2 a < pow2 b)%R -> a < b.
Proof.
  intros H. destruct (Z.ltb_spec a b) as [|Hge]; [assumption|].
  pose proof (pow2_le b a Hge). lra.
Qed.

Lemma pow2_le_inv a b : (pow2 a <= pow2 b)%R -> a <= b.
Proof.
  intros H. destruct (Z.leb_spec a b) as [|Hgt]; [assumption|].
  pose proof (pow2_lt b a Hgt). lra.
Qed.

Lemma pow2_opp a : (pow2 a * pow2 (- a) = 1)%R.
Proof. rewrite <- pow2_add. replace (a + - a) with 0 by lia. reflexivity. Qed.

(** ** The rounding error of [binary_round_aux] *)

Lemma IZR_pow2_le (k m : Z) : 0 <= k -> 2 ^ k <= m -> (pow2 k <= IZR m)%R.
Proof. intros Hk H. rewrite pow2_IZR by exact Hk. apply IZR_le, H. Qed.

Lemma IZR_pow2_lt (k m : Z) : 0 <= k -> m < 2 ^ k -> (IZR m < pow2 k)%R.
Proof. intros Hk H. rewrite pow2_IZR by exact Hk. apply IZR_lt, H. Qed.

(** The interval argument: [x] and its rounding lie in the same cell
    [[a P, (a+1) P)] of the grid of step [P], whose left end is at least
    [2^52 P]. *)
Lemma rnd_cell (a x r P : R) (fe : Z) :
  P = pow2 fe ->
  (pow2 52 <= a)%R -> (a + 1 <= pow2 53)%R ->
  (a * P <= x < (a + 1) * P)%R ->
  (r = a * P \/ r = (a + 1) * P)%R ->
  rnd x r.
Proof.
  intros HP Ha1 Ha2 [Hx1 Hx2] Hr.
  assert (HPpos : (0 < P)%R) by (rewrite HP; apply pow2_pos).
  assert (H52 : (pow2 52 * pow2 (-52) = 1)%R) by apply pow2_opp.
  pose proof (pow2_pos 52) as Hp52. pose proof (pow2_pos (-52)) as Hm52.
  split.
  - assert (HPx : (P <= pow2 (-52) * x)%R).
    { assert (pow2 52 * P <= x)%R by nra.
      assert (pow2 (-52) * (pow2 52 * P) <= pow2 (-52) * x)%R by nra.
      nra. }
    apply Rabs_le. destruct Hr as [-> | ->]; nra.
  - intros k Hk.
    assert (Hlt : (pow2 k < pow2 (53 + fe))%R).
    { rewrite pow2_add, <- HP. nra. }
    apply pow2_lt_inv in Hlt.
    assert (Hle : (pow2 k <= pow2 (52 + fe))%R) by (apply pow2_le; lia).
    rewrite pow2_add, <- HP in Hle. destruct Hr as [-> | ->]; nra.
Qed.

Lemma round_aux_rnd (mx : positive) (ex : Z) (lx : location) (x : R) :
  let dg := Zpos (digits2_pos mx) in
  53 <= dg -> -1074 <= dg + ex - 53 -> dg + ex - 53 < 971 ->
  (IZR (Zpos mx) * pow2 ex <= x < IZR (Zpos mx + 1) * pow2 ex)%R ->
  exists mz ez,
    pos_normal (binary_round_aux 53 1024 false (Zpos mx) ex lx) mz ez /\
    dg + ex - 53 <= ez <= dg + ex - 52 /\
    rnd x (IZR (Zpos mz) * pow2 ez) /\
    (lx = loc_Exact -> dg = 53 -> mz = mx /\ ez = ex).
Proof.
  intros dg Hdg Hlo Hhi [Hx1 Hx2].
  destruct (round_aux_normal false mx ex lx Hdg Hlo Hhi)
    as (mz & ez & M & Heq & HM & Hexact & Hm' & Hdz & Hcase).
  fold dg in HM, Hexact, Hm', Hcase.
  set (n := dg - 53) in *. set (m' := Zpos mx / 2 ^ n) in *.
  exists mz, ez. split; [split; assumption|]. split; [lia|].
  assert (Hn : 0 <= n) by (unfold n; lia).
  assert (Hpn : 0 < 2 ^ n) by (apply Z.pow_pos_nonneg; lia).
  assert (Hfl1 : 2 ^ n * m' <= Zpos mx) by (apply Z.mul_div_le; exact Hpn).
  assert (Hfl2 : Zpos mx < 2 ^ n * (m' + 1)).
  { pose proof (Z.mul_succ_div_gt (Zpos mx) (2 ^ n) Hpn). unfold m'. lia. }
  set (P := pow2 (ex + n)).
  assert (HP : P = (pow2 ex * IZR (2 ^ n))%R).
  { unfold P. rewrite pow2_add, (pow2_IZR n) by exact Hn. reflexivity. }
  pose proof (pow2_pos ex) as Hpe.
  assert (Hc1 : (IZR m' * P <= x)%R).
  { apply IZR_le in Hfl1. rewrite mult_IZR in Hfl1. rewrite HP. nra. }
  assert (Hc2 : (x < (IZR m' + 1) * P)%R).
  { assert (Zpos mx + 1 <= 2 ^ n * (m' + 1)) as Hz by lia.
    apply IZR_le in Hz. rewrite mult_IZR, !plus_IZR in Hz. rewrite plus_IZR in Hx2.
    rewrite HP. nra. }
  assert (Hr : (IZR (Zpos mz) * pow2 ez = IZR M * P)%R).
  { destruct Hcase as [[-> ->]|(-> & -> & ->)]; [reflexivity|].
    unfold P. rewrite (pow2_add (ex + n) 1), pow2_1.
    rewrite <- !(pow2_IZR 52), <- (pow2_IZR 53) by lia.
    replace 53 with (52 + 1) at 1 by lia. rewrite (pow2_add 52 1), pow2_1. ring. }
  split.
  - rewrite Hr. apply (rnd_cell (IZR m') x (IZR M * P) P (ex + n)).
    + reflexivity.
    + apply IZR_pow2_le; lia.
    + rewrite <- (plus_IZR m' 1), (pow2_IZR 53) by lia. apply IZR_le. lia.
    + split; assumption.
    + destruct HM as [-> | ->]; [left; reflexivity|right; rewrite plus_IZR; reflexivity].
  - intros Hl Hd. assert (Hn0 : n = 0) by (unfold n; lia).
    specialize (Hexact Hl Hn0).
    assert (Hm'x : m' = Zpos mx) by (unfold m'; rewrite Hn0, Z.pow_0_r, Z.div_1_r; reflexivity).
    destruct Hcase as [[-> HzM]|(_ & _ & HM53)]; [|lia].
    split; [|lia]. apply Pos2Z.inj. lia.
Qed.

(** ** Normalising a mantissa: [binary_round] *)

Lemma digits2_pos_window (p : positive) (a b : Z) :
  0 <= a -> 2 ^ a <= Zpos p < 2 ^ b -> a + 1 <= Zpos (digits2_pos p) <= b.
Proof.
  intros Ha [H1 H2]. pose proof (digits2_pos_bounds p) as [B1 B2].
  split.
  - assert (2 ^ a < 2 ^ Zpos (digits2_pos p)) as H by lia.
    apply Z.pow_lt_mono_r_iff in H; lia.
  - assert (2 ^ (Zpos (digits2_pos p) - 1) < 2 ^ b) as H by lia.
    destruct (Z.ltb_spec b 0) as [Hb|Hb]; [rewrite (Z.pow_neg_r 2 b) in H2 by lia; lia|].
    apply Z.pow_lt_mono_r_iff in H; lia.
Qed.

Lemma iter_xO_value (mx d : positive) :
  Zpos (Pos.iter xO mx d) = Zpos mx * 2 ^ Zpos d.
Proof.
  induction d as [|d IH] using Pos.peano_ind.
  - cbn [Pos.iter]. rewrite (Pos2Z.inj_xO mx). change (2 ^ 1) with 2. lia.
  - rewrite Pos.iter_succ, (Pos2Z.inj_xO (Pos.iter xO mx d)), IH, Pos2Z.inj_succ.
    rewrite Z.pow_succ_r by lia. ring.
Qed.

Lemma shl_align_value (mx : positive) (ex ez : Z) :
  ez <= ex ->
  Zpos (fst (shl_align mx ex ez)) = Zpos mx * 2 ^ (ex - ez) /\
  (snd (shl_align mx ex ez) = ez).
Proof.
  intros H. unfold shl_align. destruct (ez - ex) as [|p|p] eqn:E.
  - cbn [fst snd]. replace (ex - ez) with 0 by lia. rewrite Z.pow_0_r. lia.
  - lia.
  - cbn [fst snd]. rewrite iter_xO_value. replace (ex - ez) with (Zpos p) by lia. lia.
Qed.

Lemma binary_round_rnd (mx : positive) (ex : Z) :
  let dg := Zpos (digits2_pos mx) in
  -1000 <= ex -> dg + ex <= 1000 ->
  exists mz ez,
    pos_normal (binary_round 53 1024 false mx ex) mz ez /\
    dg + ex - 53 <= ez <= dg + ex - 52 /\
    rnd (IZR (Zpos mx) * pow2 ex) (IZR (Zpos mz) * pow2 ez) /\
    (dg <= 53 -> (IZR (Zpos mz) * pow2 ez = IZR (Zpos mx) * pow2 ex)%R /\
                 ez = dg + ex - 53).
Proof.
  intros dg Hex Hdg. pose proof (digits2_pos_bounds mx) as Hb. fold dg in Hb.
  assert (Hdg1 : 1 <= dg) by (unfold dg; lia).
  unfold binary_round. fold dg. rewrite (fexp_normal (dg + ex)) by lia.
  destruct (Z.ltb_spec dg 53) as [Hlt|Hge].
  - (* fewer than 53 digits: shift left, exactly *)
    pose proof (shl_align_value mx ex (dg + ex - 53) ltac:(lia)) as [Hv He].
    destruct (shl_align mx ex (dg + ex - 53)) as [mz0 ez0]. cbn [fst snd] in Hv, He. subst ez0.
    replace (ex - (dg + ex - 53)) with (53 - dg) in Hv by lia.
    assert (Hd0 : Zpos (digits2_pos mz0) = 53).
    { apply digits2_pos_unique. change (53 - 1) with 52. rewrite Hv.
      assert (2 ^ 52 = 2 ^ (dg - 1) * 2 ^ (53 - dg)) as ->
        by (rewrite <- Z.pow_add_r by lia; f_equal; lia).
      assert (2 ^ 53 = 2 ^ dg * 2 ^ (53 - dg)) as ->
        by (rewrite <- Z.pow_add_r by lia; f_equal; lia).
      assert (0 < 2 ^ (53 - dg)) by (apply Z.pow_pos_nonneg; lia). nia. }
    assert (Hval : (IZR (Zpos mz0) * pow2 (dg + ex - 53) = IZR (Zpos mx) * pow2 ex)%R).
    { rewrite Hv, mult_IZR, <- (pow2_IZR (53 - dg)) by lia.
      rewrite Rmult_assoc, <- pow2_add. f_equal. f_equal. lia. }
    destruct (round_aux_rnd mz0 (dg + ex - 53) loc_Exact (IZR (Zpos mx) * pow2 ex))
      as (mz & ez & Hn & Hez & Hr & Hexact).
    + rewrite Hd0. lia.
    + rewrite Hd0. lia.
    + rewrite Hd0. lia.
    + rewrite <- Hval, plus_IZR. pose proof (pow2_pos (dg + ex - 53)). split; nra.
    + rewrite Hd0 in Hez. destruct (Hexact eq_refl Hd0) as [-> ->].
      exists mz0, (dg + ex - 53). split; [exact Hn|]. split; [lia|]. split; [exact Hr|].
      intros _. split; [exact Hval|reflexivity].
  - (* at least 53 digits: round *)
    assert (Hsh : shl_align mx ex (dg + ex - 53) = (mx, ex)).
    { unfold shl_align. destruct (dg + ex - 53 - ex) as [|p|p] eqn:E; try reflexivity. lia. }
    rewrite Hsh.
    destruct (round_aux_rnd mx ex loc_Exact (IZR (Zpos mx) * pow2 ex))
      as (mz & ez & Hn & Hez & Hr & Hexact); fold dg; try lia.
    + rewrite plus_IZR. pose proof (pow2_pos ex). split; nra.
    + fold dg in Hez, Hexact. exists mz, ez. split; [exact Hn|]. split; [lia|].
      split; [exact Hr|]. intros Hle. assert (Hd : dg = 53) by lia.
      destruct (Hexact eq_refl Hd) as [-> ->]. split; [reflexivity|lia].
Qed.

(** ** The operations on positive normal doubles *)

Lemma pos_normal_value f m e :
  pos_normal f m e -> SF2R f = (IZR (Zpos m) * pow2 e)%R.
Proof. intros [-> _]. reflexivity. Qed.

Lemma pos_normal_mantissa f m e :
  pos_normal f m e -> 2 ^ 52 <= Zpos m < 2 ^ 53.
Proof.
  intros [_ Hd]. pose proof (digits2_pos_bounds m) as H. rewrite Hd in H. exact H.
Qed.

Lemma pos_normal_pos f m e : pos_normal f m e -> (0 < SF2R f)%R.
Proof.
  intros H. rewrite (pos_normal_value _ _ _ H).
  apply Rmult_lt_0_compat; [apply IZR_lt; lia|apply pow2_pos].
Qed.

(** [(double)z] *)
Lemma of_Z_rnd (z : Z) :
  0 < z < 2 ^ 64 ->
  exists m e,
    pos_normal (binary_normalize 53 1024 z 0 false) m e /\
    -52 <= e <= 12 /\
    rnd (IZR z) (SF2R (binary_normalize 53 1024 z 0 false)) /\
    (z < 2 ^ 53 -> SF2R (binary_normalize 53 1024 z 0 false) = IZR z).
Proof.
  intros [Hz1 Hz2]. destruct z as [|p|p]; try lia. cbn [binary_normalize].
  assert (Hd : 1 <= Zpos (digits2_pos p) <= 64).
  { pose proof (digits2_pos_window p 0 64 ltac:(lia)) as H. cbn in H. lia. }
  destruct (binary_round_rnd p 0 ltac:(lia) ltac:(lia)) as (m & e & Hn & He & Hr & Hx).
  exists m, e. split; [exact Hn|]. split; [lia|].
  rewrite (pos_normal_value _ _ _ Hn). rewrite pow2_0, Rmult_1_r in Hr, Hx.
  split; [exact Hr|]. intros Hlt. apply Hx.
  pose proof (digits2_pos_window p 0 53 ltac:(lia) ltac:(cbn; lia)). lia.
Qed.

(** [x * y] *)
Lemma mul_rnd x y mx ex my ey :
  pos_normal x mx ex -> pos_normal y my ey ->
  -1000 <= ex + ey <= 700 ->
  exists mz ez,
    pos_normal (SFmul 53 1024 x y) mz ez /\
    ex + ey + 52 <= ez <= ex + ey + 54 /\
    rnd (SF2R x * SF2R y) (SF2R (SFmul 53 1024 x y)).
Proof.
  intros Hx Hy He.
  pose proof (pos_normal_mantissa _ _ _ Hx) as Bx.
  pose proof (pos_normal_mantissa _ _ _ Hy) as By.
  rewrite (pos_normal_value _ _ _ Hx), (pos_normal_value _ _ _ Hy).
  destruct Hx as [-> _], Hy as [-> _]. cbn [SFmul xorb].
  assert (Hd : 105 <= Zpos (digits2_pos (mx * my)) <= 106).
  { apply (digits2_pos_window (mx * my) 104 106); [lia|].
    rewrite Pos2Z.inj_mul.
    change (2 ^ 104) with (2 ^ 52 * 2 ^ 52). change (2 ^ 106) with (2 ^ 53 * 2 ^ 53).
    gen_pow. nia. }
  destruct (round_aux_rnd (mx * my) (ex + ey) loc_Exact
              (IZR (Zpos mx) * pow2 ex * (IZR (Zpos my) * pow2 ey)))
    as (mz & ez & Hn & Hez & Hr & _); try lia.
  - rewrite plus_IZR, Pos2Z.inj_mul, mult_IZR, pow2_add.
    pose proof (pow2_pos ex). pose proof (pow2_pos ey).
    assert (0 < pow2 ex * pow2 ey)%R by nra. split; nra.
  - exists mz, ez. split; [exact Hn|]. split; [lia|].
    rewrite (pos_normal_value _ _ _ Hn). exact Hr.
Qed.

(** [x / y] *)
Lemma div_rnd x y mx ex my ey :
  pos_normal x mx ex -> pos_normal y my ey ->
  -1000 <= ex - ey <= 700 ->
  exists mz ez,
    pos_normal (SFdiv 53 1024 x y) mz ez /\
    ex - ey - 53 <= ez <= ex - ey - 51 /\
    rnd (SF2R x / SF2R y) (SF2R (SFdiv 53 1024 x y)).
Proof.
  intros Hx Hy He.
  pose proof (pos_normal_mantissa _ _ _ Hx) as Bx.
  pose proof (pos_normal_mantissa _ _ _ Hy) as By.
  rewrite (pos_normal_value _ _ _ Hx), (pos_normal_value _ _ _ Hy).
  destruct Hx as [-> Dx], Hy as [-> Dy]. cbn [SFdiv xorb].
  unfold SFdiv_core_binary. cbn [Zdigits2]. rewrite Dx, Dy.
  rewrite (fexp_normal (53 + ex - (53 + ey))) by lia.
  replace (Z.min (53 + ex - (53 + ey) - 53) (ex - ey)) with (ex - ey - 53) by lia.
  replace (ex - ey - (ex - ey - 53)) with 53 by lia.
  rewrite Z.shiftl_mul_pow2 by lia.
  pose proof (Z_div_mod (Zpos mx * 2 ^ 53) (Zpos my) ltac:(lia)) as Hdm.
  destruct (Z.div_eucl (Zpos mx * 2 ^ 53) (Zpos my)) as [q r]. destruct Hdm as [Hq Hr].
  assert (Hqb : 2 ^ 52 <= q < 2 ^ 54).
  { change (2 ^ 54) with (2 * 2 ^ 53). change (2 ^ 53) with (2 * 2 ^ 52) in *.
    gen_pow. nia. }
  destruct q as [|pq|pq]; try (exfalso; gen_pow; lia).
  assert (Hd : 53 <= Zpos (digits2_pos pq) <= 54).
  { apply (digits2_pos_window pq 52 54); lia. }
  set (X := (IZR (Zpos mx) * pow2 ex)%R). set (Y := (IZR (Zpos my) * pow2 ey)%R).
  destruct (round_aux_rnd pq (ex - ey - 53) (new_location (Zpos my) r) (X / Y))
    as (mz & ez & Hn & Hez & Hrn & _); try lia.
  - (* the quotient lies in the cell of [pq] *)
    pose proof (pow2_pos ey) as Hpey. pose proof (pow2_pos (ex - ey - 53)) as Hpe'.
    assert (HB : (0 < IZR (Zpos my))%R) by (apply IZR_lt; lia).
    assert (Hxy : (X / Y = IZR (Zpos mx) * pow2 53 / IZR (Zpos my) * pow2 (ex - ey - 53))%R).
    { unfold X, Y. replace ex with (53 + (ex - ey - 53) + ey) at 1 by lia.
      rewrite !pow2_add. field. split; lra. }
    rewrite Hxy. set (y := (IZR (Zpos mx) * pow2 53 / IZR (Zpos my))%R).
    assert (Hy : (y * IZR (Zpos my) = IZR (Zpos my) * IZR (Zpos pq) + IZR r)%R).
    { unfold y. rewrite <- mult_IZR, <- plus_IZR, <- Hq, mult_IZR, (pow2_IZR 53) by lia.
      field. lra. }
    assert (Hr0 : (0 <= IZR r < IZR (Zpos my))%R) by (split; [apply IZR_le|apply IZR_lt]; lia).
    rewrite plus_IZR. split; [apply Rmult_le_compat_r|apply Rmult_lt_compat_r]; nra.
  - exists mz, ez. split; [exact Hn|]. split; [lia|].
    rewrite (pos_normal_value _ _ _ Hn). exact Hrn.
Qed.

(** [x + y] *)
Lemma add_rnd x y mx ex my ey :
  pos_normal x mx ex -> pos_normal y my ey ->
  -900 <= ex <= 900 -> -900 <= ey <= 900 ->
  exists mz ez,
    pos_normal (SFadd 53 1024 x y) mz ez /\
    Z.min ex ey <= ez <= Z.max ex ey + 2 /\
    rnd (SF2R x + SF2R y) (SF2R (SFadd 53 1024 x y)).
Proof.
  intros Hx Hy Hex Hey.
  pose proof (pos_normal_mantissa _ _ _ Hx) as Bx.
  pose proof (pos_normal_mantissa _ _ _ Hy) as By.
  rewrite (pos_normal_value _ _ _ Hx), (pos_normal_value _ _ _ Hy).
  destruct Hx as [-> Dx], Hy as [-> Dy]. cbn [SFadd cond_Zopp].
  set (ez := Z.min ex ey).
  destruct (shl_align_value mx ex ez ltac:(unfold ez; lia)) as [Va _].
  destruct (shl_align_value my ey ez ltac:(unfold ez; lia)) as [Vb _].
  set (a := fst (shl_align mx ex ez)) in *. set (b := fst (shl_align my ey ez)) in *.
  change (Zpos a + Zpos b) with (Zpos (a + b)). cbn [binary_normalize].
  assert (Hsum : (IZR (Zpos (a + b)) * pow2 ez
                  = IZR (Zpos mx) * pow2 ex + IZR (Zpos my) * pow2 ey)%R).
  { rewrite Pos2Z.inj_add, plus_IZR, Va, Vb, !mult_IZR.
    rewrite <- !pow2_IZR by (unfold ez; lia).
    rewrite Rmult_plus_distr_r, !Rmult_assoc, <- !pow2_add.
    replace (ex - ez + ez) with ex by lia. replace (ey - ez + ez) with ey by lia.
    reflexivity. }
  assert (Hp1 : 1 <= 2 ^ (ex - ez)) by (apply (Z.pow_le_mono_r 2 0); unfold ez; lia).
  assert (Hp2 : 1 <= 2 ^ (ey - ez)) by (apply (Z.pow_le_mono_r 2 0); unfold ez; lia).
  assert (Hlo : 53 <= Zpos (digits2_pos (a + b))).
  { pose proof (digits2_pos_bounds (a + b)) as [_ B2].
    assert (Hc : 2 ^ 52 < 2 ^ Zpos (digits2_pos (a + b))).
    { rewrite Pos2Z.inj_add, Va, Vb in B2. gen_pow. nia. }
    apply Z.pow_lt_mono_r_iff in Hc; lia. }
  (* the exponent follows the larger operand *)
  assert (Hup : Zpos (digits2_pos (a + b)) <= Z.max ex ey - ez + 54).
  { assert (Hlt : Zpos (a + b) < 2 ^ (Z.max ex ey - ez + 54)).
    { rewrite Pos2Z.inj_add, Va, Vb.
      assert (Hm1 : 2 ^ (ex - ez) <= 2 ^ (Z.max ex ey - ez)) by (apply Z.pow_le_mono_r; unfold ez; lia).
      assert (Hm2 : 2 ^ (ey - ez) <= 2 ^ (Z.max ex ey - ez)) by (apply Z.pow_le_mono_r; unfold ez; lia).
      replace (Z.max ex ey - ez + 54) with (54 + (Z.max ex ey - ez)) by lia.
      rewrite Z.pow_add_r by (unfold ez; lia).
      change (2 ^ 54) with (2 * 2 ^ 53).
      assert (0 < 2 ^ (Z.max ex ey - ez)) by (apply Z.pow_pos_nonneg; unfold ez; lia).
      gen_pow. nia. }
    pose proof (digits2_pos_bounds (a + b)) as [B1 _].
    assert (Hc : 2 ^ (Zpos (digits2_pos (a + b)) - 1) < 2 ^ (Z.max ex ey - ez + 54)) by lia.
    apply Z.pow_lt_mono_r_iff in Hc; unfold ez in *; lia. }
  destruct (binary_round_rnd (a + b) ez ltac:(unfold ez; lia) ltac:(unfold ez in *; lia))
    as (mz & e & Hn & He & Hr & _).
  rewrite Hsum in Hr.
  exists mz, e. split; [exact Hn|]. split; [unfold ez in *; lia|].
  rewrite (pos_normal_value _ _ _ Hn). exact Hr.
Qed.

(** [x - y], for [y < x] *)
Lemma sub_rnd x y mx ex my ey :
  pos_normal x mx ex -> pos_normal y my ey ->
  (SF2R y < SF2R x)%R ->
  -900 <= ex <= 900 -> -900 <= ey <= 900 ->
  exists mz ez,
    pos_normal (SFsub 53 1024 x y) mz ez /\
    Z.min ex ey - 52 <= ez <= Z.max ex ey + 1 /\
    rnd (SF2R x - SF2R y) (SF2R (SFsub 53 1024 x y)).
Proof.
  intros Hx Hy Hlt Hex Hey.
  pose proof (pos_normal_mantissa _ _ _ Hx) as Bx.
  pose proof (pos_normal_mantissa _ _ _ Hy) as By.
  rewrite (pos_normal_value _ _ _ Hx), (pos_normal_value _ _ _ Hy) in *.
  destruct Hx as [-> Dx], Hy as [-> Dy]. cbn [SFsub cond_Zopp].
  set (ez := Z.min ex ey).
  destruct (shl_align_value mx ex ez ltac:(unfold ez; lia)) as [Va _].
  destruct (shl_align_value my ey ez ltac:(unfold ez; lia)) as [Vb _].
  set (a := fst (shl_align mx ex ez)) in *. set (b := fst (shl_align my ey ez)) in *.
  assert (HA : (IZR (Zpos a) * pow2 ez = IZR (Zpos mx) * pow2 ex)%R).
  { rewrite Va, mult_IZR, <- pow2_IZR by (unfold ez; lia).
    rewrite Rmult_assoc, <- pow2_add. replace (ex - ez + ez) with ex by lia. reflexivity. }
  assert (HB : (IZR (Zpos b) * pow2 ez = IZR (Zpos my) * pow2 ey)%R).
  { rewrite Vb, mult_IZR, <- pow2_IZR by (unfold ez; lia).
    rewrite Rmult_assoc, <- pow2_add. replace (ey - ez + ez) with ey by lia. reflexivity. }
  assert (Hab : Zpos b < Zpos a).
  { apply lt_IZR. pose proof (pow2_pos ez). rewrite <- HA, <- HB in Hlt. nra. }
  destruct (Zpos a - Zpos b) as [|d|d] eqn:Ed; try lia. cbn [binary_normalize].
  assert (Hdiff : (IZR (Zpos d) * pow2 ez
                   = IZR (Zpos mx) * pow2 ex - IZR (Zpos my) * pow2 ey)%R).
  { rewrite <- Ed, minus_IZR, <- HA, <- HB. ring. }
  assert (Hup : Zpos d < 2 ^ (Z.max ex ey - ez + 53)).
  { assert (Hm1 : 2 ^ (ex - ez) <= 2 ^ (Z.max ex ey - ez)) by (apply Z.pow_le_mono_r; unfold ez; lia).
    replace (Z.max ex ey - ez + 53) with (53 + (Z.max ex ey - ez)) by lia.
    rewrite Z.pow_add_r by (unfold ez; lia).
    assert (0 < 2 ^ (Z.max ex ey - ez)) by (apply Z.pow_pos_nonneg; unfold ez; lia).
    assert (Zpos d < Zpos a) by lia. rewrite Va in *. gen_pow. nia. }
  assert (Hdg : 1 <= Zpos (digits2_pos d) <= Z.max ex ey - ez + 53).
  { split; [lia|]. pose proof (digits2_pos_bounds d) as [B1 _].
    assert (Hc : 2 ^ (Zpos (digits2_pos d) - 1) < 2 ^ (Z.max ex ey - ez + 53)) by lia.
    apply Z.pow_lt_mono_r_iff in Hc; unfold ez in *; lia. }
  destruct (binary_round_rnd d ez ltac:(unfold ez; lia) ltac:(unfold ez in *; lia))
    as (mz & e & Hn & He & Hr & _).
  rewrite Hdiff in Hr.
  exists mz, e. split; [exact Hn|]. split; [unfold ez in *; lia|].
  rewrite (pos_normal_value _ _ _ Hn). exact Hr.
Qed.

(** [x < y] *)
Lemma pos_normal_lt_exp x y mx ex my ey :
  pos_normal x mx ex -> pos_normal y my ey -> ex < ey -> (SF2R x < SF2R y)%R.
Proof.
  intros Hx Hy He.
  pose proof (pos_normal_mantissa _ _ _ Hx) as Bx.
  pose proof (pos_normal_mantissa _ _ _ Hy) as By.
  rewrite (pos_normal_value _ _ _ Hx), (pos_normal_value _ _ _ Hy).
  assert (H1 : (IZR (Zpos mx) < pow2 53)%R) by (apply IZR_pow2_lt; lia).
  assert (H2 : (pow2 52 <= IZR (Zpos my))%R) by (apply IZR_pow2_le; lia).
  assert (H3 : (pow2 (53 + ex) <= pow2 (52 + ey))%R) by (apply pow2_le; lia).
  rewrite !pow2_add in H3.
  pose proof (pow2_pos ex). pose proof (pow2_pos ey). nra.
Qed.

Lemma SFltb_pos_normal x y mx ex my ey :
  pos_normal x mx ex -> pos_normal y my ey ->
  (SFltb x y = true <-> (SF2R x < SF2R y)%R).
Proof.
  intros Hx Hy.
  pose proof (pos_normal_lt_exp x y mx ex my ey Hx Hy) as Hxy.
  pose proof (pos_normal_lt_exp y x my ey mx ex Hy Hx) as Hyx.
  rewrite (pos_normal_value _ _ _ Hx), (pos_normal_value _ _ _ Hy) in *.
  destruct Hx as [-> Dx], Hy as [-> Dy]. unfold SFltb. cbn [SFcompare].
  pose proof (pow2_pos ex) as Hpe.
  destruct (Z.compare_spec ex ey) as [Heq|Hlt|Hgt].
  - subst ey. change (Pos.compare_cont Eq mx my) with (Pos.compare mx my).
    destruct (Pos.compare_spec mx my) as [Hm|Hm|Hm].
    + subst my. split; [discriminate|lra].
    + split; [intros _|reflexivity]. apply Rmult_lt_compat_r; [exact Hpe|].
      apply IZR_lt. lia.
    + split; [discriminate|]. intros H. exfalso.
      assert (IZR (Zpos my) < IZR (Zpos mx))%R by (apply IZR_lt; lia). nra.
  - split; [intros _; apply Hxy, Hlt|reflexivity].
  - split; [discriminate|]. intros H. exfalso. specialize (Hyx ltac:(lia)). lra.
Qed.

(** [(int)x]: the truncation is the floor of a positive value *)
Lemma shiftl_floor (m : positive) (e : Z) :
  (IZR (Z.shiftl (Zpos m) e) <= IZR (Zpos m) * pow2 e < IZR (Z.shiftl (Zpos m) e) + 1)%R.
Proof.
  destruct (Z.leb_spec 0 e) as [He|He].
  - rewrite Z.shiftl_mul_pow2 by exact He. rewrite mult_IZR, <- pow2_IZR by exact He. lra.
  - rewrite Z.shiftl_div_pow2 by lia.
    assert (Hp : 0 < 2 ^ (- e)) by (apply Z.pow_pos_nonneg; lia).
    pose proof (Z.mul_div_le (Zpos m) (2 ^ (- e)) Hp) as H1.
    pose proof (Z.mul_succ_div_gt (Zpos m) (2 ^ (- e)) Hp) as H2.
    set (q := Zpos m / 2 ^ (- e)) in *.
    apply IZR_le in H1. apply IZR_lt in H2.
    rewrite mult_IZR, <- pow2_IZR in H1 by lia.
    rewrite mult_IZR, <- pow2_IZR in H2 by lia.
    replace (Z.succ q) with (q + 1) in H2 by lia. rewrite plus_IZR in H2.
    pose proof (pow2_opp e) as Ho. pose proof (pow2_pos e). pose proof (pow2_pos (- e)).
    split.
    + assert (IZR q * (pow2 (- e) * pow2 e) <= IZR (Zpos m) * pow2 e)%R by nra.
      rewrite (Rmult_comm (pow2 (- e))), Ho in H3. lra.
    + assert (IZR (Zpos m) * pow2 e < (IZR q + 1) * (pow2 (- e) * pow2 e))%R by nra.
      rewrite (Rmult_comm (pow2 (- e))), Ho in H3. lra.
Qed.

(** ** The error of the interpolation, over the reals *)

Lemma Rabs_le_iff (x y : R) : (Rabs x <= y <-> - y <= x <= y)%R.
Proof.
  split; [|apply Rabs_le].
  intros H. unfold Rabs in H. destruct (Rcase_abs x); lra.
Qed.

Lemma rel_to_abs (eps x r B : R) :
  (0 < eps -> 0 <= x <= B -> Rabs (r - x) <= eps * x ->
   x - eps * B <= r <= x + eps * B)%R.
Proof. intros He Hx H. rewrite Rabs_le_iff in H. nra. Qed.

Lemma rel_nonneg (eps x r : R) :
  (0 < eps <= 1 -> 0 <= x -> Rabs (r - x) <= eps * x -> 0 <= r)%R.
Proof. intros He Hx H. rewrite Rabs_le_iff in H. nra. Qed.

Lemma scale_abs (a u s del S : R) :
  (0 <= s <= S -> 0 <= del -> a - del <= u <= a + del ->
   a * s - del * S <= u * s <= a * s + del * S)%R.
Proof. intros Hs Hd Hu. nra. Qed.

Lemma prod_unit (a s S : R) : (0 <= a <= 1 -> 0 <= s <= S -> 0 <= a * s <= S)%R.
Proof. intros Ha Hs. nra. Qed.

Lemma convex_bound (T s g S : R) :
  (0 <= T <= 1 -> 0 <= s <= S -> 0 <= g <= S -> 0 <= (1 - T) * s + T * g <= S)%R.
Proof. intros HT Hs Hg. nra. Qed.

(** Six roundings of relative error [eps] move the interpolated value plus one
    half by at most [4096 * eps]. *)
Lemma interp_error (eps T s g t u p1 p2 v w : R) :
  (0 < eps <= 1 / 1024 ->
   0 <= T <= 1 -> 0 <= s <= 255 -> 0 <= g <= 255 ->
   Rabs (t - T) <= eps * T -> t <= 1 ->
   Rabs (u - (1 - t)) <= eps * (1 - t) ->
   Rabs (p1 - u * s) <= eps * (u * s) ->
   Rabs (p2 - t * g) <= eps * (t * g) ->
   Rabs (v - (p1 + p2)) <= eps * (p1 + p2) ->
   Rabs (w - (v + 1 / 2)) <= eps * (v + 1 / 2) ->
   Rabs (w - ((1 - T) * s + T * g + 1 / 2)) <= 4096 * eps)%R.
Proof.
  intros He HT Hs Hg Ht Ht1 Hu Hp1 Hp2 Hv Hw.
  assert (He1 : (0 < eps <= 1)%R) by lra. destruct He as [He0 He].
  pose proof (rel_to_abs eps T t 1 He0 HT Ht) as Ht'.
  pose proof (rel_nonneg eps T t He1 (proj1 HT) Ht) as Ht0.
  assert (H1t : (0 <= 1 - t <= 1)%R) by lra.
  pose proof (rel_to_abs eps (1 - t) u 1 He0 H1t Hu) as Hu'.
  pose proof (rel_nonneg eps (1 - t) u He1 (proj1 H1t) Hu) as Hu0.
  assert (HaT : (0 <= 1 - T <= 1)%R) by lra.
  pose proof (prod_unit (1 - T) s 255 HaT Hs) as HTs.
  pose proof (prod_unit T g 255 HT Hg) as HTg.
  pose proof (prod_unit t g 255 (conj Ht0 Ht1) Hg) as Htg.
  assert (Hus' : ((1 - T) * s - 2 * eps * 255 <= u * s <= (1 - T) * s + 2 * eps * 255)%R).
  { apply scale_abs; lra. }
  assert (Hus0 : (0 <= u * s)%R) by (apply Rmult_le_pos; lra).
  assert (Hus : (0 <= u * s <= 256)%R) by lra.
  pose proof (rel_to_abs eps (u * s) p1 256 He0 Hus Hp1) as Hp1'.
  pose proof (rel_nonneg eps (u * s) p1 He1 Hus0 Hp1) as Hp10.
  assert (Htg' : (T * g - eps * 255 <= t * g <= T * g + eps * 255)%R).
  { apply scale_abs; lra. }
  pose proof (rel_to_abs eps (t * g) p2 255 He0 Htg Hp2) as Hp2'.
  pose proof (rel_nonneg eps (t * g) p2 He1 (proj1 Htg) Hp2) as Hp20.
  pose proof (convex_bound T s g 255 HT Hs Hg) as HV.
  assert (Hpp : (0 <= p1 + p2 <= 257)%R) by lra.
  pose proof (rel_to_abs eps (p1 + p2) v 257 He0 Hpp Hv) as Hv'.
  pose proof (rel_nonneg eps (p1 + p2) v He1 (proj1 Hpp) Hv) as Hv0.
  assert (Hvh : (0 <= v + 1 / 2 <= 258)%R) by lra.
  pose proof (rel_to_abs eps (v + 1 / 2) w 258 He0 Hvh Hw) as Hw'.
  apply Rabs_le. lra.
Qed.

(** The floor [a] of a real within [2^-40] of [N/d + 1/2] is a nearest integer
    of [N/d], the denominator being below [2^31]. *)
Lemma nearest_from_floor (a d N : Z) (w : R) :
  0 < d < 2 ^ 31 ->
  (IZR a <= w < IZR a + 1)%R ->
  (Rabs (w - (IZR N / IZR d + 1 / 2)) <= 4096 * pow2 (-52))%R ->
  Z.abs (2 * d * a - 2 * N) <= d.
Proof.
  intros Hd Ha Hw. rewrite Rabs_le_iff in Hw.
  assert (Hdr : (0 < IZR d < 2147483648)%R).
  { split; [apply (IZR_lt 0)|apply (IZR_lt d 2147483648)]; lia. }
  assert (Heps : (IZR (2 ^ 52) * pow2 (-52) = 1)%R).
  { rewrite <- (pow2_IZR 52) by lia. apply pow2_opp. }
  change (2 ^ 52) with 4503599627370496 in Heps.
  pose proof (pow2_pos (-52)) as Hpos.
  set (eps := pow2 (-52)) in *.
  assert (Hq : (IZR N / IZR d * IZR d = IZR N)%R) by (field; lra).
  set (V := (IZR N / IZR d)%R) in *.
  assert (Hsmall : (2 * IZR d * (4096 * eps) < 1)%R) by nra.
  assert (H1 : (IZR (2 * d * a - 2 * N - d) < 1)%R).
  { rewrite !minus_IZR, !mult_IZR. nra. }
  assert (H2 : (-1 < IZR (2 * d * a - 2 * N + d))%R).
  { rewrite plus_IZR, minus_IZR, !mult_IZR. nra. }
  apply (lt_IZR _ 1) in H1. apply (lt_IZR (-1)) in H2. lia.
Qed.

(** ** The constants [1.0] and [0.5] *)

Lemma one_normal : pos_normal Dbl.one 4503599627370496 (-52).
Proof. split; vm_compute; reflexivity. Qed.

Lemma half_normal : pos_normal Dbl.half 4503599627370496 (-53).
Proof. split; vm_compute; reflexivity. Qed.

Lemma SF2R_one : SF2R Dbl.one = 1%R.
Proof.
  rewrite (pos_normal_value _ _ _ one_normal).
  change 4503599627370496 with (2 ^ 52). rewrite <- (pow2_IZR 52) by lia. apply pow2_opp.
Qed.

Lemma SF2R_half : SF2R Dbl.half = (1 / 2)%R.
Proof.
  rewrite (pos_normal_value _ _ _ half_normal).
  change 4503599627370496 with (2 ^ 52). rewrite <- (pow2_IZR 52) by lia.
  replace (-53) with (-52 + -1) by lia. rewrite pow2_add, <- Rmult_assoc, pow2_opp.
  unfold pow2. simpl. lra.
Qed.

(** ** Doubles that are [+0.0] or positive normal *)

Lemma rel_refl x : (0 <= x)%R -> rel x x.
Proof.
  intros H. unfold rel. replace (x - x)%R with 0%R by ring. rewrite Rabs_R0.
  pose proof (pow2_pos (-52)). nra.
Qed.

Lemma nonneg_ge0 f lo hi : nonneg f lo hi -> (0 <= SF2R f)%R.
Proof.
  intros [-> | (m & e & H & _)]; [cbn; lra|]. apply Rlt_le, (pos_normal_pos _ _ _ H).
Qed.

Lemma nonneg_weaken f lo hi lo' hi' :
  nonneg f lo hi -> lo' <= lo -> hi <= hi' -> nonneg f lo' hi'.
Proof.
  intros [-> | (m & e & H & He)] H1 H2; [left; reflexivity|].
  right. exists m, e. split; [exact H|lia].
Qed.

Lemma of_Z_byte (s : Z) :
  0 <= s < 256 -> nonneg (Dbl.of_Z s) (-52) 12 /\ SF2R (Dbl.of_Z s) = IZR s.
Proof.
  intros Hs. destruct (Z.eq_dec s 0) as [-> | Hn].
  - split; [left; reflexivity|reflexivity].
  - assert (Hs' : 0 < s < 2 ^ 64) by (split; [lia|]; change (2 ^ 64) with 18446744073709551616; lia).
    destruct (of_Z_rnd s Hs') as (m & e & Hp & He & _ & Hx).
    split; [right; exists m, e; split; assumption|].
    apply Hx. change (2 ^ 53) with 9007199254740992. lia.
Qed.

Lemma mul_nonneg x y lx hx ly hy :
  nonneg x lx hx -> nonneg y ly hy ->
  -1000 <= lx + ly -> hx + hy <= 700 ->
  nonneg (Dbl.mul x y) (lx + ly + 52) (hx + hy + 54) /\
  rel (SF2R x * SF2R y) (SF2R (Dbl.mul x y)).
Proof.
  intros [-> | (mx & ex & Hx & Hex)] [-> | (my & ey & Hy & Hey)] Hlo Hhi.
  - split; [left; reflexivity|]. cbn. rewrite Rmult_0_l. apply rel_refl. lra.
  - destruct Hy as [-> _]. split; [left; reflexivity|].
    cbn [Dbl.mul SFmul SF2R xorb]. rewrite Rmult_0_l. apply rel_refl. lra.
  - destruct Hx as [-> _]. split; [left; reflexivity|].
    cbn [Dbl.mul SFmul SF2R xorb]. rewrite Rmult_0_r. apply rel_refl. lra.
  - destruct (mul_rnd x y mx ex my ey Hx Hy ltac:(lia)) as (mz & ez & Hz & Hez & Hr & _).
    split; [right; exists mz, ez; split; [exact Hz|lia]|exact Hr].
Qed.

Lemma add_nonneg x y lx hx ly hy :
  nonneg x lx hx -> nonneg y ly hy ->
  -900 <= lx -> hx <= 900 -> -900 <= ly -> hy <= 900 ->
  nonneg (Dbl.add x y) (Z.min lx ly) (Z.max hx hy + 2) /\
  rel (SF2R x + SF2R y) (SF2R (Dbl.add x y)).
Proof.
  intros [-> | (mx & ex & Hx & Hex)] [-> | (my & ey & Hy & Hey)] H1 H2 H3 H4.
  - split; [left; reflexivity|]. cbn. rewrite Rplus_0_l. apply rel_refl. lra.
  - pose proof (pos_normal_pos _ _ _ Hy) as Hp. destruct Hy as [Ey Dy]. rewrite Ey in *.
    cbn [Dbl.add SFadd]. split; [right; exists my, ey; split; [split; [reflexivity|exact Dy]|lia]|].
    change (SF2R (S754_zero false)) with 0%R. rewrite Rplus_0_l. apply rel_refl. lra.
  - pose proof (pos_normal_pos _ _ _ Hx) as Hp. destruct Hx as [Ex Dx]. rewrite Ex in *.
    cbn [Dbl.add SFadd]. split; [right; exists mx, ex; split; [split; [reflexivity|exact Dx]|lia]|].
    change (SF2R (S754_zero false)) with 0%R. rewrite Rplus_0_r. apply rel_refl. lra.
  - destruct (add_rnd x y mx ex my ey Hx Hy ltac:(lia) ltac:(lia))
      as (mz & ez & Hz & Hez & Hr & _).
    split; [right; exists mz, ez; split; [exact Hz|lia]|exact Hr].
Qed.

Lemma min_lt o q : SFltb q o = true -> Dbl.min o q = q.
Proof. intros H. unfold Dbl.min, Dbl.ltb. rewrite H. reflexivity. Qed.

Lemma min_ge o q : SFltb q o = false -> Dbl.min o q = o.
Proof. intros H. unfold Dbl.min, Dbl.ltb. rewrite H. reflexivity. Qed.

Lemma leb_one_one : Dbl.leb Dbl.one Dbl.one = true.
Proof. vm_compute. reflexivity. Qed.

Lemma sub_one_zero : Dbl.sub Dbl.one (S754_zero false) = Dbl.one.
Proof. vm_compute. reflexivity. Qed.

Lemma ltb_zero_one : SFltb (S754_zero false) Dbl.one = true.
Proof. vm_compute. reflexivity. Qed.

Lemma of_Z_pos (z : Z) :
  0 < z < 2 ^ 64 ->
  exists m e, pos_normal (Dbl.of_Z z) m e /\ -52 <= e <= 12 /\
    rnd (IZR z) (SF2R (Dbl.of_Z z)) /\
    (z < 2 ^ 53 -> SF2R (Dbl.of_Z z) = IZR z).
Proof. exact (of_Z_rnd z). Qed.

Lemma pow2_31_53 : 2 ^ 31 < 2 ^ 53.
Proof. reflexivity. Qed.

Lemma pow2_53_64 : 2 ^ 53 < 2 ^ 64.
Proof. reflexivity. Qed.

(** The quotient [elapsed / duration] once the duration has passed. *)
Lemma quot_late (e d : Z) :
  0 < d < 2 ^ 31 -> d <= e < 2 ^ 64 ->
  Dbl.min Dbl.one (Dbl.div (Dbl.of_Z e) (Dbl.of_Z d)) = Dbl.one.
Proof.
  intros Hd He. pose proof pow2_31_53 as H31. pose proof pow2_53_64 as H53.
  destruct (of_Z_pos e ltac:(lia)) as (me & ee & HE & Hee & [_ HEm] & HEx).
  destruct (of_Z_pos d ltac:(lia)) as (md & ed & HD & Hed & _ & HDx).
  specialize (HDx ltac:(lia)).
  assert (HED : (SF2R (Dbl.of_Z d) <= SF2R (Dbl.of_Z e))%R).
  { rewrite HDx. destruct (Z_lt_le_dec e (2 ^ 53)) as [Hlt | Hge].
    - rewrite (HEx Hlt). apply IZR_le. lia.
    - apply Rle_trans with (pow2 53).
      + rewrite (pow2_IZR 53) by lia. apply IZR_le. lia.
      + apply HEm. rewrite (pow2_IZR 53) by lia. apply IZR_le. exact Hge. }
  destruct (div_rnd _ _ _ _ _ _ HE HD ltac:(lia)) as (mq & eq & HQ & Heq & [_ HQm]).
  apply min_ge. destruct (SFltb (Dbl.div (Dbl.of_Z e) (Dbl.of_Z d)) Dbl.one) eqn:Hlt; [|reflexivity].
  exfalso. apply (SFltb_pos_normal _ _ _ _ _ _ HQ one_normal) in Hlt.
  rewrite SF2R_one in Hlt.
  specialize (HQm 0). rewrite pow2_0 in HQm.
  pose proof (pos_normal_pos _ _ _ HD) as HDp.
  assert (1 <= SF2R (Dbl.of_Z e) / SF2R (Dbl.of_Z d))%R as H1.
  { apply (Rmult_le_reg_r (SF2R (Dbl.of_Z d))); [exact HDp|].
    unfold Rdiv. rewrite Rmult_assoc, Rinv_l by lra. lra. }
  specialize (HQm H1). exact (Rlt_not_le _ _ Hlt HQm).
Qed.

(** The quotient [elapsed / duration] before the duration has passed. *)
Lemma quot_early (e d : Z) :
  0 < d < 2 ^ 31 -> 0 <= e < d ->
  let t := Dbl.min Dbl.one (Dbl.div (Dbl.of_Z e) (Dbl.of_Z d)) in
  nonneg t (-117) 13 /\ rel (IZR e / IZR d) (SF2R t) /\ (SF2R t < 1)%R.
Proof.
  intros Hd He t. pose proof pow2_31_53 as H31. pose proof pow2_53_64 as H53.
  destruct (of_Z_pos d ltac:(lia)) as (md & ed & HD & Hed & _ & HDx).
  specialize (HDx ltac:(lia)).
  assert (Hdp : (0 < IZR d)%R) by (apply IZR_lt; lia).
  destruct (Z.eq_dec e 0) as [-> | Hne].
  - assert (Ht : t = S754_zero false).
    { unfold t. change (Dbl.of_Z 0) with (S754_zero false).
      destruct HD as [-> _]. cbn [Dbl.div SFdiv xorb].
      apply min_lt. exact ltb_zero_one. }
    rewrite Ht. split; [left; reflexivity|]. cbn [SF2R].
    split; [|lra]. unfold Rdiv. rewrite Rmult_0_l. apply rel_refl. lra.
  - destruct (of_Z_pos e ltac:(lia)) as (me & ee & HE & Hee & _ & HEx).
    specialize (HEx ltac:(lia)).
    destruct (div_rnd _ _ _ _ _ _ HE HD ltac:(lia)) as (mq & eq & HQ & Heq & [HQr _]).
    change (SFdiv 53 1024) with Dbl.div in HQ, HQr. rewrite HEx, HDx in HQr.
    assert (Hq1 : (SF2R (Dbl.div (Dbl.of_Z e) (Dbl.of_Z d)) < 1)%R).
    { assert (HT : (IZR e / IZR d <= 1 - / IZR d)%R).
      { apply (Rmult_le_reg_r (IZR d)); [exact Hdp|].
        unfold Rdiv. rewrite Rmult_assoc, Rmult_minus_distr_r, Rinv_l by lra.
        assert (IZR e <= IZR d - 1)%R by (rewrite <- minus_IZR; apply IZR_le; lia). lra. }
      assert (HT0 : (0 <= IZR e / IZR d)%R).
      { apply Rmult_le_pos; [apply IZR_le; lia|]. apply Rlt_le, Rinv_0_lt_compat, Hdp. }
      assert (Hinv : (pow2 (-31) < / IZR d)%R).
      { replace (pow2 (-31)) with (/ pow2 31)%R.
        - apply Rinv_lt_contravar.
          + apply Rmult_lt_0_compat; [exact Hdp|apply pow2_pos].
          + rewrite (pow2_IZR 31) by lia. apply IZR_lt. lia.
        - pose proof (pow2_opp 31) as Ho. pose proof (pow2_pos 31) as Hp.
          apply (Rmult_eq_reg_r (pow2 31)); [|lra]. rewrite Rinv_l by lra. symmetry.
          replace (-31) with (- (31)) by lia. rewrite Rmult_comm. exact Ho. }
      assert (Heps : (pow2 (-52) <= pow2 (-31))%R) by (apply pow2_le; lia).
      apply Rabs_le_iff in HQr. pose proof (pow2_pos (-52)) as Hp52.
      assert (pow2 (-52) * (IZR e / IZR d) <= pow2 (-52))%R by nra.
      lra. }
    assert (Ht : t = Dbl.div (Dbl.of_Z e) (Dbl.of_Z d)).
    { unfold t. apply min_lt. apply (SFltb_pos_normal _ _ _ _ _ _ HQ one_normal).
      rewrite SF2R_one. exact Hq1. }
    rewrite Ht. split; [right; exists mq, eq; split; [exact HQ|lia]|].
    split; [exact HQr|exact Hq1].
Qed.

(** [1.0 - t] for a fraction [t] below 1. *)
Lemma sub_one_nonneg t lo hi :
  nonneg t lo hi -> (SF2R t < 1)%R -> -900 <= lo -> hi <= 900 ->
  nonneg (Dbl.sub Dbl.one t) (Z.min (-52) lo - 52) (Z.max (-52) hi + 1) /\
  rel (1 - SF2R t) (SF2R (Dbl.sub Dbl.one t)).
Proof.
  intros [-> | (m & e & Ht & He)] Hlt Hlo Hhi.
  - rewrite sub_one_zero. split.
    + right. exists 4503599627370496%positive, (-52). split; [exact one_normal|lia].
    + rewrite SF2R_one. cbn [SF2R]. replace (1 - 0)%R with 1%R by ring. apply rel_refl. lra.
  - rewrite <- SF2R_one in Hlt.
    destruct (sub_rnd _ _ _ _ _ _ one_normal Ht Hlt ltac:(lia) ltac:(lia))
      as (mz & ez & Hz & Hez & [Hr _]).
    change (SFsub 53 1024) with Dbl.sub in Hz, Hr. rewrite SF2R_one in Hr.
    split; [right; exists mz, ez; split; [exact Hz|lia]|exact Hr].
Qed.

(** [(int)w] is the floor of a non-negative [w] below [2^31]. *)
Lemma to_int_floor w lo hi :
  nonneg w lo hi -> (SF2R w < pow2 31)%R ->
  (IZR (Dbl.to_int w) <= SF2R w < IZR (Dbl.to_int w) + 1)%R.
Proof.
  intros [-> | (m & e & Hw & _)] Hlt.
  - cbn. lra.
  - rewrite (pos_normal_value _ _ _ Hw) in *. destruct Hw as [-> _].
    pose proof (shiftl_floor m e) as Hf.
    assert (H0 : 0 <= Z.shiftl (Z.pos m) e) by (apply Z.shiftl_nonneg; lia).
    assert (H1 : Z.shiftl (Z.pos m) e < 2 ^ 31).
    { apply lt_IZR. rewrite <- (pow2_IZR 31) by lia. lra. }
    unfold Dbl.to_int. cbn [cond_Zopp]. unfold Dbl.INT_MIN, Dbl.INT_MAX.
    replace ((- 2 ^ 31 <=? Z.shiftl (Z.pos m) e) && (Z.shiftl (Z.pos m) e <=? 2 ^ 31 - 1))
      with true; [exact Hf|].
    symmetry. apply andb_true_iff. split; apply Z.leb_le; lia.
Qed.

#[local] Arguments tick_t : simpl never.
#[local] Arguments tick_alpha : simpl never.
#[local] Arguments Dbl.leb : simpl never.
#[local] Arguments Z.land : simpl never.
#[local] Arguments Z.lor : simpl never.
#[local] Arguments Z.lnot : simpl never.
#[local] Arguments Z.max : simpl never.
#[local] Arguments Z.eqb : simpl never.

Lemma land_layered_lor ex :
  (Z.land (Z.lor ex WS_EX_LAYERED) WS_EX_LAYERED =? 0) = false.
Proof.
  apply Z.eqb_neq. intros H.
  apply (f_equal (fun z => Z.testbit z 19)) in H.
  rewrite Z.land_spec, Z.lor_spec in H.
  change (Z.testbit WS_EX_LAYERED 19) with true in H.
  rewrite orb_true_r in H. discriminate H.
Qed.

Lemma land_layered_lnot ex :
  (Z.land (Z.land ex (Z.lnot WS_EX_LAYERED)) WS_EX_LAYERED =? 0) = true.
Proof.
  apply Z.eqb_eq. rewrite <- Z.land_assoc.
  change (Z.land (Z.lnot WS_EX_LAYERED) WS_EX_LAYERED) with 0. apply Z.land_0_r.
Qed.

Ltac unfold_ops :=
  unfold exec, on_destroy, StartFade, StopFade, FadeTickCb, ApplyAlphaRemember, SetLayered,
    anim_erase, st_set, st_get, anim_index, anim_find, CreateTimerQueueTimer, CreateTimerQueue,
    DeleteTimerQueueTimer, SetLayeredWindowAttributes, SetWindowLongPtrW_EXSTYLE,
    GetWindowLongPtrW_EXSTYLE, GetAncestor_ROOT, IsWindow, bind, ret, gets, modify.

Ltac map_norm :=
  repeat first
    [ rewrite lookup_alter_eq | rewrite lookup_insert_eq | rewrite lookup_delete_eq
    | rewrite alter_insert_eq | rewrite insert_insert_eq
    | match goal with H : ?m !! ?k = _ |- context [?m !! ?k] => rewrite H end ].

Ltac split_if :=
  match goal with
  | |- context [if ?b then _ else _] => destruct b eqn:?
  | |- context [match ?o with Some _ => _ | None => _ end] => destruct o eqn:?
  end.

Ltac sym_exec := repeat (cbn; map_norm; try split_if).

Ltac z_bool :=
  repeat match goal with
  | H : context [negb _ = true] |- _ => rewrite negb_true_iff in H
  | H : context [negb _ = false] |- _ => rewrite negb_false_iff in H
  | H : context [(_ || _) = true] |- _ => rewrite orb_true_iff in H
  | H : context [(_ || _) = false] |- _ => rewrite orb_false_iff in H
  | H : context [(_ && _) = true] |- _ => rewrite andb_true_iff in H
  | H : context [(_ && _) = false] |- _ => rewrite andb_false_iff in H
  | H : context [(_ =? _) = true] |- _ => rewrite Z.eqb_eq in H
  | H : context [(_ =? _) = false] |- _ => rewrite Z.eqb_neq in H
  | H : _ /\ _ |- _ => destruct H
  end.

Ltac bool_finish :=
  repeat match goal with |- context [?a =? ?b] => destruct (Z.eqb_spec a b) end;
  cbn; try reflexivity; try (exfalso; (lia || congruence)).

Ltac hyps_norm :=
  cbn in *;
  repeat (match goal with
  | H : context [alter _ ?k _ !! ?k] |- _ => rewrite lookup_alter_eq in H
  | H : context [<[?k := _]> _ !! ?k] |- _ => rewrite lookup_insert_eq in H
  | H : context [delete ?k _ !! ?k] |- _ => rewrite lookup_delete_eq in H
  | H : context [alter _ ?k (<[?k := _]> _)] |- _ => rewrite alter_insert_eq in H
  | E : ?m !! ?k = _, H : context [?m !! ?k] |- _ =>
      lazymatch H with E => fail | _ => rewrite E in H end
  end; cbn in *);
  rewrite ?land_layered_lor, ?land_layered_lnot in *;
  try discriminate;
  z_bool; subst.

Ltac map_ext k :=
  apply map_eq; let i := fresh "i" in intros i;
  destruct (decide (i = k)) as [->|?];
  [ repeat first [ rewrite lookup_alter_eq | rewrite lookup_insert_eq
                 | rewrite lookup_delete_eq ]
  | repeat first [ rewrite lookup_alter_ne by congruence
                 | rewrite lookup_insert_ne by congruence
                 | rewrite lookup_delete_ne by congruence ] ].

Ltac rec_eq :=
  repeat match goal with st : WinAnim |- _ => destruct st end;
  cbn in *; subst; try reflexivity; try congruence;
  try (repeat f_equal; (congruence || lia)).

(** * Properties *)

(** ** The translucency bit *)

Ltac bit_norm :=
  rewrite ?land_layered_lor, ?land_layered_lnot in *;
  repeat match goal with
  | H : (Z.land ?e WS_EX_LAYERED =? 0) = _ |- context [Z.land ?e WS_EX_LAYERED =? 0] =>
      rewrite H
  end.

Lemma SetLayered_layered hwnd on s :
  layered (exec (SetLayered hwnd on) s) hwnd = on.
Proof.
  destruct s as [gTO gFM gEN gTQ gA wW wR wX wAl wT wC]. unfold layered. unfold_ops.
  destruct on; sym_exec; bit_norm; try reflexivity; try assumption; try (symmetry; assumption).
Qed.

(** ** What each function leaves behind *)

Lemma del_timer_NULL m : del_timer NULL m = m.
Proof. reflexivity. Qed.

Ltac exec_cases :=
  sym_exec; hyps_norm; try (exfalso; lia); try congruence.

Lemma StartFade_anim os hwnd tgt dur s :
  g_anim (exec (StartFade os hwnd tgt dur) s)
  = <[hwnd := StartFade_rec os tgt dur (anim s hwnd)]> (g_anim s).
Proof.
  destruct s as [gTO gFM gEN gTQ gA wW wR wX wAl wT wC]. unfold anim, StartFade_rec, StartFade_fast. unfold_ops. cbn.
  destruct (gA !! hwnd) as [st0|] eqn:E; exec_cases.
  all: map_ext hwnd; cbn; rewrite ?E; cbn; try reflexivity; rec_eq.
Qed.

Lemma StartFade_timers os hwnd tgt dur s :
  w_timers (exec (StartFade os hwnd tgt dur) s)
  = let m := del_timer (hTimer (anim s hwnd)) (w_timers s) in
    if StartFade_fast tgt dur (anim s hwnd) then m
    else match os_CreateTimerQueueTimer os with
         | Some h => <[h := hwnd]> m
         | None => m
         end.
Proof.
  destruct s as [gTO gFM gEN gTQ gA wW wR wX wAl wT wC]. unfold anim, del_timer, StartFade_fast. unfold_ops. cbn.
  destruct (gA !! hwnd) as [st0|] eqn:E; exec_cases.
  all: reflexivity.
Qed.

Lemma StartFade_alpha os hwnd tgt dur s :
  w_alpha (exec (StartFade os hwnd tgt dur) s)
  = if StartFade_fast tgt dur (anim s hwnd) then <[hwnd := tgt]> (w_alpha s)
    else w_alpha s.
Proof.
  destruct s as [gTO gFM gEN gTQ gA wW wR wX wAl wT wC]. unfold anim, StartFade_fast. unfold_ops. cbn.
  destruct (gA !! hwnd) as [st0|] eqn:E; exec_cases.
  all: reflexivity.
Qed.

Lemma StartFade_layered os hwnd tgt dur s :
  layered (exec (StartFade os hwnd tgt dur) s) hwnd
  = negb (StartFade_fast tgt dur (anim s hwnd) && (tgt =? 255)).
Proof.
  destruct s as [gTO gFM gEN gTQ gA wW wR wX wAl wT wC]. unfold anim, StartFade_fast, layered. unfold_ops. cbn.
  destruct (gA !! hwnd) as [st0|] eqn:E; sym_exec; bit_norm; hyps_norm;
    try (exfalso; lia); try congruence.
  all: cbn; bit_norm; try reflexivity; bool_finish.
Qed.

Lemma StartFade_calls_fast os hwnd tgt dur s :
  StartFade_fast tgt dur (anim s hwnd) = true ->
  exists new,
    w_calls (exec (StartFade os hwnd tgt dur) s) = new ++ w_calls s /\
    forallb (fun c => negb (is_timer_call c)) new = true /\
    In (Call_SetLayeredWindowAttributes hwnd tgt) new.
Proof.
  destruct s as [gTO gFM gEN gTQ gA wW wR wX wAl wT wC]. unfold anim, StartFade_fast. unfold_ops. cbn.
  destruct (gA !! hwnd) as [st0|] eqn:E; cbn; intros Hf; exec_cases.
  all: try (rewrite Hf in *; discriminate).
  all: match goal with
       | |- exists new, ?l = new ++ ?old /\ _ =>
           let rec go l acc :=
             lazymatch l with
             | old => exists (rev acc)
             | ?c :: ?l' => go l' (c :: acc)
             end in go l (@nil ApiCall)
       end; cbn; intuition.
Qed.

Lemma StartFade_calls_slow os hwnd tgt dur s :
  StartFade_fast tgt dur (anim s hwnd) = false ->
  exists new,
    w_calls (exec (StartFade os hwnd tgt dur) s) = new ++ w_calls s /\
    forallb (fun c => negb (is_alpha_call c)) new = true.
Proof.
  destruct s as [gTO gFM gEN gTQ gA wW wR wX wAl wT wC]. unfold anim, StartFade_fast. unfold_ops. cbn.
  destruct (gA !! hwnd) as [st0|] eqn:E; cbn; intros Hf; exec_cases.
  all: try (rewrite Hf in *; discriminate).
  all: match goal with
       | |- exists new, ?l = new ++ ?old /\ _ =>
           let rec go l acc :=
             lazymatch l with
             | old => exists (rev acc)
             | ?c :: ?l' => go l' (c :: acc)
             end in go l (@nil ApiCall)
       end; cbn; intuition.
Qed.

Lemma StopFade_anim hwnd force s :
  g_anim (exec (StopFade hwnd force) s)
  = match g_anim s !! hwnd with
    | Some st0 => <[hwnd := StopFade_rec force st0]> (g_anim s)
    | None => g_anim s
    end.
Proof.
  destruct s as [gTO gFM gEN gTQ gA wW wR wX wAl wT wC]. unfold StopFade_rec. unfold_ops. cbn.
  destruct (gA !! hwnd) as [st0|] eqn:E; exec_cases.
  all: try reflexivity.
  all: map_ext hwnd; cbn; rewrite ?E; cbn; try reflexivity; rec_eq.
Qed.

Lemma StopFade_timers hwnd force s :
  w_timers (exec (StopFade hwnd force) s)
  = del_timer (hTimer (anim s hwnd)) (w_timers s).
Proof.
  destruct s as [gTO gFM gEN gTQ gA wW wR wX wAl wT wC]. unfold anim, del_timer. unfold_ops. cbn.
  destruct (gA !! hwnd) as [st0|] eqn:E; exec_cases.
  all: reflexivity.
Qed.

Lemma FadeTickCb_skip now hwnd s :
  tick_runs s hwnd = false -> FadeTickCb now hwnd s = (tt, s).
Proof.
  unfold tick_runs. unfold FadeTickCb, IsWindow, anim_find, bind, gets, ret. cbn.
  destruct (bool_decide (hwnd ∈ w_windows s)); cbn; [|reflexivity].
  destruct (g_anim s !! hwnd) as [st|]; cbn; [|reflexivity].
  intros ->. reflexivity.
Qed.

Lemma tick_runs_inv s hwnd :
  tick_runs s hwnd = true ->
  bool_decide (hwnd ∈ w_windows s) = true /\
  exists st, g_anim s !! hwnd = Some st /\ active st = true.
Proof.
  unfold tick_runs. intros H. apply andb_true_iff in H as [H1 H2].
  split; [exact H1|].
  destruct (g_anim s !! hwnd) as [st|]; [|discriminate]. eauto.
Qed.

Lemma FadeTickCb_anim now hwnd s :
  tick_runs s hwnd = true ->
  g_anim (exec (FadeTickCb now hwnd) s)
  = <[hwnd := tick_rec now (anim s hwnd)]> (g_anim s).
Proof.
  destruct s as [gTO gFM gEN gTQ gA wW wR wX wAl wT wC]. unfold tick_runs, anim, tick_rec, tick_done. unfold_ops. cbn.
  destruct (bool_decide _); [|discriminate]. cbn.
  destruct (gA !! hwnd) as [st0|] eqn:E; [|discriminate].
  cbn. intros Ha. rewrite Ha.
  exec_cases.
  all: map_ext hwnd; cbn; rewrite ?E; cbn; try reflexivity; rec_eq.
Qed.

Lemma FadeTickCb_timers now hwnd s :
  tick_runs s hwnd = true ->
  w_timers (exec (FadeTickCb now hwnd) s)
  = if tick_done (anim s hwnd) now
    then del_timer (hTimer (anim s hwnd)) (w_timers s) else w_timers s.
Proof.
  destruct s as [gTO gFM gEN gTQ gA wW wR wX wAl wT wC]. unfold tick_runs, anim, del_timer, tick_done. unfold_ops. cbn.
  destruct (bool_decide _); [|discriminate]. cbn.
  destruct (gA !! hwnd) as [st0|] eqn:E; [|discriminate].
  cbn. intros Ha. rewrite Ha.
  exec_cases.
  all: reflexivity.
Qed.

Lemma FadeTickCb_alpha now hwnd s :
  tick_runs s hwnd = true ->
  w_alpha (exec (FadeTickCb now hwnd) s)
  = <[hwnd := tick_alpha (anim s hwnd) now]> (w_alpha s).
Proof.
  destruct s as [gTO gFM gEN gTQ gA wW wR wX wAl wT wC]. unfold tick_runs, anim. unfold_ops. cbn.
  destruct (bool_decide _); [|discriminate]. cbn.
  destruct (gA !! hwnd) as [st0|] eqn:E; [|discriminate].
  cbn. intros Ha. rewrite Ha.
  exec_cases.
  all: reflexivity.
Qed.

Lemma FadeTickCb_layered now hwnd s :
  tick_runs s hwnd = true ->
  layered (exec (FadeTickCb now hwnd) s) hwnd
  = negb (tick_done (anim s hwnd) now && (targetAlpha (anim s hwnd) =? 255)).
Proof.
  destruct s as [gTO gFM gEN gTQ gA wW wR wX wAl wT wC]. unfold tick_runs, anim, layered, tick_done. unfold_ops. cbn.
  destruct (bool_decide _); [|discriminate]. cbn.
  destruct (gA !! hwnd) as [st0|] eqn:E; [|discriminate].
  cbn. intros Ha. rewrite Ha.
  sym_exec; bit_norm; hyps_norm; try (exfalso; lia); try congruence.
  all: cbn; bit_norm; try reflexivity; bool_finish.
Qed.

Lemma on_destroy_anim root s :
  g_anim (exec (on_destroy root) s) = delete root (g_anim s).
Proof.
  destruct s as [gTO gFM gEN gTQ gA wW wR wX wAl wT wC]. unfold_ops. cbn.
  destruct (gA !! root) as [st0|] eqn:E; exec_cases.
  all: map_ext root; cbn; rewrite ?E; reflexivity.
Qed.

Lemma on_destroy_timers root s :
  w_timers (exec (on_destroy root) s)
  = del_timer (hTimer (anim s root)) (w_timers s).
Proof.
  destruct s as [gTO gFM gEN gTQ gA wW wR wX wAl wT wC]. unfold anim, del_timer. unfold_ops. cbn.
  destruct (gA !! root) as [st0|] eqn:E; exec_cases.
  all: reflexivity.
Qed.

Lemma on_destroy_alpha root s :
  w_alpha (exec (on_destroy root) s) = <[root := 255]> (w_alpha s).
Proof.
  destruct s as [gTO gFM gEN gTQ gA wW wR wX wAl wT wC]. unfold_ops. cbn.
  destruct (gA !! root) as [st0|] eqn:E; exec_cases.
  all: rewrite ?insert_insert_eq; reflexivity.
Qed.

Lemma on_destroy_layered root s :
  layered (exec (on_destroy root) s) root = false.
Proof.
  destruct s as [gTO gFM gEN gTQ gA wW wR wX wAl wT wC]. unfold layered. unfold_ops. cbn.
  destruct (gA !! root) as [st0|] eqn:E;
    sym_exec; bit_norm; hyps_norm; try (exfalso; lia); try congruence.
  all: cbn; bit_norm; try reflexivity; bool_finish.
Qed.

(** ** The hook *)

Lemma hook_disabled os hWnd Msg wParam s :
  g_enabled s = false -> DefWindowProcW_Hook os hWnd Msg wParam s = (tt, s).
Proof. intros H. unfold DefWindowProcW_Hook, bind, gets, ret. cbn. rewrite H. reflexivity. Qed.

Lemma hook_destroy os hWnd Msg wParam s :
  g_enabled s = true -> Msg = WM_DESTROY \/ Msg = WM_NCDESTROY ->
  exec (DefWindowProcW_Hook os hWnd Msg wParam) s = exec (on_destroy (root_of s hWnd)) s.
Proof.
  intros He HM. unfold exec, DefWindowProcW_Hook, root_of, bind, gets, GetAncestor_ROOT, ret.
  cbn. rewrite He. cbn. destruct HM; subst Msg; reflexivity.
Qed.

Lemma hook_cases os hWnd Msg wParam s :
  exec (DefWindowProcW_Hook os hWnd Msg wParam) s = s \/
  (exists tgt ms, exec (DefWindowProcW_Hook os hWnd Msg wParam) s
                  = exec (StartFade os (root_of s hWnd) tgt ms) s) \/
  exec (DefWindowProcW_Hook os hWnd Msg wParam) s = exec (on_destroy (root_of s hWnd)) s.
Proof.
  unfold exec at 1 2 4, DefWindowProcW_Hook, root_of, bind, gets, GetAncestor_ROOT, ret.
  cbn. destruct (g_enabled s); cbn; [|left; reflexivity].
  change (default NULL (w_root s !! hWnd)) with (default NULL (w_root s !! hWnd)).
  set (root := if default NULL (w_root s !! hWnd) =? NULL then hWnd else default NULL (w_root s !! hWnd)).
  destruct (Msg =? WM_ENTERSIZEMOVE); [right; left; eauto|].
  destruct ((Msg =? WM_EXITSIZEMOVE) || (Msg =? WM_CAPTURECHANGED) || (Msg =? WM_CANCELMODE));
    [right; left; eauto|].
  destruct (Msg =? WM_NCLBUTTONUP).
  { destruct (wParam =? HTCAPTION); [right; left; eauto | left; reflexivity]. }
  destruct ((Msg =? WM_DESTROY) || (Msg =? WM_NCDESTROY)); [right; right; reflexivity | left; reflexivity].
Qed.

(** ** Invariants of the reachable states *)

Lemma anim_insert_eq s hwnd st m :
  g_anim s = <[hwnd := st]> m -> anim s hwnd = st.
Proof. unfold anim. intros ->. rewrite lookup_insert_eq. reflexivity. Qed.

Lemma anim_insert_ne s s0 hwnd w st :
  g_anim s = <[hwnd := st]> (g_anim s0) -> w <> hwnd -> anim s w = anim s0 w.
Proof. unfold anim. intros -> H. rewrite lookup_insert_ne by congruence. reflexivity. Qed.

Lemma del_timer_lookup h m k w :
  del_timer h m !! k = Some w -> m !! k = Some w /\ (h = NULL \/ k <> h).
Proof.
  unfold del_timer. destruct (Z.eqb_spec h NULL) as [->|Hn]; [intuition|].
  intros H. apply lookup_delete_Some in H. intuition.
Qed.

(** Once the recorded handle of [hwnd] is cancelled, no tick is left for [hwnd]. *)
Lemma tracked_cancelled s hwnd k w :
  timers_tracked s ->
  del_timer (hTimer (anim s hwnd)) (w_timers s) !! k = Some w ->
  w <> hwnd /\ w_timers s !! k = Some w.
Proof.
  intros HT H. apply del_timer_lookup in H as [H Hk]. split; [|exact H].
  intros ->. destruct (HT _ _ H) as [Hn He]. destruct Hk as [Hk|Hk]; congruence.
Qed.

Lemma StartFade_tracked os hwnd tgt dur s :
  timer_nonnull os -> timers_tracked s ->
  timers_tracked (exec (StartFade os hwnd tgt dur) s).
Proof.
  intros Hos HT k w Hk.
  pose proof (StartFade_anim os hwnd tgt dur s) as Ha.
  rewrite StartFade_timers in Hk. cbn in Hk.
  assert (Hold : del_timer (hTimer (anim s hwnd)) (w_timers s) !! k = Some w ->
                 k <> NULL /\ hTimer (anim (exec (StartFade os hwnd tgt dur) s) w) = k).
  { intros H. apply tracked_cancelled in H as [Hw H]; [|exact HT].
    rewrite (anim_insert_ne _ _ _ _ _ Ha Hw). apply HT, H. }
  destruct (StartFade_fast tgt dur (anim s hwnd)) eqn:Hf; [auto|].
  destruct (os_CreateTimerQueueTimer os) as [h'|] eqn:Hh; [|auto].
  destruct (decide (k = h')) as [->|Hne].
  - rewrite lookup_insert_eq in Hk. injection Hk as <-.
    rewrite (anim_insert_eq _ _ _ _ Ha). unfold StartFade_rec. rewrite Hf, Hh. cbn.
    split; [|reflexivity]. unfold timer_nonnull in Hos. congruence.
  - rewrite lookup_insert_ne in Hk by congruence. auto.
Qed.

Lemma StopFade_tracked hwnd force s :
  timers_tracked s -> timers_tracked (exec (StopFade hwnd force) s).
Proof.
  intros HT k w Hk. rewrite StopFade_timers in Hk.
  apply tracked_cancelled in Hk as [Hw Hk]; [|exact HT].
  pose proof (StopFade_anim hwnd force s) as Ha.
  replace (anim (exec (StopFade hwnd force) s) w) with (anim s w); [apply HT, Hk|].
  destruct (g_anim s !! hwnd).
  - symmetry. eapply anim_insert_ne; eauto.
  - unfold anim. rewrite Ha. reflexivity.
Qed.

Lemma FadeTickCb_tracked now hwnd s :
  timers_tracked s -> timers_tracked (exec (FadeTickCb now hwnd) s).
Proof.
  intros HT. destruct (tick_runs s hwnd) eqn:Hr.
  2:{ unfold exec. rewrite FadeTickCb_skip by exact Hr. exact HT. }
  intros k w Hk. pose proof (FadeTickCb_anim now hwnd s Hr) as Ha.
  rewrite FadeTickCb_timers in Hk by exact Hr.
  destruct (tick_done (anim s hwnd) now) eqn:Hd.
  - apply tracked_cancelled in Hk as [Hw Hk]; [|exact HT].
    rewrite (anim_insert_ne _ _ _ _ _ Ha Hw). apply HT, Hk.
  - destruct (decide (w = hwnd)) as [->|Hw].
    + rewrite (anim_insert_eq _ _ _ _ Ha). unfold tick_rec. rewrite Hd. apply HT, Hk.
    + rewrite (anim_insert_ne _ _ _ _ _ Ha Hw). apply HT, Hk.
Qed.

Lemma on_destroy_tracked root s :
  timers_tracked s -> timers_tracked (exec (on_destroy root) s).
Proof.
  intros HT k w Hk. rewrite on_destroy_timers in Hk.
  apply tracked_cancelled in Hk as [Hw Hk]; [|exact HT].
  unfold anim. rewrite on_destroy_anim, lookup_delete_ne by congruence. apply HT, Hk.
Qed.

Lemma reachable_tracked s : reachable timer_nonnull s -> timers_tracked s.
Proof.
  induction 1 as [s Ha Ht|s os hwnd tgt dur _ IH Hos|s now hwnd _ IH|s hwnd force _ IH
                 |s os hWnd Msg wParam _ IH Hos].
  - intros k w Hk. rewrite Ht, lookup_empty in Hk. discriminate.
  - apply StartFade_tracked; assumption.
  - apply FadeTickCb_tracked; assumption.
  - apply StopFade_tracked; assumption.
  - destruct (hook_cases os hWnd Msg wParam s) as [->|[(tgt & ms & ->)| ->]].
    + exact IH.
    + apply StartFade_tracked; assumption.
    + apply on_destroy_tracked; assumption.
Qed.

Lemma reachable_weaken (P Q : Os -> Prop) s :
  (forall os, P os -> Q os) -> reachable P s -> reachable Q s.
Proof.
  intros HPQ. induction 1.
  - apply reach_init; assumption.
  - apply reach_StartFade; auto.
  - apply reach_Tick; auto.
  - apply reach_StopFade; auto.
  - apply reach_Message; auto.
Qed.

Lemma timer_created_nonnull os : timer_created os -> timer_nonnull os.
Proof. intros (h & Hh & Hn). unfold timer_nonnull. congruence. Qed.

Lemma handle_iff_active_insert s s0 hwnd st :
  g_anim s = <[hwnd := st]> (g_anim s0) ->
  (hTimer st <> NULL <-> active st = true) ->
  handle_iff_active s0 -> handle_iff_active s.
Proof.
  intros Ha Hst H0 w st' Hw. rewrite Ha in Hw.
  destruct (decide (w = hwnd)) as [->|Hne].
  - rewrite lookup_insert_eq in Hw. injection Hw as <-. exact Hst.
  - rewrite lookup_insert_ne in Hw by congruence. eapply H0, Hw.
Qed.

Lemma StartFade_handle_iff_active os hwnd tgt dur s :
  timer_created os -> handle_iff_active s ->
  handle_iff_active (exec (StartFade os hwnd tgt dur) s).
Proof.
  intros (h & Hh & Hn) H0.
  eapply handle_iff_active_insert; [apply StartFade_anim| |exact H0].
  unfold StartFade_rec. rewrite Hh.
  destruct (StartFade_fast tgt dur (anim s hwnd)); cbn; intuition congruence.
Qed.

Lemma StopFade_handle_iff_active hwnd force s :
  handle_iff_active s -> handle_iff_active (exec (StopFade hwnd force) s).
Proof.
  intros H0. pose proof (StopFade_anim hwnd force s) as Ha.
  destruct (g_anim s !! hwnd).
  - eapply handle_iff_active_insert; [exact Ha| |exact H0].
    cbn. intuition congruence.
  - intros w st Hw. rewrite Ha in Hw. eapply H0, Hw.
Qed.

Lemma FadeTickCb_handle_iff_active now hwnd s :
  handle_iff_active s -> handle_iff_active (exec (FadeTickCb now hwnd) s).
Proof.
  intros H0. destruct (tick_runs s hwnd) eqn:Hr.
  2:{ unfold exec. rewrite FadeTickCb_skip by exact Hr. exact H0. }
  eapply handle_iff_active_insert; [apply FadeTickCb_anim, Hr| |exact H0].
  apply tick_runs_inv in Hr as (_ & st & E & Hact).
  unfold anim, tick_rec. rewrite E. cbn.
  destruct (tick_done st now); cbn; [intuition congruence|].
  apply (H0 _ _ E).
Qed.

Lemma on_destroy_handle_iff_active root s :
  handle_iff_active s -> handle_iff_active (exec (on_destroy root) s).
Proof.
  intros H0 w st Hw. rewrite on_destroy_anim in Hw.
  apply lookup_delete_Some in Hw as [_ Hw]. eapply H0, Hw.
Qed.

(** ** The tick at [t = 1.0] *)

Lemma compare_cont_Eq_antisym p q :
  Pos.compare_cont Eq q p = CompOpp (Pos.compare_cont Eq p q).
Proof. rewrite (Pos.compare_cont_antisym p q Eq). reflexivity. Qed.

Lemma SFltb_not_leb x y : SFltb x y = true -> SFleb y x = false.
Proof.
  unfold SFltb, SFleb.
  destruct x as [sx|sx| |sx mx ex], y as [sy|sy| |sy my ey]; simpl;
    try destruct sx; try destruct sy; try discriminate; try reflexivity.
  - rewrite (Z.compare_antisym ex ey), (compare_cont_Eq_antisym mx my).
    destruct (ex ?= ey); simpl; try discriminate; try reflexivity.
    destruct (Pos.compare_cont Eq mx my); simpl; try discriminate; reflexivity.
  - rewrite (Z.compare_antisym ex ey), (compare_cont_Eq_antisym mx my).
    destruct (ex ?= ey); simpl; try discriminate; try reflexivity.
    destruct (Pos.compare_cont Eq mx my); simpl; try discriminate; reflexivity.
Qed.

Lemma tick_done_one st now : tick_done st now = true -> tick_t st now = Dbl.one.
Proof.
  unfold tick_done, tick_t. destruct (0 <? durationMs st); [|reflexivity].
  unfold Dbl.min, Dbl.ltb, Dbl.leb.
  generalize Dbl.one. intros o.
  match goal with |- context [SFltb ?q o] => generalize q end. intros q.
  destruct (SFltb q o) eqn:Hlt; [|reflexivity].
  intros H. rewrite (SFltb_not_leb _ _ Hlt) in H. discriminate.
Qed.

Lemma forall_bytes (P : Z -> bool) :
  forallb P bytes = true -> forall z, 0 <= z < 256 -> P z = true.
Proof.
  intros H z Hz. rewrite forallb_forall in H. apply H.
  unfold bytes. apply in_map_iff. exists (Z.to_nat z). split; [lia|].
  apply in_seq. lia.
Qed.

Lemma mul_zero_bytes : forallb mul_zero_ok bytes = true.
Proof. vm_compute. reflexivity. Qed.

Lemma alpha_at_one_bytes : forallb alpha_at_one_ok bytes = true.
Proof. vm_compute. reflexivity. Qed.

Lemma mul_zero_byte s :
  0 <= s < 256 -> Dbl.mul (Dbl.sub Dbl.one Dbl.one) (Dbl.of_Z s) = S754_zero false.
Proof.
  intros Hs. pose proof (forall_bytes _ mul_zero_bytes s Hs) as H.
  unfold mul_zero_ok in H.
  destruct (Dbl.mul (Dbl.sub Dbl.one Dbl.one) (Dbl.of_Z s)) as [[|]| | |];
    try discriminate. reflexivity.
Qed.

Lemma tick_alpha_done st now :
  0 <= startAlpha st < 256 -> 0 <= targetAlpha st < 256 ->
  tick_done st now = true -> tick_alpha st now = targetAlpha st.
Proof.
  intros Hs Hg Hd. unfold tick_alpha, tick_v. rewrite (tick_done_one _ _ Hd).
  rewrite (mul_zero_byte _ Hs).
  pose proof (forall_bytes _ alpha_at_one_bytes _ Hg) as H.
  unfold alpha_at_one_ok in H. apply Z.eqb_eq in H. exact H.
Qed.

Ltac calls_split :=
  match goal with
  | |- exists new, ?l = new ++ ?old /\ _ =>
      let rec go l acc :=
        lazymatch l with
        | old => exists (rev acc)
        | ?c :: ?l' => go l' (c :: acc)
        end in go l (@nil ApiCall)
  | |- exists new, ?l = new ++ ?old =>
      let rec go l acc :=
        lazymatch l with
        | old => exists (rev acc)
        | ?c :: ?l' => go l' (c :: acc)
        end in go l (@nil ApiCall)
  end.

(** The cancellation of the pending tick is the first call [StartFade] makes. *)
Lemma StartFade_calls_cancel os hwnd tgt dur s :
  exists later,
    w_calls (exec (StartFade os hwnd tgt dur) s)
    = later ++ (if hTimer (anim s hwnd) =? NULL then []
                else [Call_DeleteTimerQueueTimer (g_timerQueue s) (hTimer (anim s hwnd))])
            ++ w_calls s.
Proof.
  destruct s as [gTO gFM gEN gTQ gA wW wR wX wAl wT wC]. unfold anim. unfold_ops. cbn.
  destruct (gA !! hwnd) as [st0|] eqn:E; sym_exec; hyps_norm;
    try (exfalso; lia); try congruence.
  all: repeat match goal with
       | |- context [?a =? ?b] => destruct (Z.eqb_spec a b); try (exfalso; congruence)
       end; cbn.
  all: calls_split; reflexivity.
Qed.

Lemma on_destroy_calls root s :
  In (Call_SetLayeredWindowAttributes root 255) (w_calls (exec (on_destroy root) s)).
Proof.
  destruct s as [gTO gFM gEN gTQ gA wW wR wX wAl wT wC]. unfold_ops. cbn.
  destruct (gA !! root) as [st0|] eqn:E; exec_cases.
  all: cbn; intuition.
Qed.

(** ** Fading to 255 *)

Lemma tracked_one_tick s hwnd : timers_tracked s -> at_most_one_tick s hwnd.
Proof.
  intros HT h h' H H'. destruct (HT _ _ H) as [_ <-]. destruct (HT _ _ H') as [_ <-].
  reflexivity.
Qed.

Lemma StartFade_fast_again os d st0 :
  StartFade_fast 255 d (StartFade_rec os 255 d st0) = StartFade_fast 255 d st0.
Proof.
  unfold StartFade_rec. destruct (StartFade_fast 255 d st0) eqn:Hf; unfold StartFade_fast in *; cbn.
  - apply orb_true_r.
  - exact Hf.
Qed.
(** ** The byte of a tick *)

Lemma elapsed_range now start : 0 <= elapsed now start < 2 ^ 64.
Proof. unfold elapsed. apply Z.mod_pos_bound. reflexivity. Qed.

Lemma half_nonneg : nonneg Dbl.half (-53) (-53).
Proof. right. exists 4503599627370496%positive, (-53). split; [exact half_normal|lia]. Qed.

Lemma eps_small : (0 < pow2 (-52) <= 1 / 1024)%R.
Proof.
  split; [apply pow2_pos|].
  apply Rle_trans with (pow2 (-10)); [apply pow2_le; lia|].
  pose proof (pow2_opp 10) as H. rewrite (pow2_IZR 10) in H by lia.
  change (2 ^ 10) with 1024 in H. change (- (10)) with (-10) in H. lra.
Qed.

(** The interpolation over the reals, as a quotient of integers. *)
Lemma interp_quot (e d s g : Z) :
  0 < d ->
  ((1 - IZR e / IZR d) * IZR s + IZR e / IZR d * IZR g
   = IZR ((d - e) * s + e * g) / IZR d)%R.
Proof.
  intros Hd. assert (IZR d <> 0)%R by (apply not_0_IZR; lia).
  rewrite plus_IZR, !mult_IZR, minus_IZR. field. assumption.
Qed.

(** The integer [(int)(v + 0.5)] of a tick before the end of the fade is a
    nearest integer of the exact interpolation. *)
Lemma tick_int_early (e d s g : Z) :
  0 <= s < 256 -> 0 <= g < 256 -> 0 < d < 2 ^ 31 -> 0 <= e < d ->
  let t := Dbl.min Dbl.one (Dbl.div (Dbl.of_Z e) (Dbl.of_Z d)) in
  let v := Dbl.add (Dbl.mul (Dbl.sub Dbl.one t) (Dbl.of_Z s)) (Dbl.mul t (Dbl.of_Z g)) in
  Z.abs (2 * d * Dbl.to_int (Dbl.add v Dbl.half) - 2 * ((d - e) * s + e * g)) <= d.
Proof.
  intros Hs Hg Hd He t v.
  destruct (quot_early e d Hd He) as (Ht & Hrt & Ht1). fold t in Ht, Hrt, Ht1.
  destruct (sub_one_nonneg t _ _ Ht Ht1 ltac:(lia) ltac:(lia)) as (Hu & Hru).
  destruct (of_Z_byte s Hs) as (HS & HSx).
  destruct (of_Z_byte g Hg) as (HG & HGx).
  destruct (mul_nonneg _ _ _ _ _ _ Hu HS ltac:(lia) ltac:(lia)) as (Hp1 & Hrp1).
  destruct (mul_nonneg _ _ _ _ _ _ Ht HG ltac:(lia) ltac:(lia)) as (Hp2 & Hrp2).
  destruct (add_nonneg _ _ _ _ _ _ Hp1 Hp2 ltac:(lia) ltac:(lia) ltac:(lia) ltac:(lia))
    as (Hv & Hrv).
  fold v in Hv, Hrv.
  destruct (add_nonneg _ _ _ _ _ _ Hv half_nonneg ltac:(lia) ltac:(lia) ltac:(lia) ltac:(lia))
    as (Hw & Hrw).
  rewrite HSx in Hrp1. rewrite HGx in Hrp2. rewrite SF2R_half in Hrw.
  unfold rel in *.
  assert (Hdp : (0 < IZR d)%R) by (apply IZR_lt; lia).
  assert (HT : (0 <= IZR e / IZR d <= 1)%R).
  { split.
    - apply Rmult_le_pos; [apply IZR_le; lia|]. apply Rlt_le, Rinv_0_lt_compat, Hdp.
    - apply (Rmult_le_reg_r (IZR d)); [exact Hdp|].
      unfold Rdiv. rewrite Rmult_assoc, Rinv_l by lra.
      assert (IZR e <= IZR d)%R by (apply IZR_le; lia). lra. }
  assert (HsR : (0 <= IZR s <= 255)%R) by (split; apply IZR_le; lia).
  assert (HgR : (0 <= IZR g <= 255)%R) by (split; apply IZR_le; lia).
  pose proof (interp_error _ _ _ _ _ _ _ _ _ _ eps_small HT HsR HgR Hrt (Rlt_le _ _ Ht1)
                Hru Hrp1 Hrp2 Hrv Hrw) as Herr.
  pose proof (convex_bound _ _ _ 255%R HT HsR HgR) as Hcb.
  assert (Hw31 : (SF2R (Dbl.add v Dbl.half) < pow2 31)%R).
  { rewrite (pow2_IZR 31) by lia. change (2 ^ 31) with 2147483648.
    apply Rabs_le_iff in Herr. pose proof eps_small. lra. }
  pose proof (to_int_floor _ _ _ Hw Hw31) as Hfl.
  rewrite (interp_quot e d s g) in Herr by lia.
  exact (nearest_from_floor _ _ _ _ Hd Hfl Herr).
Qed.

(** A nearest integer of a value between 0 and 255 is a byte. *)
Lemma nearest_byte (a d N : Z) :
  0 < d -> 0 <= N <= 255 * d -> Z.abs (2 * d * a - 2 * N) <= d -> 0 <= a <= 255.
Proof. intros Hd HN H. apply Z.abs_le in H. nia. Qed.

Lemma ClampByte_byte (a : Z) : 0 <= a <= 255 -> ClampByte a = a.
Proof.
  intros H. unfold ClampByte, to_BYTE.
  rewrite Z.max_r, Z.min_r by lia. apply Z.mod_small. lia.
Qed.

Lemma interp_num_range (e d s g : Z) :
  0 <= s < 256 -> 0 <= g < 256 -> 0 <= e <= d ->
  0 <= (d - e) * s + e * g <= 255 * d.
Proof. intros Hs Hg He. nia. Qed.

Lemma tick_done_late st now :
  0 < durationMs st < 2 ^ 31 ->
  durationMs st <= elapsed now (startTick st) ->
  tick_done st now = true.
Proof.
  intros Hd He. unfold tick_done, tick_t.
  destruct (0 <? durationMs st) eqn:Hpos; [|exact leb_one_one].
  rewrite (quot_late _ _ Hd (conj He (proj2 (elapsed_range now (startTick st))))).
  exact leb_one_one.
Qed.

Lemma tick_done_nodur st now : durationMs st <= 0 -> tick_done st now = true.
Proof.
  intros Hd. unfold tick_done, tick_t.
  destruct (0 <? durationMs st) eqn:Hpos; [apply Z.ltb_lt in Hpos; lia|exact leb_one_one].
Qed.

(** The byte of a tick is a nearest integer of the exact interpolation. *)
Lemma tick_alpha_nearest st now :
  0 <= startAlpha st < 256 -> 0 <= targetAlpha st < 256 ->
  0 < durationMs st < 2 ^ 31 ->
  let d := durationMs st in
  let e := Z.min (elapsed now (startTick st)) d in
  let a := tick_alpha st now in
  0 <= a <= 255 /\
  Z.abs (2 * d * a - 2 * ((d - e) * startAlpha st + e * targetAlpha st)) <= d.
Proof.
  intros Hs Hg Hd d e a.
  pose proof (elapsed_range now (startTick st)) as Hel.
  destruct (Z_lt_le_dec (elapsed now (startTick st)) (durationMs st)) as [Hlt | Hge].
  - assert (He : e = elapsed now (startTick st)) by (unfold e, d; lia).
    pose proof (tick_int_early e d _ _ Hs Hg Hd ltac:(lia)) as Hn. cbv zeta in Hn.
    pose proof (nearest_byte _ d _ (proj1 Hd)
                  (interp_num_range e d _ _ Hs Hg ltac:(lia)) Hn) as Hb.
    assert (Ha : a = Dbl.to_int (Dbl.add (Dbl.add (Dbl.mul (Dbl.sub Dbl.one
                   (Dbl.min Dbl.one (Dbl.div (Dbl.of_Z e) (Dbl.of_Z d)))) (Dbl.of_Z (startAlpha st)))
                   (Dbl.mul (Dbl.min Dbl.one (Dbl.div (Dbl.of_Z e) (Dbl.of_Z d)))
                      (Dbl.of_Z (targetAlpha st)))) Dbl.half)).
    { unfold a, tick_alpha, tick_v, tick_t. fold d.
      replace (0 <? d) with true by (symmetry; apply Z.ltb_lt; lia).
      rewrite <- He. apply ClampByte_byte. exact Hb. }
    rewrite Ha. split; [exact Hb|exact Hn].
  - assert (He : e = d) by (unfold e, d; lia).
    unfold a. rewrite (tick_alpha_done st now Hs Hg (tick_done_late st now Hd Hge)).
    rewrite He. split; [lia|].
    replace (2 * d * targetAlpha st - 2 * ((d - d) * startAlpha st + d * targetAlpha st))
      with 0 by ring.
    simpl. unfold d. lia.
Qed.

(** ** Nearest integers, over the reals *)

Lemma Rmin_quot (e d : Z) :
  0 < d -> 0 <= e -> Rmin 1 (IZR e / IZR d) = (IZR (Z.min e d) / IZR d)%R.
Proof.
  intros Hd He. assert (Hdp : (0 < IZR d)%R) by (apply IZR_lt; lia).
  destruct (Z_lt_le_dec e d) as [Hlt | Hge].
  - rewrite Z.min_l by lia. apply Rmin_right.
    apply (Rmult_le_reg_r (IZR d)); [exact Hdp|].
    unfold Rdiv. rewrite Rmult_assoc, Rinv_l by lra.
    assert (IZR e <= IZR d)%R by (apply IZR_le; lia). lra.
  - rewrite Z.min_r by lia. unfold Rdiv at 2. rewrite Rinv_r by lra. apply Rmin_left.
    apply (Rmult_le_reg_r (IZR d)); [exact Hdp|].
    unfold Rdiv. rewrite Rmult_assoc, Rinv_l by lra.
    assert (IZR d <= IZR e)%R by (apply IZR_le; lia). lra.
Qed.

Lemma nearest_real (a d N : Z) :
  0 < d -> Z.abs (2 * d * a - 2 * N) <= d ->
  (Rabs (IZR a - IZR N / IZR d) <= 1 / 2)%R.
Proof.
  intros Hd H. apply Z.abs_le in H. destruct H as [H1 H2].
  assert (Hdp : (0 < IZR d)%R) by (apply IZR_lt; lia).
  apply IZR_le in H1, H2.
  rewrite opp_IZR in H1. rewrite minus_IZR, !mult_IZR in H1, H2.
  assert (Hq : (IZR N / IZR d * IZR d = IZR N)%R) by (field; lra).
  set (V := (IZR N / IZR d)%R) in *.
  apply Rabs_le. split; nra.
Qed.

(** The byte of a tick against the interpolation with [t = min(1, e / d)]. *)
Lemma tick_alpha_real st now :
  0 <= startAlpha st < 256 -> 0 <= targetAlpha st < 256 ->
  0 < durationMs st < 2 ^ 31 ->
  let t := Rmin 1 (IZR (elapsed now (startTick st)) / IZR (durationMs st)) in
  (Rabs (IZR (tick_alpha st now)
         - ((1 - t) * IZR (startAlpha st) + t * IZR (targetAlpha st))) <= 1 / 2)%R.
Proof.
  intros Hs Hg Hd t.
  destruct (tick_alpha_nearest st now Hs Hg Hd) as [_ Hn]. cbv zeta in Hn.
  pose proof (elapsed_range now (startTick st)) as He.
  unfold t. rewrite (Rmin_quot _ _ (proj1 Hd) (proj1 He)).
  rewrite interp_quot by lia. apply nearest_real; [lia|exact Hn].
Qed.

(** * The claims *)

(** C1: for every window and every prior animation state, handling a
    window-destroyed message ([WM_DESTROY] or [WM_NCDESTROY], the mod being
    enabled) applies opacity 255 to the window the hook animates, clears its
    translucency bit and erases its record from [g_anim]. *)
Theorem C1_window_destroyed_failsafe (os : Os) (s : System) (hWnd Msg wParam : Z) :
  g_enabled s = true ->
  Msg = WM_DESTROY \/ Msg = WM_NCDESTROY ->
  let root := root_of s hWnd in
  let s' := exec (DefWindowProcW_Hook os hWnd Msg wParam) s in
  w_alpha s' !! root = Some 255 /\
  In (Call_SetLayeredWindowAttributes root 255) (w_calls s') /\
  layered s' root = false /\
  g_anim s' !! root = None.
Proof.
  intros He HM root s'. subst s'. rewrite (hook_destroy os hWnd Msg wParam s He HM).
  fold root. rewrite on_destroy_alpha, on_destroy_anim, on_destroy_layered.
  rewrite lookup_insert_eq, lookup_delete_eq.
  repeat split; try reflexivity. apply on_destroy_calls.
Qed.

Lemma C1_witness :
  g_enabled sys_mid = true /\
  (WM_DESTROY = WM_DESTROY \/ WM_DESTROY = WM_NCDESTROY) /\
  let root := root_of sys_mid 7 in
  let s' := exec (DefWindowProcW_Hook (mkOs 1060 55 None) 7 WM_DESTROY 0) sys_mid in
  w_alpha s' !! root = Some 255 /\
  In (Call_SetLayeredWindowAttributes root 255) (w_calls s') /\
  layered s' root = false /\
  g_anim s' !! root = None.
Proof.
  split; [reflexivity|]. split; [left; reflexivity|].
  apply (C1_window_destroyed_failsafe (mkOs 1060 55 None) sys_mid 7 WM_DESTROY 0);
    [reflexivity | left; reflexivity].
Defined.

(** C2: a tick whose window no longer exists, or whose record is missing from
    [g_anim], or whose record is not active, returns the state it was given:
    no field of the mod or of the windowing system changes and no API call
    is logged. *)
Theorem C2_ghost_tick_noop (now : Z) (hwnd : HWND) (s : System) :
  hwnd ∉ w_windows s \/ g_anim s !! hwnd = None \/
  (exists st, g_anim s !! hwnd = Some st /\ active st = false) ->
  FadeTickCb now hwnd s = (tt, s).
Proof.
  intros H. apply FadeTickCb_skip. unfold tick_runs.
  destruct H as [H|[H|(st & H & Ha)]].
  - rewrite bool_decide_eq_false_2 by exact H. reflexivity.
  - rewrite H. apply andb_false_r.
  - rewrite H, Ha. apply andb_false_r.
Qed.

Lemma C2_witness :
  (7 ∉ w_windows sys_dim \/ g_anim sys_dim !! 7 = None \/
   (exists st, g_anim sys_dim !! 7 = Some st /\ active st = false)) /\
  FadeTickCb 1115 7 sys_dim = (tt, sys_dim).
Proof.
  assert (H : 7 ∉ w_windows sys_dim \/ g_anim sys_dim !! 7 = None \/
              (exists st, g_anim sys_dim !! 7 = Some st /\ active st = false)).
  { right. right. exists (mkWinAnim false 255 120 1000 100 120 NULL).
    split; [vm_compute; reflexivity | reflexivity]. }
  split; [exact H | exact (C2_ghost_tick_noop 1115 7 sys_dim H)].
Defined.

(** C3: when [StartFade] finds a record for the window, the fade it sets up
    starts at that record's [lastApplied] as it was at the call, whatever the
    previous target was. *)
Theorem C3_start_from_last_applied (os : Os) (s : System) (hwnd : HWND)
    (targetAlpha' durMs : Z) (st0 : WinAnim) :
  g_anim s !! hwnd = Some st0 ->
  exists st,
    g_anim (exec (StartFade os hwnd targetAlpha' durMs) s) !! hwnd = Some st /\
    startAlpha st = lastApplied st0.
Proof.
  intros H. rewrite StartFade_anim, lookup_insert_eq. unfold anim. rewrite H. cbn.
  eexists. split; [reflexivity|].
  unfold StartFade_rec. destruct (StartFade_fast _ _ _); reflexivity.
Qed.

Lemma C3_witness :
  g_anim sys_mid !! 7 = Some (mkWinAnim true 255 120 1000 100 188 9) /\
  exists st,
    g_anim (exec (StartFade (mkOs 1050 55 (Some 11)) 7 255 100) sys_mid) !! 7 = Some st /\
    startAlpha st = lastApplied (mkWinAnim true 255 120 1000 100 188 9).
Proof.
  assert (H : g_anim sys_mid !! 7 = Some (mkWinAnim true 255 120 1000 100 188 9))
    by (vm_compute; reflexivity).
  split; [exact H|].
  exact (C3_start_from_last_applied (mkOs 1050 55 (Some 11)) sys_mid 7 255 100 _ H).
Defined.

(** C4: when the stored duration is 0 or the window's [lastApplied] already
    equals the target, [StartFade] writes the target opacity at once, leaves
    the record inactive with a null tick handle, makes no
    [CreateTimerQueueTimer] call and adds no timer, and for target 255 leaves
    the translucency bit cleared. *)
Theorem C4_fast_path (os : Os) (s : System) (hwnd : HWND) (targetAlpha' durMs : Z) :
  Z.max 0 durMs = 0 \/ lastApplied (anim s hwnd) = targetAlpha' ->
  let s' := exec (StartFade os hwnd targetAlpha' durMs) s in
  w_alpha s' !! hwnd = Some targetAlpha' /\
  active (anim s' hwnd) = false /\
  hTimer (anim s' hwnd) = NULL /\
  (exists new, w_calls s' = new ++ w_calls s /\
               forallb (fun c => negb (is_timer_call c)) new = true /\
               In (Call_SetLayeredWindowAttributes hwnd targetAlpha') new) /\
  w_timers s' = del_timer (hTimer (anim s hwnd)) (w_timers s) /\
  (targetAlpha' = 255 -> layered s' hwnd = false).
Proof.
  intros H s'. subst s'.
  assert (Hf : StartFade_fast targetAlpha' durMs (anim s hwnd) = true).
  { unfold StartFade_fast. apply orb_true_iff.
    destruct H as [H|H]; [left|right]; apply Z.eqb_eq; exact H. }
  rewrite StartFade_alpha, StartFade_timers, StartFade_layered, Hf. cbn.
  rewrite (anim_insert_eq _ _ _ _ (StartFade_anim os hwnd targetAlpha' durMs s)).
  unfold StartFade_rec. rewrite Hf. cbn. rewrite lookup_insert_eq.
  repeat split; try reflexivity.
  - apply StartFade_calls_fast, Hf.
  - intros ->. reflexivity.
Qed.

Lemma C4_witness :
  (Z.max 0 0 = 0 \/ lastApplied (anim sys0 7) = 120) /\
  let s' := exec (StartFade (mkOs 1000 55 (Some 9)) 7 120 0) sys0 in
  w_alpha s' !! 7 = Some 120 /\
  active (anim s' 7) = false /\
  hTimer (anim s' 7) = NULL /\
  (exists new, w_calls s' = new ++ w_calls sys0 /\
               forallb (fun c => negb (is_timer_call c)) new = true /\
               In (Call_SetLayeredWindowAttributes 7 120) new) /\
  w_timers s' = del_timer (hTimer (anim sys0 7)) (w_timers sys0) /\
  (120 = 255 -> layered s' 7 = false).
Proof.
  split; [left; reflexivity|].
  apply (C4_fast_path (mkOs 1000 55 (Some 9)) sys0 7 120 0). left. reflexivity.
Defined.

(** C10: when [g_anim] has no record for the window, [g_anim[hwnd]] creates
    one holding the default member values, whose [lastApplied] is 255, and
    the fade [StartFade] then sets up starts at 255. *)
Theorem C10_lazy_default_record (os : Os) (s : System) (hwnd : HWND)
    (targetAlpha' durMs : Z) :
  g_anim s !! hwnd = None ->
  fst (anim_index hwnd s) = WinAnim_default /\
  g_anim (snd (anim_index hwnd s)) !! hwnd = Some WinAnim_default /\
  lastApplied WinAnim_default = 255 /\
  exists st,
    g_anim (exec (StartFade os hwnd targetAlpha' durMs) s) !! hwnd = Some st /\
    startAlpha st = 255 /\
    targetAlpha st = targetAlpha' /\
    startTick st = os_GetTickCount64 os /\
    durationMs st = Z.max 0 durMs.
Proof.
  intros H. unfold anim_index. rewrite H. cbn. rewrite lookup_insert_eq.
  repeat split.
  rewrite StartFade_anim, lookup_insert_eq. unfold anim. rewrite H. cbn.
  eexists. split; [reflexivity|].
  unfold StartFade_rec. destruct (StartFade_fast _ _ _); cbn; repeat split; reflexivity.
Qed.

Lemma C10_witness :
  g_anim sys0 !! 7 = None /\
  fst (anim_index 7 sys0) = WinAnim_default /\
  g_anim (snd (anim_index 7 sys0)) !! 7 = Some WinAnim_default /\
  lastApplied WinAnim_default = 255 /\
  exists st,
    g_anim (exec (StartFade (mkOs 1000 55 (Some 9)) 7 120 100) sys0) !! 7 = Some st /\
    startAlpha st = 255 /\
    targetAlpha st = 120 /\
    startTick st = os_GetTickCount64 (mkOs 1000 55 (Some 9)) /\
    durationMs st = Z.max 0 100.
Proof.
  split; [reflexivity|].
  apply (C10_lazy_default_record (mkOs 1000 55 (Some 9)) sys0 7 120 100). reflexivity.
Defined.

(** C6, as stated, fails: a fade request during which
    [CreateTimerQueueTimer] fails leaves the record active with a null tick
    handle, and that state is reachable. *)
Lemma C6_counterexample :
  reachable timer_nonnull sys_stuck /\ ~ handle_iff_active sys_stuck.
Proof.
  split.
  - unfold sys_stuck, sys_dim, sys_mid, sys_fading.
    apply reach_StartFade; [|discriminate].
    do 2 apply reach_Tick.
    apply reach_StartFade; [|discriminate].
    apply reach_init; reflexivity.
  - intros H.
    assert (E : g_anim sys_stuck !! 7 = Some (mkWinAnim true 120 255 1200 100 120 NULL))
      by (vm_compute; reflexivity).
    destruct (H 7 _ E) as [_ H2]. apply H2; reflexivity.
Qed.

(** C6, amended: in every state reached by fade requests, ticks, stops and
    hook messages during which every [CreateTimerQueueTimer] call succeeded
    with a non-null handle, each record's tick handle is non-null iff its
    active flag is true. *)
Theorem C6_handle_iff_active (s : System) :
  reachable timer_created s -> handle_iff_active s.
Proof.
  induction 1 as [s Ha Ht|s os hwnd tgt dur _ IH Hos|s now hwnd _ IH|s hwnd force _ IH
                 |s os hWnd Msg wParam _ IH Hos].
  - intros w st Hw. rewrite Ha, lookup_empty in Hw. discriminate.
  - apply StartFade_handle_iff_active; assumption.
  - apply FadeTickCb_handle_iff_active; assumption.
  - apply StopFade_handle_iff_active; assumption.
  - destruct (hook_cases os hWnd Msg wParam s) as [->|[(tgt & ms & ->)| ->]].
    + exact IH.
    + apply StartFade_handle_iff_active; assumption.
    + apply on_destroy_handle_iff_active; assumption.
Qed.

Lemma C6_witness :
  reachable timer_created sys_mid /\ handle_iff_active sys_mid.
Proof.
  assert (H : reachable timer_created sys_mid).
  { unfold sys_mid, sys_fading. apply reach_Tick. apply reach_StartFade.
    - apply reach_init; reflexivity.
    - exists 9. split; [reflexivity | discriminate]. }
  split; [exact H | exact (C6_handle_iff_active sys_mid H)].
Defined.

(** C7, as stated, fails: with window 7 resting at opacity 120, a request to
    fade back to 255 during which [CreateTimerQueueTimer] fails writes no
    opacity; the window stays at 120 with its translucency bit set, its record
    active and no tick scheduled. *)
Lemma C7_counterexample :
  let os := mkOs 1200 55 None in
  let s' := exec (StartFade os 7 255 100) sys_dim in
  os_CreateTimerQueueTimer os = None /\
  w_alpha s' !! 7 <> Some 255 /\
  w_alpha s' !! 7 = Some 120 /\
  layered s' 7 = true /\
  active (anim s' 7) = true /\
  w_timers s' = ∅.
Proof.
  cbv zeta.
  assert (E : w_alpha (exec (StartFade (mkOs 1200 55 None) 7 255 100) sys_dim) !! 7 = Some 120)
    by (vm_compute; reflexivity).
  split; [reflexivity|]. split; [rewrite E; discriminate|]. split; [exact E|].
  repeat split; vm_compute; reflexivity.
Qed.

(** C7, amended: a [StartFade] request that takes the slow path (stored
    duration above 0 and [lastApplied] different from the target) while
    [CreateTimerQueueTimer] fails writes no opacity at all: the alpha of every
    window is what it was, no [SetLayeredWindowAttributes] call is made, the
    translucency bit is set, the record is left active with a null tick
    handle, and no timer is added. *)
Theorem C7_timer_failure_no_fallback (os : Os) (s : System) (hwnd : HWND)
    (targetAlpha' durMs : Z) :
  os_CreateTimerQueueTimer os = None ->
  0 < durMs -> lastApplied (anim s hwnd) <> targetAlpha' ->
  let s' := exec (StartFade os hwnd targetAlpha' durMs) s in
  w_alpha s' = w_alpha s /\
  (exists new, w_calls s' = new ++ w_calls s /\
               forallb (fun c => negb (is_alpha_call c)) new = true) /\
  layered s' hwnd = true /\
  active (anim s' hwnd) = true /\
  hTimer (anim s' hwnd) = NULL /\
  targetAlpha (anim s' hwnd) = targetAlpha' /\
  lastApplied (anim s' hwnd) = lastApplied (anim s hwnd) /\
  w_timers s' = del_timer (hTimer (anim s hwnd)) (w_timers s).
Proof.
  intros Hos Hd Hl s'. subst s'.
  assert (Hf : StartFade_fast targetAlpha' durMs (anim s hwnd) = false).
  { unfold StartFade_fast. apply orb_false_iff. split; apply Z.eqb_neq; lia. }
  rewrite StartFade_alpha, StartFade_timers, StartFade_layered, Hf, Hos. cbn.
  rewrite (anim_insert_eq _ _ _ _ (StartFade_anim os hwnd targetAlpha' durMs s)).
  unfold StartFade_rec. rewrite Hf, Hos. cbn.
  repeat split; try reflexivity.
  apply StartFade_calls_slow, Hf.
Qed.

Lemma C7_witness :
  os_CreateTimerQueueTimer (mkOs 1200 55 None) = None /\
  0 < 100 /\ lastApplied (anim sys_dim 7) <> 255 /\
  let s' := exec (StartFade (mkOs 1200 55 None) 7 255 100) sys_dim in
  w_alpha s' = w_alpha sys_dim /\
  (exists new, w_calls s' = new ++ w_calls sys_dim /\
               forallb (fun c => negb (is_alpha_call c)) new = true) /\
  layered s' 7 = true /\
  active (anim s' 7) = true /\
  hTimer (anim s' 7) = NULL /\
  targetAlpha (anim s' 7) = 255 /\
  lastApplied (anim s' 7) = lastApplied (anim sys_dim 7) /\
  w_timers s' = del_timer (hTimer (anim sys_dim 7)) (w_timers sys_dim).
Proof.
  assert (E : lastApplied (anim sys_dim 7) = 120) by (vm_compute; reflexivity).
  assert (H : lastApplied (anim sys_dim 7) <> 255) by (rewrite E; discriminate).
  split; [reflexivity|]. split; [lia|]. split; [exact H|].
  apply (C7_timer_failure_no_fallback (mkOs 1200 55 None) sys_dim 7 255 100);
    [reflexivity | lia | exact H].
Defined.

(** C5: a tick that passes the three guards applies a byte [a] to the window.
    The fields [startAlpha] and [targetAlpha] are [BYTE]s and [durationMs] is
    an [int] in the source.  When [durationMs > 0], [a] is a nearest integer
    of the exact linear interpolation [(1 - t) * startAlpha + t * targetAlpha]
    with [t = min(1, (now - startTick) / durationMs)] taken over the reals
    ([now - startTick] being the unsigned 64-bit difference), and it lies in
    [[0, 255]]: the six roundings of the binary64 computation never move
    [(int)(v + 0.5)] away from the two integers nearest to the exact value.
    When [durationMs <= 0], [t] is [1.0] and [a] is [targetAlpha]. *)
Theorem C5_tick_interpolation (now : Z) (hwnd : HWND) (s : System) (st : WinAnim) :
  hwnd ∈ w_windows s -> g_anim s !! hwnd = Some st -> active st = true ->
  0 <= startAlpha st < 256 -> 0 <= targetAlpha st < 256 -> durationMs st < 2 ^ 31 ->
  exists a,
    w_alpha (exec (FadeTickCb now hwnd) s) !! hwnd = Some a /\
    0 <= a <= 255 /\
    (0 < durationMs st ->
     let t := Rmin 1 (IZR (elapsed now (startTick st)) / IZR (durationMs st)) in
     (Rabs (IZR a - ((1 - t) * IZR (startAlpha st) + t * IZR (targetAlpha st)))
      <= 1 / 2)%R) /\
    (durationMs st <= 0 -> tick_t st now = Dbl.one /\ a = targetAlpha st).
Proof.
  intros Hw Hst Hact Hs Hg Hd.
  assert (Hrun : tick_runs s hwnd = true).
  { unfold tick_runs. rewrite bool_decide_eq_true_2 by exact Hw. rewrite Hst. exact Hact. }
  exists (tick_alpha st now).
  rewrite (FadeTickCb_alpha now hwnd s Hrun), lookup_insert_eq.
  unfold anim. rewrite Hst. cbn [default from_option].
  split; [reflexivity|].
  destruct (Z_lt_le_dec 0 (durationMs st)) as [Hpos | Hnon].
  - split; [exact (proj1 (tick_alpha_nearest st now Hs Hg (conj Hpos Hd)))|].
    split; [intros _; exact (tick_alpha_real st now Hs Hg (conj Hpos Hd))|lia].
  - pose proof (tick_done_nodur st now Hnon) as Hdone.
    rewrite (tick_alpha_done st now Hs Hg Hdone).
    split; [lia|]. split; [lia|].
    intros _. split; [exact (tick_done_one st now Hdone)|reflexivity].
Qed.

Lemma C5_witness :
  7 ∈ w_windows sys_fading /\
  g_anim sys_fading !! 7 = Some (mkWinAnim true 255 120 1000 100 255 9) /\
  exists a,
    w_alpha (exec (FadeTickCb 1050 7) sys_fading) !! 7 = Some a /\
    0 <= a <= 255 /\
    (0 < 100 ->
     let t := Rmin 1 (IZR (elapsed 1050 1000) / IZR 100) in
     (Rabs (IZR a - ((1 - t) * IZR 255 + t * IZR 120)) <= 1 / 2)%R) /\
    (100 <= 0 ->
     tick_t (mkWinAnim true 255 120 1000 100 255 9) 1050 = Dbl.one /\ a = 120).
Proof.
  assert (Hw : 7 ∈ w_windows sys_fading).
  { refine (bool_decide_unpack _ _). vm_compute. exact I. }
  assert (Hst : g_anim sys_fading !! 7 = Some (mkWinAnim true 255 120 1000 100 255 9)).
  { vm_compute. reflexivity. }
  split; [exact Hw|]. split; [exact Hst|].
  apply (C5_tick_interpolation 1050 7 sys_fading
           (mkWinAnim true 255 120 1000 100 255 9) Hw Hst);
    [reflexivity | cbn; lia | cbn; lia | reflexivity].
Defined.

(** * The settings and the life cycle *)

(** ** Trimming *)

Section Parsing.
Context `{WCType}.

Lemma trim_front_spec token i n :
  (i <= trim_front token i n <= i + n)%nat /\
  (trim_front token i n = (i + n)%nat \/
   iswspace (nth (trim_front token i n) token 0) = false).
Proof.
  revert i. induction n as [|n IH]; intros i; cbn.
  - split; [lia | left; lia].
  - destruct (iswspace (nth i token 0)) eqn:E.
    + destruct (IH (S i)) as [Hr [He|Hs]]; (split; [lia|]); [left; lia | right; exact Hs].
    + split; [lia | right; exact E].
Qed.

Lemma trim_back_spec token j n :
  (n <= j)%nat ->
  (j - n <= trim_back token j n <= j)%nat /\
  (trim_back token j n = (j - n)%nat \/
   iswspace (nth (trim_back token j n - 1) token 0) = false).
Proof.
  revert j. induction n as [|n IH]; intros j Hj; cbn.
  - split; [lia | left; lia].
  - destruct (iswspace (nth (j - 1) token 0)) eqn:E.
    + destruct (IH (j - 1)%nat ltac:(lia)) as [Hr [He|Hs]]; (split; [lia|]);
        [left; lia | right; exact Hs].
    + split; [lia | right; exact E].
Qed.

Lemma nth_sub (token : list Z) (i m k : nat) :
  (k < m)%nat -> nth k (take m (drop i token)) 0 = nth (i + k) token 0.
Proof.
  intros Hk. rewrite !nth_lookup, lookup_take_lt, lookup_drop by lia. reflexivity.
Qed.

(** What the trimming of a token leaves is a trimmed token. *)
Lemma add_token_cases token out :
  Forall (fun c => is_sep c = false) token ->
  add_token token out = out \/
  exists tok, trimmed_token tok /\ add_token token out = {[ ToLower tok ]} ∪ out.
Proof.
  intros Hns. unfold add_token.
  set (i := trim_front token 0 (length token)).
  set (j := trim_back token (length token) (length token - i)).
  destruct (Nat.ltb_spec i j) as [Hij|Hij]; [right|left; reflexivity].
  destruct (trim_front_spec token 0 (length token)) as [Hi Hi']. fold i in Hi, Hi'.
  destruct (trim_back_spec token (length token) (length token - i) ltac:(lia)) as [Hj Hj'].
  fold j in Hj, Hj'.
  exists (take (j - i) (drop i token)). split; [|reflexivity].
  assert (Hlen : length (take (j - i) (drop i token)) = (j - i)%nat).
  { rewrite length_take_le; [reflexivity|]. rewrite length_drop. lia. }
  unfold trimmed_token. rewrite Hlen. repeat split.
  - intros E. rewrite E in Hlen. cbn in Hlen. lia.
  - apply Forall_take, Forall_drop, Hns.
  - rewrite nth_sub by lia. rewrite Nat.add_0_r.
    destruct Hi' as [E|E]; [lia|exact E].
  - rewrite nth_sub by lia. replace (i + (j - i - 1))%nat with (j - 1)%nat by lia.
    destruct Hj' as [E|E]; [lia|exact E].
Qed.

(** A trimmed token is inserted as it is. *)
Lemma add_token_trimmed tok out :
  trimmed_token tok -> add_token tok out = {[ ToLower tok ]} ∪ out.
Proof.
  intros (Hne & _ & Hf & Hl). unfold add_token.
  destruct tok as [|c r]; [congruence|].
  assert (Hi : trim_front (c :: r) 0 (length (c :: r)) = 0%nat).
  { cbn [length trim_front]. rewrite Hf. reflexivity. }
  rewrite Hi. rewrite Nat.sub_0_r.
  assert (Hj : trim_back (c :: r) (length (c :: r)) (length (c :: r)) = length (c :: r)).
  { cbn [length trim_back]. cbn [length] in Hl. rewrite Hl. reflexivity. }
  rewrite Hj. cbn [length Nat.ltb Nat.leb]. rewrite Nat.sub_0_r.
  cbn [drop]. rewrite (take_ge (c :: r)) by (cbn; lia). reflexivity.
Qed.

Lemma add_token_union token out : add_token token out = add_token token ∅ ∪ out.
Proof.
  unfold add_token. destruct (_ <? _)%nat.
  - rewrite union_empty_r_L. reflexivity.
  - symmetry. apply union_empty_l_L.
Qed.

(** ** The loop *)

Lemma parse_loop_union p token out :
  parse_loop p token out = parse_loop p token ∅ ∪ out.
Proof.
  revert token out. induction p as [|c p IH]; intros token out; cbn.
  - apply add_token_union.
  - destruct (is_sep c).
    + destruct (c =? 0).
      * apply add_token_union.
      * rewrite (IH [] (add_token token out)), (IH [] (add_token token ∅)).
        rewrite (add_token_union token out). apply union_assoc_L.
    + apply IH.
Qed.

Lemma Parse_loop buf : ParseAppListToSet (Some buf) = parse_loop buf [] ∅.
Proof.
  destruct buf as [|c p]; [reflexivity|]. cbn.
  destruct (Z.eqb_spec c 0) as [->|Hc]; reflexivity.
Qed.

Lemma is_sep_0 c : is_sep c = false -> c <> 0.
Proof. intros Hs ->. discriminate Hs. Qed.

(** A separator that is not NUL ends the token and starts afresh. *)
Lemma parse_loop_app a c b token out :
  Forall (fun x => x <> 0) a -> is_sep c = true -> c <> 0 ->
  parse_loop (a ++ c :: b) token out = parse_loop b [] (parse_loop a token out).
Proof.
  intros Ha Hc Hc0. revert token out.
  induction Ha as [|x a Hx Ha IH]; intros token out; cbn.
  - rewrite Hc. destruct (Z.eqb_spec c 0); [contradiction|reflexivity].
  - destruct (is_sep x).
    + destruct (Z.eqb_spec x 0); [contradiction|]. apply IH.
    + apply IH.
Qed.

(** A run of units that are no separators is appended to the token. *)
Lemma parse_loop_token tok b token out :
  Forall (fun c => is_sep c = false) tok ->
  parse_loop (tok ++ b) token out = parse_loop b (token ++ tok) out.
Proof.
  intros Ht. revert token. induction Ht as [|x tok Hx Ht IH]; intros token; cbn.
  - rewrite app_nil_r. reflexivity.
  - rewrite Hx, IH, <- app_assoc. reflexivity.
Qed.

(** Every unit after a NUL is ignored. *)
Lemma parse_loop_wcs p token out :
  parse_loop (wcs p) token out = parse_loop p token out.
Proof.
  revert token out. induction p as [|c p IH]; intros token out; [reflexivity|].
  cbn. destruct (Z.eqb_spec c 0) as [->|Hc]; [reflexivity|].
  cbn. destruct (is_sep c).
  - destruct (Z.eqb_spec c 0); [contradiction|]. apply IH.
  - apply IH.
Qed.

Lemma parse_loop_entries p token out :
  Forall (fun c => is_sep c = false) token ->
  (forall x, x ∈ out -> exists tok, trimmed_token tok /\ x = ToLower tok) ->
  forall x, x ∈ parse_loop p token out -> exists tok, trimmed_token tok /\ x = ToLower tok.
Proof.
  revert token out. induction p as [|c p IH]; intros token out Ht Ho x; cbn.
  - destruct (add_token_cases token out Ht) as [->|(tok & Htok & ->)]; [apply Ho|].
    intros [Hx|Hx]%elem_of_union; [|apply Ho, Hx].
    apply elem_of_singleton in Hx. exists tok. split; assumption.
  - assert (Hadd : forall y, y ∈ add_token token out ->
                     exists tok, trimmed_token tok /\ y = ToLower tok).
    { intros y. destruct (add_token_cases token out Ht) as [->|(tok & Htok & ->)]; [apply Ho|].
      intros [Hy|Hy]%elem_of_union; [|apply Ho, Hy].
      apply elem_of_singleton in Hy. exists tok. split; assumption. }
    destruct (is_sep c) eqn:Hc.
    + destruct (c =? 0); [apply Hadd|].
      apply IH; [constructor|exact Hadd].
    + apply IH; [|exact Ho]. apply Forall_app. split; [exact Ht|].
      constructor; [exact Hc|constructor].
Qed.

Lemma parse_loop_seps p out :
  Forall (fun c => is_sep c = true) p -> parse_loop p [] out = out.
Proof.
  intros Hp. revert out. induction Hp as [|c p Hc Hp IH]; intros out; cbn; [reflexivity|].
  rewrite Hc. destruct (c =? 0); [reflexivity|]. apply IH.
Qed.

(** A trimmed token standing between separators, or at either end of the
    string, is in the result. *)
Lemma parse_loop_mono p token out x : x ∈ out -> x ∈ parse_loop p token out.
Proof. intros Hx. rewrite parse_loop_union. apply elem_of_union_r, Hx. Qed.

Lemma parse_token_in tok b out :
  trimmed_token tok ->
  b = [] \/ (exists c b', b = c :: b' /\ is_sep c = true) ->
  ToLower tok ∈ parse_loop (tok ++ b) [] out.
Proof.
  intros Htok Hb. pose proof Htok as (_ & Hns & _).
  rewrite (parse_loop_token tok b [] out Hns). cbn [app].
  destruct Hb as [->|(c & b' & -> & Hc)]; cbn.
  - rewrite (add_token_trimmed tok out Htok). apply elem_of_union_l, elem_of_singleton_2.
    reflexivity.
  - rewrite Hc. rewrite (add_token_trimmed tok out Htok).
    assert (Hin : ToLower tok ∈ ({[ ToLower tok ]} ∪ out : gset (list Z))).
    { apply elem_of_union_l, elem_of_singleton_2. reflexivity. }
    destruct (c =? 0); [exact Hin|]. apply parse_loop_mono, Hin.
Qed.

End Parsing.

(** * More of the engine *)

(** ** [ClampByte] *)

Lemma ClampByte_range v : 0 <= ClampByte v <= 255.
Proof. unfold ClampByte, to_BYTE. pose proof (Z.mod_pos_bound (Z.min 255 (Z.max 0 v)) 256). lia. Qed.

Lemma ClampByte_closed v :
  ClampByte v = if v <? 0 then 0 else if 255 <? v then 255 else v.
Proof.
  unfold ClampByte, to_BYTE.
  destruct (Z.ltb_spec v 0); [rewrite Z.max_l, Z.min_r by lia; reflexivity|].
  destruct (Z.ltb_spec 255 v); [rewrite Z.max_r, Z.min_l by lia; reflexivity|].
  rewrite Z.max_r, Z.min_r by lia. apply Z.mod_small. lia.
Qed.

(** ** [SetLayered] and [ApplyAlphaRemember] *)

Lemma exec_bind {A B} (m : M A) (k : A -> M B) s :
  exec (bind m k) s = exec (k (fst (m s))) (snd (m s)).
Proof. unfold exec, bind. destruct (m s). reflexivity. Qed.

Lemma exec_seq {A B} (m : M A) (k : M B) s :
  exec (m ;; k) s = exec k (exec m s).
Proof. unfold exec, bind. destruct (m s). reflexivity. Qed.

Lemma SetLayered_same hwnd on s :
  layered s hwnd = on -> SetLayered hwnd on s = (tt, s).
Proof.
  destruct s as [gTO gFM gEN gTQ gA wW wR wX wAl wT wC]. unfold layered. cbn.
  intros H. unfold SetLayered, GetWindowLongPtrW_EXSTYLE, bind, gets, ret. cbn.
  destruct on.
  - apply negb_true_iff in H. rewrite H. reflexivity.
  - apply negb_false_iff in H. rewrite H. reflexivity.
Qed.

Lemma testbit_layered n : n <> 19 -> Z.testbit WS_EX_LAYERED n = false.
Proof.
  intros Hn. change WS_EX_LAYERED with (2 ^ 19).
  destruct (Z.ltb_spec n 0); [apply Z.testbit_neg_r; assumption|].
  rewrite Z.pow2_bits_eqb by lia. apply Z.eqb_neq. lia.
Qed.

Lemma SetLayered_bits hwnd on s n :
  n <> 19 ->
  Z.testbit (default 0 (w_exstyle (exec (SetLayered hwnd on) s) !! hwnd)) n
  = Z.testbit (default 0 (w_exstyle s !! hwnd)) n.
Proof.
  intros Hn. destruct s as [gTO gFM gEN gTQ gA wW wR wX wAl wT wC]. unfold_ops. cbn.
  destruct on; cbn; destruct (Z.land _ _ =? 0); cbn; try reflexivity;
    rewrite lookup_insert_eq; cbn.
  - rewrite Z.lor_spec, (testbit_layered n Hn). apply orb_false_r.
  - destruct (Z.ltb_spec n 0); [rewrite !Z.testbit_neg_r by assumption; reflexivity|].
    rewrite Z.land_spec, Z.lnot_spec, (testbit_layered n Hn) by lia. apply andb_true_r.
Qed.

Lemma SetLayered_frame hwnd on s :
  let s' := exec (SetLayered hwnd on) s in
  (forall w, w <> hwnd -> w_exstyle s' !! w = w_exstyle s !! w) /\
  g_anim s' = g_anim s /\ w_alpha s' = w_alpha s /\ w_timers s' = w_timers s /\
  g_timerQueue s' = g_timerQueue s.
Proof.
  destruct s as [gTO gFM gEN gTQ gA wW wR wX wAl wT wC]. unfold_ops. cbn.
  destruct on; cbn; destruct (Z.land _ _ =? 0); cbn; repeat split; try reflexivity;
    intros w Hw; rewrite lookup_insert_ne by congruence; reflexivity.
Qed.

Lemma ApplyAlphaRemember_alpha hwnd a s :
  w_alpha (exec (ApplyAlphaRemember hwnd a) s) = <[hwnd := a]> (w_alpha s).
Proof.
  destruct s as [gTO gFM gEN gTQ gA wW wR wX wAl wT wC]. unfold_ops. cbn.
  destruct (gA !! hwnd) as [st0|] eqn:E; exec_cases. all: reflexivity.
Qed.

Lemma ApplyAlphaRemember_anim hwnd a s :
  g_anim (exec (ApplyAlphaRemember hwnd a) s)
  = <[hwnd := set_lastApplied a (anim s hwnd)]> (g_anim s).
Proof.
  destruct s as [gTO gFM gEN gTQ gA wW wR wX wAl wT wC]. unfold anim. unfold_ops. cbn.
  destruct (gA !! hwnd) as [st0|] eqn:E; exec_cases.
  all: map_ext hwnd; cbn; rewrite ?E; cbn; try reflexivity; rec_eq.
Qed.

Lemma ApplyAlphaRemember_layered hwnd a s :
  layered (exec (ApplyAlphaRemember hwnd a) s) hwnd = true.
Proof.
  destruct s as [gTO gFM gEN gTQ gA wW wR wX wAl wT wC]. unfold layered. unfold_ops. cbn.
  destruct (gA !! hwnd) as [st0|] eqn:E; sym_exec; bit_norm; hyps_norm;
    try (exfalso; lia); try congruence.
  all: cbn; bit_norm; try reflexivity; bool_finish.
Qed.

Lemma ApplyAlphaRemember_rest hwnd a s :
  w_timers (exec (ApplyAlphaRemember hwnd a) s) = w_timers s /\
  g_timerQueue (exec (ApplyAlphaRemember hwnd a) s) = g_timerQueue s.
Proof.
  destruct s as [gTO gFM gEN gTQ gA wW wR wX wAl wT wC]. unfold_ops. cbn.
  destruct (gA !! hwnd) as [st0|] eqn:E; exec_cases. all: split; reflexivity.
Qed.

(** ** [StopFade] *)

Lemma StopFade_missing hwnd force s :
  g_anim s !! hwnd = None -> StopFade hwnd force s = (tt, s).
Proof.
  intros H. unfold StopFade, anim_find, bind, gets, ret. cbn. rewrite H. reflexivity.
Qed.

Lemma StopFade_alpha hwnd force s :
  w_alpha (exec (StopFade hwnd force) s)
  = match g_anim s !! hwnd with
    | Some st0 => if force then <[hwnd := targetAlpha st0]> (w_alpha s) else w_alpha s
    | None => w_alpha s
    end.
Proof.
  destruct s as [gTO gFM gEN gTQ gA wW wR wX wAl wT wC]. unfold_ops. cbn.
  destruct (gA !! hwnd) as [st0|] eqn:E; exec_cases. all: reflexivity.
Qed.

Lemma StopFade_layered hwnd force s st0 :
  g_anim s !! hwnd = Some st0 ->
  layered (exec (StopFade hwnd force) s) hwnd
  = if targetAlpha st0 =? 255 then false else force || layered s hwnd.
Proof.
  destruct s as [gTO gFM gEN gTQ gA wW wR wX wAl wT wC]. unfold layered. unfold_ops. cbn.
  intros E. rewrite E. sym_exec; bit_norm; hyps_norm; try (exfalso; lia); try congruence.
  all: cbn; bit_norm; try reflexivity; bool_finish.
Qed.

(** ** [StartFade] and the timer queue *)

Lemma StartFade_queue os hwnd tgt dur s :
  g_timerQueue (exec (StartFade os hwnd tgt dur) s)
  = if StartFade_fast tgt dur (anim s hwnd) then g_timerQueue s
    else if g_timerQueue s =? NULL then os_CreateTimerQueue os else g_timerQueue s.
Proof.
  destruct s as [gTO gFM gEN gTQ gA wW wR wX wAl wT wC]. unfold anim, StartFade_fast. unfold_ops. cbn.
  destruct (gA !! hwnd) as [st0|] eqn:E; exec_cases.
  all: try reflexivity; bool_finish.
Qed.

Lemma StartFade_calls_queue os hwnd tgt dur s :
  exists new,
    w_calls (exec (StartFade os hwnd tgt dur) s) = new ++ w_calls s /\
    existsb is_queue_call new
    = negb (StartFade_fast tgt dur (anim s hwnd)) && (g_timerQueue s =? NULL).
Proof.
  destruct s as [gTO gFM gEN gTQ gA wW wR wX wAl wT wC]. unfold anim, StartFade_fast. unfold_ops. cbn.
  destruct (gA !! hwnd) as [st0|] eqn:E; cbn; exec_cases.
  all: match goal with
       | |- exists new, ?l = new ++ ?old /\ _ =>
           let rec go l acc :=
             lazymatch l with
             | old => exists (rev acc)
             | ?c :: ?l' => go l' (c :: acc)
             end in go l (@nil ApiCall)
       end; cbn; (split; [reflexivity|]); bool_finish.
Qed.

(** ** What is left alone *)

Lemma StartFade_settings os hwnd tgt dur s :
  settings_of (exec (StartFade os hwnd tgt dur) s) = settings_of s.
Proof.
  destruct s as [gTO gFM gEN gTQ gA wW wR wX wAl wT wC]. unfold settings_of. unfold_ops. cbn.
  destruct (gA !! hwnd) as [st0|] eqn:E; exec_cases. all: reflexivity.
Qed.

Lemma StartFade_exstyle_ne os hwnd tgt dur s w :
  w <> hwnd -> w_exstyle (exec (StartFade os hwnd tgt dur) s) !! w = w_exstyle s !! w.
Proof.
  intros Hw. destruct s as [gTO gFM gEN gTQ gA wW wR wX wAl wT wC]. unfold_ops. cbn.
  destruct (gA !! hwnd) as [st0|] eqn:E; exec_cases.
  all: rewrite ?lookup_insert_ne by congruence; reflexivity.
Qed.

Lemma FadeTickCb_settings now hwnd s :
  settings_of (exec (FadeTickCb now hwnd) s) = settings_of s /\
  g_timerQueue (exec (FadeTickCb now hwnd) s) = g_timerQueue s.
Proof.
  destruct s as [gTO gFM gEN gTQ gA wW wR wX wAl wT wC]. unfold settings_of. unfold_ops. cbn.
  destruct (bool_decide _); cbn; [|split; reflexivity].
  destruct (gA !! hwnd) as [st0|] eqn:E; [|split; reflexivity].
  cbn. destruct (active st0); cbn; [|split; reflexivity].
  exec_cases. all: split; reflexivity.
Qed.

Lemma FadeTickCb_exstyle_ne now hwnd s w :
  w <> hwnd -> w_exstyle (exec (FadeTickCb now hwnd) s) !! w = w_exstyle s !! w.
Proof.
  intros Hw. destruct s as [gTO gFM gEN gTQ gA wW wR wX wAl wT wC]. unfold_ops. cbn.
  destruct (bool_decide _); cbn; [|reflexivity].
  destruct (gA !! hwnd) as [st0|] eqn:E; [|reflexivity].
  cbn. destruct (active st0); cbn; [|reflexivity].
  exec_cases. all: rewrite ?lookup_insert_ne by congruence; reflexivity.
Qed.

Lemma on_destroy_settings root s :
  settings_of (exec (on_destroy root) s) = settings_of s /\
  g_timerQueue (exec (on_destroy root) s) = g_timerQueue s.
Proof.
  destruct s as [gTO gFM gEN gTQ gA wW wR wX wAl wT wC]. unfold settings_of. unfold_ops. cbn.
  destruct (gA !! root) as [st0|] eqn:E; exec_cases. all: split; reflexivity.
Qed.

Lemma on_destroy_exstyle_ne root s w :
  w <> root -> w_exstyle (exec (on_destroy root) s) !! w = w_exstyle s !! w.
Proof.
  intros Hw. destruct s as [gTO gFM gEN gTQ gA wW wR wX wAl wT wC]. unfold_ops. cbn.
  destruct (gA !! root) as [st0|] eqn:E; exec_cases.
  all: rewrite ?lookup_insert_ne by congruence; reflexivity.
Qed.

(** ** The cases of the hook *)

Lemma hook_other os hWnd Msg wParam s :
  Msg <> WM_ENTERSIZEMOVE -> Msg <> WM_EXITSIZEMOVE -> Msg <> WM_CAPTURECHANGED ->
  Msg <> WM_CANCELMODE -> Msg <> WM_DESTROY -> Msg <> WM_NCDESTROY ->
  Msg <> WM_NCLBUTTONUP \/ wParam <> HTCAPTION ->
  DefWindowProcW_Hook os hWnd Msg wParam s = (tt, s).
Proof.
  intros H1 H2 H3 H4 H5 H6 H7.
  unfold DefWindowProcW_Hook, bind, gets, GetAncestor_ROOT, ret. cbn.
  destruct (g_enabled s); cbn; [|reflexivity].
  apply Z.eqb_neq in H1, H2, H3, H4, H5, H6. rewrite H1, H2, H3, H4, H5, H6. cbn.
  destruct (Z.eqb_spec Msg WM_NCLBUTTONUP) as [E|E]; [|reflexivity].
  destruct H7 as [H7|H7]; [contradiction|]. apply Z.eqb_neq in H7. rewrite H7. reflexivity.
Qed.

Lemma to_BYTE_range v : 0 <= to_BYTE v <= 255.
Proof. unfold to_BYTE. pose proof (Z.mod_pos_bound v 256). lia. Qed.

(** The hook does nothing, or starts a fade of the root to a byte over
    [g_fadeMs], or runs the destroy sequence. *)
Lemma hook_steps os hWnd Msg wParam s :
  exec (DefWindowProcW_Hook os hWnd Msg wParam) s = s \/
  (exists tgt, 0 <= tgt <= 255 /\
     exec (DefWindowProcW_Hook os hWnd Msg wParam) s
     = exec (StartFade os (root_of s hWnd) tgt (g_fadeMs s)) s) \/
  exec (DefWindowProcW_Hook os hWnd Msg wParam) s = exec (on_destroy (root_of s hWnd)) s.
Proof.
  unfold exec at 1 2 4, DefWindowProcW_Hook, root_of, bind, gets, GetAncestor_ROOT, ret.
  cbn. destruct (g_enabled s); cbn; [|left; reflexivity].
  set (root := if default NULL (w_root s !! hWnd) =? NULL then hWnd else default NULL (w_root s !! hWnd)).
  destruct (Msg =? WM_ENTERSIZEMOVE).
  { right; left. exists (to_BYTE (g_targetOpacity s)). split; [apply to_BYTE_range|reflexivity]. }
  destruct ((Msg =? WM_EXITSIZEMOVE) || (Msg =? WM_CAPTURECHANGED) || (Msg =? WM_CANCELMODE)).
  { right; left. exists 255. split; [lia|reflexivity]. }
  destruct (Msg =? WM_NCLBUTTONUP).
  { destruct (wParam =? HTCAPTION); [|left; reflexivity].
    right; left. exists 255. split; [lia|reflexivity]. }
  destruct ((Msg =? WM_DESTROY) || (Msg =? WM_NCDESTROY)); [right; right; reflexivity | left; reflexivity].
Qed.

(** ** When a tick ends the fade *)

Lemma leb_one_zero : Dbl.leb Dbl.one (S754_zero false) = false.
Proof. vm_compute. reflexivity. Qed.

Lemma tick_done_early st now :
  0 < durationMs st < 2 ^ 31 ->
  elapsed now (startTick st) < durationMs st ->
  tick_done st now = false.
Proof.
  intros Hd He. unfold tick_done, tick_t.
  replace (0 <? durationMs st) with true by (symmetry; apply Z.ltb_lt; lia).
  pose proof (elapsed_range now (startTick st)) as Hr.
  destruct (quot_early _ _ Hd (conj (proj1 Hr) He)) as ([Ht|(m & e & Ht & _)] & _ & Ht1).
  - rewrite Ht. exact leb_one_zero.
  - apply SFltb_not_leb. apply (SFltb_pos_normal _ _ _ _ _ _ Ht one_normal).
    rewrite SF2R_one. exact Ht1.
Qed.

Lemma tick_done_iff st now :
  durationMs st < 2 ^ 31 ->
  tick_done st now = (durationMs st <=? elapsed now (startTick st)).
Proof.
  intros Hd. pose proof (elapsed_range now (startTick st)) as Hr.
  destruct (Z.leb_spec (durationMs st) (elapsed now (startTick st))) as [Hle|Hlt].
  - destruct (Z_lt_le_dec 0 (durationMs st)).
    + apply tick_done_late; [lia|exact Hle].
    + apply tick_done_nodur. assumption.
  - apply tick_done_early; lia.
Qed.

(** ** No overshoot *)

Lemma tick_alpha_between st now :
  0 <= startAlpha st < 256 -> 0 <= targetAlpha st < 256 -> durationMs st < 2 ^ 31 ->
  Z.min (startAlpha st) (targetAlpha st) <= tick_alpha st now
  <= Z.max (startAlpha st) (targetAlpha st).
Proof.
  intros Hs Hg Hd. destruct (Z_lt_le_dec 0 (durationMs st)) as [Hpos|Hnon].
  - destruct (tick_alpha_nearest st now Hs Hg (conj Hpos Hd)) as [_ Hn]. cbv zeta in Hn.
    pose proof (elapsed_range now (startTick st)) as Hr.
    set (d := durationMs st) in *. set (e := Z.min (elapsed now (startTick st)) d) in *.
    assert (He : 0 <= e <= d) by (unfold e; lia).
    set (a := tick_alpha st now) in *. clearbody a e.
    set (s := startAlpha st) in *. set (g := targetAlpha st) in *. clearbody s g d.
    apply Z.abs_le in Hn.
    assert (Hlo : d * Z.min s g <= (d - e) * s + e * g) by nia.
    assert (Hhi : (d - e) * s + e * g <= d * Z.max s g) by nia.
    split; nia.
  - rewrite (tick_alpha_done st now Hs Hg (tick_done_nodur st now Hnon)). lia.
Qed.

(** ** Invariants of a run *)

Lemma settings_fade s s' : settings_of s' = settings_of s -> g_fadeMs s' = g_fadeMs s.
Proof. unfold settings_of. intros H. congruence. Qed.

Lemma record_ok_default fade : record_ok fade WinAnim_default.
Proof. unfold record_ok. cbn. lia. Qed.

Lemma record_ok_anim s hwnd : records_ok s -> record_ok (g_fadeMs s) (anim s hwnd).
Proof.
  intros H. unfold anim. destruct (g_anim s !! hwnd) as [st|] eqn:E; cbn.
  - exact (H _ _ E).
  - apply record_ok_default.
Qed.

Lemma records_ok_insert s s0 hwnd st :
  g_anim s = <[hwnd := st]> (g_anim s0) -> g_fadeMs s = g_fadeMs s0 ->
  record_ok (g_fadeMs s0) st -> records_ok s0 -> records_ok s.
Proof.
  intros Ha Hf Hst H0 w st' Hw. rewrite Ha in Hw. rewrite Hf.
  destruct (decide (w = hwnd)) as [->|Hne].
  - rewrite lookup_insert_eq in Hw. congruence.
  - rewrite lookup_insert_ne in Hw by congruence. exact (H0 _ _ Hw).
Qed.

Lemma StartFade_records_ok os hwnd tgt s :
  0 <= tgt <= 255 -> records_ok s ->
  records_ok (exec (StartFade os hwnd tgt (g_fadeMs s)) s).
Proof.
  intros Ht H. apply (records_ok_insert _ s hwnd _ (StartFade_anim os hwnd tgt _ s)).
  - apply settings_fade, StartFade_settings.
  - destruct (record_ok_anim s hwnd H) as (_ & _ & Hl & _).
    unfold StartFade_rec, record_ok. destruct (StartFade_fast _ _ _); cbn; lia.
  - exact H.
Qed.

Lemma FadeTickCb_records_ok now hwnd s :
  records_ok s -> records_ok (exec (FadeTickCb now hwnd) s).
Proof.
  intros H. destruct (tick_runs s hwnd) eqn:Hr.
  - apply (records_ok_insert _ s hwnd _ (FadeTickCb_anim now hwnd s Hr)).
    + apply settings_fade, FadeTickCb_settings.
    + destruct (record_ok_anim s hwnd H) as (Hs & Hg & Hl & Hd).
      pose proof (ClampByte_range
        (Dbl.to_int (Dbl.add (tick_v (anim s hwnd) (tick_t (anim s hwnd) now)) Dbl.half))) as Hc.
      fold (tick_alpha (anim s hwnd) now) in Hc.
      unfold tick_rec, record_ok.
      destruct (tick_done _ _); cbn; [destruct (_ =? 255)|]; lia.
    + exact H.
  - unfold exec. rewrite (FadeTickCb_skip now hwnd s Hr). exact H.
Qed.

Lemma on_destroy_records_ok root s :
  records_ok s -> records_ok (exec (on_destroy root) s).
Proof.
  intros H w st Hw. rewrite on_destroy_anim in Hw.
  apply lookup_delete_Some in Hw as [_ Hw].
  rewrite (settings_fade _ _ (proj1 (on_destroy_settings root s))). exact (H _ _ Hw).
Qed.

Lemma hook_records_ok os hWnd Msg wParam s :
  records_ok s -> records_ok (exec (DefWindowProcW_Hook os hWnd Msg wParam) s).
Proof.
  intros H. destruct (hook_steps os hWnd Msg wParam s) as [->|[(tgt & Ht & ->)| ->]].
  - exact H.
  - apply StartFade_records_ok; assumption.
  - apply on_destroy_records_ok, H.
Qed.

Lemma StartFade_remembered os hwnd tgt dur s :
  alpha_remembered s -> alpha_remembered (exec (StartFade os hwnd tgt dur) s).
Proof.
  intros H w. pose proof (StartFade_anim os hwnd tgt dur s) as Ha.
  rewrite StartFade_alpha. destruct (decide (w = hwnd)) as [->|Hne].
  - rewrite (anim_insert_eq _ _ _ _ Ha). unfold StartFade_rec.
    destruct (StartFade_fast _ _ _); cbn.
    + rewrite lookup_insert_eq. reflexivity.
    + apply H.
  - rewrite (anim_insert_ne _ _ _ _ _ Ha Hne).
    destruct (StartFade_fast _ _ _); [rewrite lookup_insert_ne by congruence|]; apply H.
Qed.

Lemma FadeTickCb_remembered now hwnd s :
  records_ok s -> alpha_remembered s -> alpha_remembered (exec (FadeTickCb now hwnd) s).
Proof.
  intros Hok H. destruct (tick_runs s hwnd) eqn:Hr.
  - intros w. pose proof (FadeTickCb_anim now hwnd s Hr) as Ha.
    rewrite (FadeTickCb_alpha now hwnd s Hr). destruct (decide (w = hwnd)) as [->|Hne].
    + rewrite (anim_insert_eq _ _ _ _ Ha), lookup_insert_eq. cbn.
      destruct (record_ok_anim s hwnd Hok) as (Hs & Hg & _).
      unfold tick_rec. destruct (tick_done _ _) eqn:Hd; cbn; [|reflexivity].
      destruct (Z.eqb_spec (targetAlpha (anim s hwnd)) 255) as [E|E]; [|reflexivity].
      rewrite (tick_alpha_done (anim s hwnd) now ltac:(lia) ltac:(lia) Hd). symmetry. exact E.
    + rewrite (anim_insert_ne _ _ _ _ _ Ha Hne), lookup_insert_ne by congruence. apply H.
  - unfold exec. rewrite (FadeTickCb_skip now hwnd s Hr). exact H.
Qed.

Lemma on_destroy_remembered root s :
  alpha_remembered s -> alpha_remembered (exec (on_destroy root) s).
Proof.
  intros H w. unfold anim. rewrite on_destroy_anim, on_destroy_alpha.
  destruct (decide (w = root)) as [->|Hne].
  - rewrite lookup_delete_eq, lookup_insert_eq. reflexivity.
  - rewrite lookup_delete_ne, lookup_insert_ne by congruence. apply H.
Qed.

Lemma hook_remembered os hWnd Msg wParam s :
  alpha_remembered s -> alpha_remembered (exec (DefWindowProcW_Hook os hWnd Msg wParam) s).
Proof.
  intros H. destruct (hook_steps os hWnd Msg wParam s) as [->|[(tgt & Ht & ->)| ->]].
  - exact H.
  - apply StartFade_remembered, H.
  - apply on_destroy_remembered, H.
Qed.

Lemma hook_settings os hWnd Msg wParam s :
  settings_of (exec (DefWindowProcW_Hook os hWnd Msg wParam) s) = settings_of s.
Proof.
  destruct (hook_steps os hWnd Msg wParam s) as [->|[(tgt & Ht & ->)| ->]].
  - reflexivity.
  - apply StartFade_settings.
  - apply on_destroy_settings.
Qed.

Lemma hook_queue os hWnd Msg wParam s :
  g_timerQueue s <> NULL ->
  g_timerQueue (exec (DefWindowProcW_Hook os hWnd Msg wParam) s) = g_timerQueue s.
Proof.
  intros Hq. destruct (hook_steps os hWnd Msg wParam s) as [->|[(tgt & Ht & ->)| ->]].
  - reflexivity.
  - rewrite StartFade_queue. destruct (StartFade_fast _ _ _); [reflexivity|].
    destruct (Z.eqb_spec (g_timerQueue s) NULL); [contradiction|reflexivity].
  - apply on_destroy_settings.
Qed.

Lemma hook_tracked os hWnd Msg wParam s :
  timer_nonnull os -> timers_tracked s ->
  timers_tracked (exec (DefWindowProcW_Hook os hWnd Msg wParam) s).
Proof.
  intros Hos H. destruct (hook_cases os hWnd Msg wParam s) as [->|[(tgt & ms & ->)| ->]].
  - exact H.
  - apply StartFade_tracked; assumption.
  - apply on_destroy_tracked, H.
Qed.

Lemma run_settings P s s' : run P s s' -> settings_of s' = settings_of s.
Proof.
  induction 1 as [|s' os hWnd Msg wParam _ IH _|s' now hwnd _ IH]; [reflexivity| |].
  - rewrite hook_settings. exact IH.
  - rewrite (proj1 (FadeTickCb_settings now hwnd s')). exact IH.
Qed.

Lemma run_records_ok P s s' : run P s s' -> records_ok s -> records_ok s'.
Proof.
  induction 1 as [|s' os hWnd Msg wParam _ IH _|s' now hwnd _ IH]; intros H0; [exact H0| |].
  - apply hook_records_ok, IH, H0.
  - apply FadeTickCb_records_ok, IH, H0.
Qed.

Lemma run_remembered P s s' :
  run P s s' -> records_ok s -> alpha_remembered s -> alpha_remembered s'.
Proof.
  intros Hrun Hok. induction Hrun as [|s' os hWnd Msg wParam Hr IH _|s' now hwnd Hr IH];
    intros H0; [exact H0| |].
  - apply hook_remembered, IH, H0.
  - apply FadeTickCb_remembered; [exact (run_records_ok _ _ _ Hr Hok)|apply IH, H0].
Qed.

Lemma run_queue P s s' :
  run P s s' -> g_timerQueue s <> NULL -> g_timerQueue s' = g_timerQueue s.
Proof.
  induction 1 as [|s' os hWnd Msg wParam _ IH _|s' now hwnd _ IH]; intros Hq; [reflexivity| |].
  - rewrite hook_queue; [exact (IH Hq)|rewrite (IH Hq); exact Hq].
  - rewrite (proj2 (FadeTickCb_settings now hwnd s')). exact (IH Hq).
Qed.

Lemma run_tracked s s' :
  run timer_nonnull s s' -> timers_tracked s -> timers_tracked s'.
Proof.
  induction 1 as [|s' os hWnd Msg wParam _ IH Hos|s' now hwnd _ IH]; intros H0; [exact H0| |].
  - apply hook_tracked; [exact Hos|exact (IH H0)].
  - apply FadeTickCb_tracked, IH, H0.
Qed.

Lemma tracked_empty s : w_timers s = ∅ -> timers_tracked s.
Proof. intros H h hwnd Hl. rewrite H, lookup_empty in Hl. discriminate. Qed.

(** ** The executable's name *)

Lemma wcs_id l : Forall (fun x => x <> 0) l -> wcs l = l.
Proof.
  induction 1 as [|x l Hx _ IH]; [reflexivity|]. cbn.
  destruct (Z.eqb_spec x 0); [contradiction|]. rewrite IH. reflexivity.
Qed.

Lemma wcsrchr_none s c : Forall (fun x => x <> c) s -> wcsrchr s c = None.
Proof.
  induction 1 as [|x s Hx _ IH]; [reflexivity|]. cbn. rewrite IH.
  destruct (Z.eqb_spec x c); [contradiction|reflexivity].
Qed.

Lemma wcsrchr_last dir name c :
  Forall (fun x => x <> c) name -> wcsrchr (dir ++ c :: name) c = Some (c :: name).
Proof.
  intros Hn. induction dir as [|x dir IH]; cbn.
  - rewrite (wcsrchr_none name c Hn), Z.eqb_refl. reflexivity.
  - rewrite IH. reflexivity.
Qed.

(** ** [Wh_ModUninit] *)

Lemma cancel_fields h s :
  let s' := exec (when (negb (h =? NULL)) then DeleteTimerQueueTimer h) s in
  w_timers s' = del_timer h (w_timers s) /\ g_anim s' = g_anim s /\
  w_alpha s' = w_alpha s /\ w_exstyle s' = w_exstyle s /\
  g_timerQueue s' = g_timerQueue s /\ settings_of s' = settings_of s.
Proof.
  unfold del_timer. destruct (h =? NULL); cbn; repeat split; reflexivity.
Qed.

Lemma uninit_loop_fields kvs s :
  let s' := exec (uninit_loop kvs) s in
  w_timers s' = foldl (fun m kv => del_timer (hTimer (snd kv)) m) (w_timers s) kvs /\
  g_anim s' = g_anim s /\ w_alpha s' = w_alpha s /\ w_exstyle s' = w_exstyle s /\
  g_timerQueue s' = g_timerQueue s /\ settings_of s' = settings_of s.
Proof.
  revert s. induction kvs as [|kv kvs IH]; intros s; [cbn; repeat split; reflexivity|].
  cbn [uninit_loop foldl]. rewrite exec_seq.
  destruct (cancel_fields (hTimer (snd kv)) s) as (Ht & Ha & Hal & Hx & Hq & Hs).
  destruct (IH (exec (when (negb (hTimer (snd kv) =? NULL))
                      then DeleteTimerQueueTimer (hTimer (snd kv))) s))
    as (Ht' & Ha' & Hal' & Hx' & Hq' & Hs').
  cbv zeta. rewrite Ht', Ha', Hal', Hx', Hq', Hs', Ht, Ha, Hal, Hx, Hq, Hs.
  repeat split; reflexivity.
Qed.

Lemma foldl_del_lookup (kvs : list (Z * WinAnim)) m h w :
  foldl (fun m kv => del_timer (hTimer (snd kv)) m) m kvs !! h = Some w ->
  m !! h = Some w /\
  Forall (fun kv => hTimer (snd kv) = NULL \/ h <> hTimer (snd kv)) kvs.
Proof.
  revert m. induction kvs as [|kv kvs IH]; intros m; cbn.
  - intros Hm. split; [exact Hm|constructor].
  - intros Hm. destruct (IH _ Hm) as [Hd Hf].
    apply del_timer_lookup in Hd as [Hd Hk]. split; [exact Hd|].
    constructor; [exact Hk|exact Hf].
Qed.

Lemma uninit_loop_cancels s :
  timers_tracked s ->
  w_timers (exec (uninit_loop (map_to_list (g_anim s))) s) = ∅.
Proof.
  intros HT. rewrite (proj1 (uninit_loop_fields _ s)).
  apply map_empty. intros h.
  destruct (foldl _ _ _ !! h) as [w|] eqn:E; [exfalso|reflexivity].
  apply foldl_del_lookup in E as [Hw Hf].
  destruct (HT _ _ Hw) as [Hn Hh].
  unfold anim in Hh. destruct (g_anim s !! w) as [st|] eqn:Ea; cbn in Hh; [|congruence].
  rewrite Forall_forall in Hf.
  destruct (Hf (w, st)) as [Hz|Hz].
  - apply elem_of_map_to_list. exact Ea.
  - cbn in Hz. congruence.
  - cbn in Hz. congruence.
Qed.

Lemma Wh_ModUninit_fields md :
  let s := m_sys md in
  let s' := m_sys (Wh_ModUninit md) in
  g_anim s' = ∅ /\ g_timerQueue s' = NULL /\
  w_timers s' = w_timers (exec (uninit_loop (map_to_list (g_anim s))) s) /\
  w_alpha s' = w_alpha s /\ w_exstyle s' = w_exstyle s /\
  settings_of s' = settings_of s /\
  w_queues_deleted (Wh_ModUninit md)
  = (if g_timerQueue s =? NULL then [] else [g_timerQueue s]) ++ w_queues_deleted md /\
  g_scope (Wh_ModUninit md) = g_scope md.
Proof.
  cbv zeta. unfold Wh_ModUninit. rewrite exec_seq.
  destruct (uninit_loop_fields (map_to_list (g_anim (m_sys md))) (m_sys md))
    as (Ht & Ha & Hal & Hx & Hq & Hs).
  set (s1 := exec (uninit_loop (map_to_list (g_anim (m_sys md)))) (m_sys md)) in *.
  change (g_timerQueue (exec (modify (with_anim ∅)) s1)) with (g_timerQueue s1).
  rewrite Hq. destruct (Z.eqb_spec (g_timerQueue (m_sys md)) NULL) as [E|E]; cbn.
  - repeat split; try assumption. congruence.
  - repeat split; assumption.
Qed.

Lemma Wh_ModUninit_fixed md :
  g_anim (m_sys md) = ∅ -> g_timerQueue (m_sys md) = NULL -> Wh_ModUninit md = md.
Proof.
  destruct md as [s sc dq]. destruct s as [gTO gFM gEN gTQ gA wW wR wX wAl wT wC].
  cbn. intros -> ->. unfold Wh_ModUninit. cbn [m_sys g_anim].
  rewrite map_to_list_empty. reflexivity.
Qed.

(** ** The messages that start a fade *)

Lemma hook_enter os hWnd wParam s :
  g_enabled s = true ->
  exec (DefWindowProcW_Hook os hWnd WM_ENTERSIZEMOVE wParam) s
  = exec (StartFade os (root_of s hWnd) (to_BYTE (g_targetOpacity s)) (g_fadeMs s)) s.
Proof.
  intros He. unfold exec at 1, DefWindowProcW_Hook, root_of, bind, gets, GetAncestor_ROOT, ret.
  cbn. rewrite He. reflexivity.
Qed.

Lemma hook_home os hWnd Msg wParam s :
  g_enabled s = true ->
  Msg = WM_EXITSIZEMOVE \/ Msg = WM_CAPTURECHANGED \/ Msg = WM_CANCELMODE \/
  (Msg = WM_NCLBUTTONUP /\ wParam = HTCAPTION) ->
  exec (DefWindowProcW_Hook os hWnd Msg wParam) s
  = exec (StartFade os (root_of s hWnd) 255 (g_fadeMs s)) s.
Proof.
  intros He HM. unfold exec at 1, DefWindowProcW_Hook, root_of, bind, gets, GetAncestor_ROOT, ret.
  cbn. rewrite He. cbn.
  destruct HM as [->|[->|[->|[-> ->]]]]; reflexivity.
Qed.

Lemma settings_root s s' hWnd : settings_of s' = settings_of s -> root_of s' hWnd = root_of s hWnd.
Proof. unfold settings_of, root_of. intros H. replace (w_root s') with (w_root s) by congruence. reflexivity. Qed.

Lemma settings_enabled s s' : settings_of s' = settings_of s -> g_enabled s' = g_enabled s.
Proof. unfold settings_of. intros H. congruence. Qed.

Lemma settings_windows s s' : settings_of s' = settings_of s -> w_windows s' = w_windows s.
Proof. unfold settings_of. intros H. congruence. Qed.

Lemma StartFade_fast_nodur tgt dur st0 : dur <= 0 -> StartFade_fast tgt dur st0 = true.
Proof.
  intros H. unfold StartFade_fast. rewrite Z.max_l by lia. reflexivity.
Qed.

Lemma tracked_none s hwnd :
  timers_tracked s -> hTimer (anim s hwnd) = NULL -> forall k, w_timers s !! k <> Some hwnd.
Proof. intros HT Hn k Hk. destruct (HT _ _ Hk) as [Hk0 Hh]. congruence. Qed.

(** ** [LoadSettings] *)

Lemma LoadSettings_listed `{WCType} (h : Host) :
  ParseAppListToSet (Some (match wh_appList h with Some p => wcs p | None => [] end))
  = parse_loop (default [] (wh_appList h)) [] ∅.
Proof.
  rewrite Parse_loop. destruct (wh_appList h) as [p|]; [apply parse_loop_wcs|reflexivity].
Qed.

Lemma LoadSettings_enabled `{WCType} (h : Host) (md : Mod) :
  g_enabled (m_sys (LoadSettings h md))
  = let listed := bool_decide (CurrentExeNameLower h
                                 ∈ parse_loop (default [] (wh_appList h)) [] ∅) in
    if wh_scope h =? 0 then negb listed else listed.
Proof.
  unfold LoadSettings. cbn [m_sys g_enabled with_settings]. rewrite LoadSettings_listed.
  reflexivity.
Qed.

Lemma exe_name_basename `{WCType} (h : Host) (dir name : list Z) :
  os_ModulePath h = dir ++ 92 :: name ->
  Forall (fun c => c <> 0) (dir ++ 92 :: name) ->
  (length (dir ++ 92%Z :: name) < MAX_PATH)%nat ->
  Forall (fun c => c <> 92) name ->
  CurrentExeNameLower h = ToLower name.
Proof.
  intros Hp H0 Hlen Hn. unfold CurrentExeNameLower, GetModuleFileNameW.
  rewrite Hp, (wcs_id _ H0), take_ge by (unfold MAX_PATH in *; lia).
  rewrite (wcsrchr_last dir name 92 Hn). reflexivity.
Qed.

(** A trimmed token that stands between separators, or at an end of the
    list, is an entry. *)
Lemma token_listed `{WCType} (a tok b : list Z) :
  Forall (fun c => c <> 0) a ->
  a = [] \/ (exists a' c, a = a' ++ [c] /\ is_sep c = true) ->
  b = [] \/ (exists c b', b = c :: b' /\ is_sep c = true) ->
  trimmed_token tok ->
  ToLower tok ∈ parse_loop (a ++ tok ++ b) [] ∅.
Proof.
  intros Ha0 Ha Hb Htok. destruct Ha as [->|(a' & c & -> & Hc)].
  - change ([] ++ tok ++ b) with (tok ++ b). apply parse_token_in; assumption.
  - apply Forall_app in Ha0 as [Ha' Hc0]. inversion Hc0 as [|? ? Hc0' _]; subst.
    rewrite <- app_assoc. cbn [app].
    rewrite (parse_loop_app a' c (tok ++ b) [] ∅ Ha' Hc Hc0').
    apply parse_token_in; assumption.
Qed.

(** ** [Wh_ModInit] *)

Lemma Wh_ModInit_fields `{WCType} (h : Host) (os : Os) (md : Mod) :
  let md1 := LoadSettings h md in
  let md2 := snd (Wh_ModInit h os md) in
  fst (Wh_ModInit h os md) = wh_SetFunctionHook h /\
  g_timerQueue (m_sys md2) = os_CreateTimerQueue os /\
  settings_of (m_sys md2) = settings_of (m_sys md1) /\
  g_anim (m_sys md2) = g_anim (m_sys md) /\
  w_timers (m_sys md2) = w_timers (m_sys md) /\
  w_calls (m_sys md2) = Call_CreateTimerQueue :: w_calls (m_sys md) /\
  g_scope md2 = wh_scope h /\
  w_queues_deleted md2 = w_queues_deleted md.
Proof.
  cbv zeta. unfold Wh_ModInit. destruct (wh_SetFunctionHook h); cbn; repeat split.
Qed.

Lemma LoadSettings_values `{WCType} (h : Host) (md : Mod) :
  g_targetOpacity (m_sys (LoadSettings h md)) = Z.min 255 (Z.max 0 (wh_opacity h)) /\
  g_fadeMs (m_sys (LoadSettings h md)) = Z.max 0 (wh_fadeMs h).
Proof.
  unfold LoadSettings. cbn [m_sys with_settings g_targetOpacity g_fadeMs]. split.
  - unfold clamp. destruct (Z.ltb_spec (wh_opacity h) 0); [lia|].
    destruct (Z.ltb_spec 255 (wh_opacity h)); lia.
  - destruct (Z.ltb_spec (wh_fadeMs h) 0); lia.
Qed.

(** ** A whole fade *)

Lemma fade_completes (os : Os) (hwnd : HWND) (targetAlpha' durMs now : Z)
    (s : System) :
  hwnd ∈ w_windows s -> timers_tracked s -> timer_nonnull os ->
  0 <= lastApplied (anim s hwnd) <= 255 -> 0 <= targetAlpha' <= 255 ->
  durMs < 2 ^ 31 ->
  Z.max 0 durMs <= elapsed now (os_GetTickCount64 os) ->
  let s1 := exec (StartFade os hwnd targetAlpha' durMs) s in
  let s2 := exec (FadeTickCb now hwnd) s1 in
  w_alpha s2 !! hwnd = Some targetAlpha' /\
  lastApplied (anim s2 hwnd) = targetAlpha' /\
  active (anim s2 hwnd) = false /\
  hTimer (anim s2 hwnd) = NULL /\
  (forall k, w_timers s2 !! k <> Some hwnd) /\
  layered s2 hwnd = negb (targetAlpha' =? 255).
Proof.
  intros Hw HT Hos Hl Hg Hd He. cbv zeta.
  pose proof (StartFade_anim os hwnd targetAlpha' durMs s) as Ha.
  pose proof (anim_insert_eq _ _ _ _ Ha) as Hr.
  pose proof (StartFade_tracked os hwnd targetAlpha' durMs s Hos HT) as HT1.
  set (s1 := exec (StartFade os hwnd targetAlpha' durMs) s) in *.
  destruct (StartFade_fast targetAlpha' durMs (anim s hwnd)) eqn:Hf.
  - assert (Hrec : anim s1 hwnd
                   = mkWinAnim false (lastApplied (anim s hwnd)) targetAlpha'
                       (os_GetTickCount64 os) (Z.max 0 durMs) targetAlpha' NULL).
    { rewrite Hr. unfold StartFade_rec. rewrite Hf. reflexivity. }
    assert (Hskip : tick_runs s1 hwnd = false).
    { unfold tick_runs. rewrite Ha, lookup_insert_eq. unfold StartFade_rec. rewrite Hf.
      apply andb_false_r. }
    unfold exec at 1 2 3 4 5 6. rewrite (FadeTickCb_skip now hwnd s1 Hskip).
    cbn [snd]. rewrite Hrec. cbn [lastApplied active hTimer].
    unfold s1 at 1. rewrite StartFade_alpha, Hf, lookup_insert_eq.
    unfold s1 at 2. rewrite StartFade_layered, Hf.
    repeat split. apply (tracked_none s1 hwnd HT1). rewrite Hrec. reflexivity.
  - assert (Hrec : anim s1 hwnd
                   = mkWinAnim true (lastApplied (anim s hwnd)) targetAlpha'
                       (os_GetTickCount64 os) (Z.max 0 durMs) (lastApplied (anim s hwnd))
                       (default NULL (os_CreateTimerQueueTimer os))).
    { rewrite Hr. unfold StartFade_rec. rewrite Hf. reflexivity. }
    assert (Hrun : tick_runs s1 hwnd = true).
    { unfold tick_runs. rewrite Ha, lookup_insert_eq. unfold StartFade_rec. rewrite Hf.
      unfold s1. rewrite (settings_windows _ _ (StartFade_settings os hwnd targetAlpha' durMs s)).
      rewrite bool_decide_eq_true_2 by exact Hw. reflexivity. }
    assert (Hdur : 0 < Z.max 0 durMs).
    { unfold StartFade_fast in Hf. apply orb_false_iff in Hf as [Hf _].
      apply Z.eqb_neq in Hf. lia. }
    assert (Hdone : tick_done (anim s1 hwnd) now = true).
    { apply tick_done_late; rewrite Hrec; cbn [durationMs startTick]; [lia|exact He]. }
    assert (Hal : tick_alpha (anim s1 hwnd) now = targetAlpha').
    { rewrite (tick_alpha_done (anim s1 hwnd) now); [rewrite Hrec; reflexivity| | |exact Hdone];
        rewrite Hrec; cbn [startAlpha targetAlpha]; lia. }
    pose proof (FadeTickCb_anim now hwnd s1 Hrun) as Ha2.
    pose proof (FadeTickCb_tracked now hwnd s1 HT1) as HT2.
    rewrite (FadeTickCb_alpha now hwnd s1 Hrun), (FadeTickCb_layered now hwnd s1 Hrun).
    rewrite (anim_insert_eq _ _ _ _ Ha2) in *.
    rewrite lookup_insert_eq, Hal, Hdone. unfold tick_rec. rewrite Hdone, Hal.
    replace (targetAlpha (anim s1 hwnd)) with targetAlpha' by (rewrite Hrec; reflexivity).
    cbn [lastApplied active hTimer andb].
    repeat split.
    + destruct (Z.eqb_spec targetAlpha' 255); congruence.
    + apply (tracked_none _ hwnd HT2). rewrite (anim_insert_eq _ _ _ _ Ha2).
      unfold tick_rec. rewrite Hdone. reflexivity.
Qed.


(** ** Monotony of a fade *)

Lemma tick_alpha_elapsed st now1 now2 :
  elapsed now1 (startTick st) = elapsed now2 (startTick st) ->
  tick_alpha st now1 = tick_alpha st now2.
Proof. intros H. unfold tick_alpha, tick_t. rewrite H. reflexivity. Qed.

Lemma tick_alpha_lastApplied a st now :
  tick_alpha (set_lastApplied a st) now = tick_alpha st now.
Proof. reflexivity. Qed.

(** Nearest integers of two values in order are in order. *)
Lemma nearest_mono (d a1 a2 N1 N2 : Z) :
  0 < d -> N1 < N2 ->
  Z.abs (2 * d * a1 - 2 * N1) <= d -> Z.abs (2 * d * a2 - 2 * N2) <= d -> a1 <= a2.
Proof. intros Hd HN H1 H2. apply Z.abs_le in H1, H2. nia. Qed.

Lemma nearest_exact (d a s : Z) :
  0 < d -> Z.abs (2 * d * a - 2 * (d * s)) <= d -> a = s.
Proof. intros Hd H. apply Z.abs_le in H. nia. Qed.

(** A later tick is at least as close to the target. *)
Lemma tick_alpha_mono st now1 now2 :
  0 <= startAlpha st < 256 -> 0 <= targetAlpha st < 256 -> durationMs st < 2 ^ 31 ->
  elapsed now1 (startTick st) <= elapsed now2 (startTick st) ->
  Z.abs (targetAlpha st - tick_alpha st now2) <= Z.abs (targetAlpha st - tick_alpha st now1).
Proof.
  intros Hs Hg Hd He.
  destruct (Z_lt_le_dec 0 (durationMs st)) as [Hpos|Hnon].
  2:{ rewrite !(tick_alpha_done st _ Hs Hg (tick_done_nodur st _ Hnon)). lia. }
  destruct (Z_lt_le_dec (elapsed now2 (startTick st)) (durationMs st)) as [H2|H2].
  2:{ rewrite (tick_alpha_done st now2 Hs Hg (tick_done_late st now2 (conj Hpos Hd) H2)).
      rewrite Z.sub_diag. apply Z.abs_nonneg. }
  destruct (Z.eq_dec (elapsed now1 (startTick st)) (elapsed now2 (startTick st))) as [E|E].
  { rewrite (tick_alpha_elapsed st now1 now2 E). lia. }
  pose proof (elapsed_range now1 (startTick st)) as Hr1.
  destruct (tick_alpha_nearest st now1 Hs Hg (conj Hpos Hd)) as [_ Hn1].
  destruct (tick_alpha_nearest st now2 Hs Hg (conj Hpos Hd)) as [_ Hn2].
  cbv zeta in Hn1, Hn2.
  rewrite Z.min_l in Hn1 by lia. rewrite Z.min_l in Hn2 by lia.
  pose proof (tick_alpha_between st now1 Hs Hg Hd) as Hb1.
  pose proof (tick_alpha_between st now2 Hs Hg Hd) as Hb2.
  set (a1 := tick_alpha st now1) in *. set (a2 := tick_alpha st now2) in *.
  set (e1 := elapsed now1 (startTick st)) in *. set (e2 := elapsed now2 (startTick st)) in *.
  set (d := durationMs st) in *. set (s := startAlpha st) in *. set (g := targetAlpha st) in *.
  clearbody a1 a2 e1 e2 d s g.
  destruct (Z.lt_trichotomy s g) as [Hsg|[Hsg|Hsg]].
  - assert (a1 <= a2).
    { apply (nearest_mono d a1 a2 ((d - e1) * s + e1 * g) ((d - e2) * s + e2 * g));
        [lia|nia|exact Hn1|exact Hn2]. }
    lia.
  - subst g.
    assert (a1 = s) by (apply (nearest_exact d a1 s); [lia|];
                        replace (d * s) with ((d - e1) * s + e1 * s) by ring; exact Hn1).
    assert (a2 = s) by (apply (nearest_exact d a2 s); [lia|];
                        replace (d * s) with ((d - e2) * s + e2 * s) by ring; exact Hn2).
    lia.
  - assert (- a1 <= - a2).
    { apply (nearest_mono d (- a1) (- a2) (- ((d - e1) * s + e1 * g)) (- ((d - e2) * s + e2 * g)));
        [lia|nia| |].
      - replace (2 * d * - a1 - 2 * - ((d - e1) * s + e1 * g))
          with (- (2 * d * a1 - 2 * ((d - e1) * s + e1 * g))) by ring.
        rewrite Z.abs_opp. exact Hn1.
      - replace (2 * d * - a2 - 2 * - ((d - e2) * s + e2 * g))
          with (- (2 * d * a2 - 2 * ((d - e2) * s + e2 * g))) by ring.
        rewrite Z.abs_opp. exact Hn2. }
    lia.
Qed.

(** * Further properties of the code *)

(** X1: [SetLayered] brings [WS_EX_LAYERED] (bit 19) of the window's
    extended style to the requested value and changes nothing else: every
    other bit of that style, the styles of the other windows, the records,
    the alpha values and the timers stay as they were.  When the bit already
    has the requested value the state is returned as it was given: no
    [SetWindowLongPtrW] call is made. *)
Theorem X1_SetLayered_only_layered_bit (hwnd : HWND) (on : bool) (s : System) :
  let s' := exec (SetLayered hwnd on) s in
  layered s' hwnd = on /\
  (forall n, n <> 19 ->
     Z.testbit (default 0 (w_exstyle s' !! hwnd)) n
     = Z.testbit (default 0 (w_exstyle s !! hwnd)) n) /\
  (forall w, w <> hwnd -> w_exstyle s' !! w = w_exstyle s !! w) /\
  g_anim s' = g_anim s /\ w_alpha s' = w_alpha s /\ w_timers s' = w_timers s /\
  (layered s hwnd = on -> SetLayered hwnd on s = (tt, s)).
Proof.
  cbv zeta. destruct (SetLayered_frame hwnd on s) as (Hx & Ha & Hal & Ht & _).
  split; [apply SetLayered_layered|]. split; [intros n Hn; apply SetLayered_bits, Hn|].
  split; [exact Hx|]. split; [exact Ha|]. split; [exact Hal|]. split; [exact Ht|].
  apply SetLayered_same.
Qed.

Lemma X1_witness :
  let s' := exec (SetLayered 7 false) sys_fading in
  layered s' 7 = false /\
  (forall n, n <> 19 ->
     Z.testbit (default 0 (w_exstyle s' !! 7)) n
     = Z.testbit (default 0 (w_exstyle sys_fading !! 7)) n) /\
  (forall w, w <> 7 -> w_exstyle s' !! w = w_exstyle sys_fading !! w) /\
  g_anim s' = g_anim sys_fading /\ w_alpha s' = w_alpha sys_fading /\
  w_timers s' = w_timers sys_fading /\
  (layered sys_fading 7 = false -> SetLayered 7 false sys_fading = (tt, sys_fading)).
Proof. exact (X1_SetLayered_only_layered_bit 7 false sys_fading). Defined.

(** X2: [ApplyAlphaRemember] sets the translucency bit, gives the window the
    alpha [a] and stores [a] as [lastApplied] in the window's record, the
    other fields of the record being kept; a window that had no record gets
    one with the default member values.  No timer is touched. *)
Theorem X2_ApplyAlphaRemember_effect (hwnd : HWND) (a : Z) (s : System) :
  let s' := exec (ApplyAlphaRemember hwnd a) s in
  w_alpha s' = <[hwnd := a]> (w_alpha s) /\
  layered s' hwnd = true /\
  g_anim s' = <[hwnd := set_lastApplied a (default WinAnim_default (g_anim s !! hwnd))]>
                (g_anim s) /\
  w_timers s' = w_timers s.
Proof.
  cbv zeta. split; [apply ApplyAlphaRemember_alpha|].
  split; [apply ApplyAlphaRemember_layered|].
  split; [apply ApplyAlphaRemember_anim|apply ApplyAlphaRemember_rest].
Qed.

(** X3: [StopFade] on a window that has no record returns the state it was
    given; unlike [StartFade] and [ApplyAlphaRemember] it creates no record. *)
Theorem X3_StopFade_no_record (hwnd : HWND) (forceToTarget : bool) (s : System) :
  g_anim s !! hwnd = None -> StopFade hwnd forceToTarget s = (tt, s).
Proof. apply StopFade_missing. Qed.

Lemma X3_witness :
  g_anim sys0 !! 7 = None /\ StopFade 7 true sys0 = (tt, sys0).
Proof.
  assert (H : g_anim sys0 !! 7 = None) by reflexivity.
  split; [exact H | exact (X3_StopFade_no_record 7 true sys0 H)].
Defined.

(** X4: [StopFade] on a window with a record leaves the record inactive with
    a null tick handle and the recorded timer cancelled.  With
    [forceToTarget] it gives the window the record's target alpha, without
    it no alpha is written; for a target of 255 the translucency bit ends
    cleared. *)
Theorem X4_StopFade_cancels (hwnd : HWND) (forceToTarget : bool) (s : System)
    (st0 : WinAnim) :
  g_anim s !! hwnd = Some st0 ->
  let s' := exec (StopFade hwnd forceToTarget) s in
  active (anim s' hwnd) = false /\
  hTimer (anim s' hwnd) = NULL /\
  (hTimer st0 <> NULL -> w_timers s' !! hTimer st0 = None) /\
  w_alpha s' = (if forceToTarget then <[hwnd := targetAlpha st0]> (w_alpha s)
                else w_alpha s) /\
  layered s' hwnd
  = (if targetAlpha st0 =? 255 then false else forceToTarget || layered s hwnd).
Proof.
  intros H. cbv zeta.
  pose proof (StopFade_anim hwnd forceToTarget s) as Ha. rewrite H in Ha.
  rewrite (anim_insert_eq _ _ _ _ Ha), StopFade_timers, StopFade_alpha, H.
  rewrite (StopFade_layered hwnd forceToTarget s st0 H).
  unfold anim. rewrite H. change (default WinAnim_default (Some st0)) with st0.
  repeat split.
  intros Hn. unfold del_timer. destruct (Z.eqb_spec (hTimer st0) NULL); [contradiction|].
  apply lookup_delete_eq.
Qed.

Lemma X4_witness :
  g_anim sys_fading !! 7 = Some (mkWinAnim true 255 120 1000 100 255 9) /\
  let s' := exec (StopFade 7 true) sys_fading in
  active (anim s' 7) = false /\
  hTimer (anim s' 7) = NULL /\
  (9 <> NULL -> w_timers s' !! 9 = None) /\
  w_alpha s' = <[7 := 120]> (w_alpha sys_fading) /\
  layered s' 7 = (if 120 =? 255 then false else true || layered sys_fading 7).
Proof.
  assert (H : g_anim sys_fading !! 7 = Some (mkWinAnim true 255 120 1000 100 255 9))
    by (vm_compute; reflexivity).
  split; [exact H|].
  exact (X4_StopFade_cancels 7 true sys_fading _ H).
Defined.

(** X5: [StartFade] creates the timer queue lazily: [CreateTimerQueue] is
    called exactly when the request is animated (the fast path is not taken)
    and [g_timerQueue] is null, [g_timerQueue] then becoming what the system
    answers; otherwise the queue handle is left as it is. *)
Theorem X5_StartFade_lazy_queue (os : Os) (hwnd : HWND) (targetAlpha' durMs : Z)
    (s : System) :
  let s' := exec (StartFade os hwnd targetAlpha' durMs) s in
  let lazy := negb (StartFade_fast targetAlpha' durMs (anim s hwnd))
              && (g_timerQueue s =? NULL) in
  g_timerQueue s' = (if lazy then os_CreateTimerQueue os else g_timerQueue s) /\
  exists new, w_calls s' = new ++ w_calls s /\ existsb is_queue_call new = lazy.
Proof.
  cbv zeta. split; [|apply StartFade_calls_queue].
  rewrite StartFade_queue. destruct (StartFade_fast _ _ _); reflexivity.
Qed.

(** X6: a fade request followed by a tick that comes once the duration has
    passed ends at the target: the window has the target alpha, which is also
    the record's [lastApplied]; the record is inactive with a null handle, no
    timer is left for the window, and the translucency bit is set unless the
    target is 255. *)
Theorem X6_fade_completes (os : Os) (hwnd : HWND) (targetAlpha' durMs now : Z)
    (s : System) :
  hwnd ∈ w_windows s -> timers_tracked s -> timer_nonnull os ->
  0 <= lastApplied (anim s hwnd) <= 255 -> 0 <= targetAlpha' <= 255 ->
  durMs < 2 ^ 31 ->
  Z.max 0 durMs <= elapsed now (os_GetTickCount64 os) ->
  let s1 := exec (StartFade os hwnd targetAlpha' durMs) s in
  let s2 := exec (FadeTickCb now hwnd) s1 in
  w_alpha s2 !! hwnd = Some targetAlpha' /\
  lastApplied (anim s2 hwnd) = targetAlpha' /\
  active (anim s2 hwnd) = false /\
  hTimer (anim s2 hwnd) = NULL /\
  (forall k, w_timers s2 !! k <> Some hwnd) /\
  layered s2 hwnd = negb (targetAlpha' =? 255).
Proof. apply fade_completes. Qed.

Lemma X6_witness :
  7 ∈ w_windows sys0 /\ timers_tracked sys0 /\ timer_nonnull (mkOs 1000 55 (Some 9)) /\
  let s1 := exec (StartFade (mkOs 1000 55 (Some 9)) 7 120 100) sys0 in
  let s2 := exec (FadeTickCb 1100 7) s1 in
  w_alpha s2 !! 7 = Some 120 /\
  lastApplied (anim s2 7) = 120 /\
  active (anim s2 7) = false /\
  hTimer (anim s2 7) = NULL /\
  (forall k, w_timers s2 !! k <> Some 7) /\
  layered s2 7 = negb (120 =? 255).
Proof.
  assert (Hw : 7 ∈ w_windows sys0).
  { refine (bool_decide_unpack _ _). vm_compute. exact I. }
  assert (HT : timers_tracked sys0) by (apply tracked_empty; reflexivity).
  assert (Hos : timer_nonnull (mkOs 1000 55 (Some 9))) by discriminate.
  split; [exact Hw|]. split; [exact HT|]. split; [exact Hos|].
  apply (X6_fade_completes (mkOs 1000 55 (Some 9)) 7 120 100 1100 sys0 Hw HT Hos);
    [vm_compute; split; discriminate | lia | reflexivity | vm_compute; discriminate].
Defined.

(** X7: the alpha a tick applies never overshoots: it lies between the
    record's start alpha and its target alpha, whatever the times are. *)
Theorem X7_tick_no_overshoot (now : Z) (hwnd : HWND) (s : System) (st : WinAnim) :
  hwnd ∈ w_windows s -> g_anim s !! hwnd = Some st -> active st = true ->
  0 <= startAlpha st <= 255 -> 0 <= targetAlpha st <= 255 -> durationMs st < 2 ^ 31 ->
  exists a,
    w_alpha (exec (FadeTickCb now hwnd) s) !! hwnd = Some a /\
    Z.min (startAlpha st) (targetAlpha st) <= a <= Z.max (startAlpha st) (targetAlpha st).
Proof.
  intros Hw Hst Hact Hs Hg Hd.
  assert (Hrun : tick_runs s hwnd = true).
  { unfold tick_runs. rewrite bool_decide_eq_true_2 by exact Hw. rewrite Hst. exact Hact. }
  exists (tick_alpha st now).
  rewrite (FadeTickCb_alpha now hwnd s Hrun), lookup_insert_eq.
  unfold anim. rewrite Hst. change (default WinAnim_default (Some st)) with st.
  split; [reflexivity|]. apply tick_alpha_between; lia.
Qed.

Lemma X7_witness :
  7 ∈ w_windows sys_fading /\
  g_anim sys_fading !! 7 = Some (mkWinAnim true 255 120 1000 100 255 9) /\
  exists a,
    w_alpha (exec (FadeTickCb 1030 7) sys_fading) !! 7 = Some a /\
    Z.min 255 120 <= a <= Z.max 255 120.
Proof.
  assert (Hw : 7 ∈ w_windows sys_fading).
  { refine (bool_decide_unpack _ _). vm_compute. exact I. }
  assert (Hst : g_anim sys_fading !! 7 = Some (mkWinAnim true 255 120 1000 100 255 9)).
  { vm_compute. reflexivity. }
  split; [exact Hw|]. split; [exact Hst|].
  apply (X7_tick_no_overshoot 1030 7 sys_fading
           (mkWinAnim true 255 120 1000 100 255 9) Hw Hst);
    [reflexivity | cbn; lia | cbn; lia | reflexivity].
Defined.

(** X8: a tick ends the fade exactly when the elapsed time has reached the
    duration: then the record becomes inactive, its handle null and its timer
    is cancelled; before that the record stays active and the handle and the
    timers are left as they are. *)
Theorem X8_tick_ends_fade_iff_elapsed (now : Z) (hwnd : HWND) (s : System)
    (st : WinAnim) :
  hwnd ∈ w_windows s -> g_anim s !! hwnd = Some st -> active st = true ->
  durationMs st < 2 ^ 31 ->
  let s' := exec (FadeTickCb now hwnd) s in
  let done := durationMs st <=? elapsed now (startTick st) in
  active (anim s' hwnd) = negb done /\
  hTimer (anim s' hwnd) = (if done then NULL else hTimer st) /\
  w_timers s' = (if done then del_timer (hTimer st) (w_timers s) else w_timers s).
Proof.
  intros Hw Hst Hact Hd. cbv zeta.
  assert (Hrun : tick_runs s hwnd = true).
  { unfold tick_runs. rewrite bool_decide_eq_true_2 by exact Hw. rewrite Hst. exact Hact. }
  rewrite (anim_insert_eq _ _ _ _ (FadeTickCb_anim now hwnd s Hrun)).
  rewrite (FadeTickCb_timers now hwnd s Hrun).
  unfold anim. rewrite Hst. change (default WinAnim_default (Some st)) with st.
  unfold tick_rec. rewrite (tick_done_iff st now Hd).
  destruct (durationMs st <=? elapsed now (startTick st)); cbn; repeat split; assumption.
Qed.

Lemma X8_witness :
  7 ∈ w_windows sys_fading /\
  g_anim sys_fading !! 7 = Some (mkWinAnim true 255 120 1000 100 255 9) /\
  let s' := exec (FadeTickCb 1099 7) sys_fading in
  let done := 100 <=? elapsed 1099 1000 in
  active (anim s' 7) = negb done /\
  hTimer (anim s' 7) = (if done then NULL else 9) /\
  w_timers s' = (if done then del_timer 9 (w_timers sys_fading) else w_timers sys_fading).
Proof.
  assert (Hw : 7 ∈ w_windows sys_fading).
  { refine (bool_decide_unpack _ _). vm_compute. exact I. }
  assert (Hst : g_anim sys_fading !! 7 = Some (mkWinAnim true 255 120 1000 100 255 9)).
  { vm_compute. reflexivity. }
  split; [exact Hw|]. split; [exact Hst|].
  apply (X8_tick_ends_fade_iff_elapsed 1099 7 sys_fading
           (mkWinAnim true 255 120 1000 100 255 9) Hw Hst); reflexivity.
Defined.

(** X9: the hook acts on seven messages only.  For any other message, and
    for [WM_NCLBUTTONUP] anywhere but on the caption, it returns the state it
    was given. *)
Theorem X9_hook_ignores_other_messages (os : Os) (hWnd : HWND) (Msg wParam : Z)
    (s : System) :
  Msg <> WM_ENTERSIZEMOVE -> Msg <> WM_EXITSIZEMOVE -> Msg <> WM_CAPTURECHANGED ->
  Msg <> WM_CANCELMODE -> Msg <> WM_DESTROY -> Msg <> WM_NCDESTROY ->
  Msg <> WM_NCLBUTTONUP \/ wParam <> HTCAPTION ->
  DefWindowProcW_Hook os hWnd Msg wParam s = (tt, s).
Proof. apply hook_other. Qed.

Lemma X9_witness :
  DefWindowProcW_Hook (mkOs 1060 55 (Some 11)) 7 WM_NCLBUTTONUP 1 sys_mid = (tt, sys_mid).
Proof.
  apply (X9_hook_ignores_other_messages (mkOs 1060 55 (Some 11)) 7 WM_NCLBUTTONUP 1 sys_mid);
    try discriminate.
  right. discriminate.
Defined.

(** X10: whatever the message, the hook changes the record, the alpha and
    the extended style of no window other than the root ancestor of the
    window that received it (the window itself if it has none). *)
Theorem X10_hook_touches_only_root (os : Os) (hWnd : HWND) (Msg wParam : Z)
    (s : System) (w : HWND) :
  w <> root_of s hWnd ->
  let s' := exec (DefWindowProcW_Hook os hWnd Msg wParam) s in
  g_anim s' !! w = g_anim s !! w /\
  w_alpha s' !! w = w_alpha s !! w /\
  w_exstyle s' !! w = w_exstyle s !! w.
Proof.
  intros Hw. cbv zeta.
  destruct (hook_cases os hWnd Msg wParam s) as [->|[(tgt & ms & ->)| ->]].
  - repeat split.
  - rewrite StartFade_anim, StartFade_alpha, (StartFade_exstyle_ne _ _ _ _ _ _ Hw).
    rewrite lookup_insert_ne by congruence.
    destruct (StartFade_fast _ _ _); [rewrite lookup_insert_ne by congruence|]; repeat split.
  - rewrite on_destroy_anim, on_destroy_alpha, (on_destroy_exstyle_ne _ _ _ Hw).
    rewrite lookup_delete_ne, lookup_insert_ne by congruence. repeat split.
Qed.

Lemma X10_witness :
  8 <> root_of sys_child 8 /\
  let s' := exec (DefWindowProcW_Hook (mkOs 1000 55 (Some 9)) 8 WM_ENTERSIZEMOVE 0) sys_child in
  g_anim s' !! 8 = g_anim sys_child !! 8 /\
  w_alpha s' !! 8 = w_alpha sys_child !! 8 /\
  w_exstyle s' !! 8 = w_exstyle sys_child !! 8.
Proof.
  assert (H : 8 <> root_of sys_child 8) by (vm_compute; discriminate).
  split; [exact H|].
  exact (X10_hook_touches_only_root (mkOs 1000 55 (Some 9)) 8 WM_ENTERSIZEMOVE 0 sys_child 8 H).
Defined.

(** X11: with a fade duration of 0 (or less) a drag is handled without any
    timer: [WM_ENTERSIZEMOVE] gives the root window the configured opacity at
    once, and the message that ends the drag gives it 255 at once, clears the
    translucency bit and leaves the record inactive; neither call creates a
    timer. *)
Theorem X11_instant_drag_round_trip (os1 os2 : Os) (hWnd : HWND) (w1 Msg wParam : Z)
    (s : System) :
  g_enabled s = true -> g_fadeMs s <= 0 ->
  Msg = WM_EXITSIZEMOVE \/ Msg = WM_CAPTURECHANGED \/ Msg = WM_CANCELMODE \/
  (Msg = WM_NCLBUTTONUP /\ wParam = HTCAPTION) ->
  let root := root_of s hWnd in
  let s1 := exec (DefWindowProcW_Hook os1 hWnd WM_ENTERSIZEMOVE w1) s in
  let s2 := exec (DefWindowProcW_Hook os2 hWnd Msg wParam) s1 in
  w_alpha s1 !! root = Some (to_BYTE (g_targetOpacity s)) /\
  w_alpha s2 !! root = Some 255 /\
  layered s2 root = false /\
  active (anim s2 root) = false /\
  hTimer (anim s2 root) = NULL /\
  w_timers s2 = del_timer (hTimer (anim s root)) (w_timers s).
Proof.
  intros He Hf HM. cbv zeta.
  rewrite (hook_enter os1 hWnd w1 s He).
  set (root := root_of s hWnd).
  set (tgt := to_BYTE (g_targetOpacity s)).
  pose proof (StartFade_settings os1 root tgt (g_fadeMs s) s) as Hs1.
  pose proof (StartFade_anim os1 root tgt (g_fadeMs s) s) as Ha1.
  pose proof (StartFade_timers os1 root tgt (g_fadeMs s) s) as Ht1.
  pose proof (StartFade_alpha os1 root tgt (g_fadeMs s) s) as Hal1.
  rewrite (StartFade_fast_nodur tgt _ (anim s root) Hf) in Ht1, Hal1.
  set (s1 := exec (StartFade os1 root tgt (g_fadeMs s)) s) in *.
  assert (He1 : g_enabled s1 = true) by (rewrite (settings_enabled _ _ Hs1); exact He).
  rewrite (hook_home os2 hWnd Msg wParam s1 He1 HM).
  rewrite (settings_root _ _ hWnd Hs1), (settings_fade _ _ Hs1). fold root.
  pose proof (StartFade_anim os2 root 255 (g_fadeMs s) s1) as Ha2.
  rewrite (anim_insert_eq _ _ _ _ Ha2).
  rewrite StartFade_alpha, StartFade_layered, StartFade_timers.
  rewrite (StartFade_fast_nodur 255 _ (anim s1 root) Hf).
  unfold StartFade_rec. rewrite (StartFade_fast_nodur 255 _ (anim s1 root) Hf).
  rewrite Hal1, Ht1, !lookup_insert_eq. cbv zeta.
  rewrite (anim_insert_eq _ _ _ _ Ha1). unfold StartFade_rec.
  rewrite (StartFade_fast_nodur tgt _ (anim s root) Hf).
  cbn [hTimer active]. rewrite del_timer_NULL. repeat split.
Qed.

Lemma X11_witness :
  g_enabled sys_child = true /\ g_fadeMs sys_child <= 0 /\
  let root := root_of sys_child 8 in
  let s1 := exec (DefWindowProcW_Hook (mkOs 1000 55 (Some 9)) 8 WM_ENTERSIZEMOVE 0) sys_child in
  let s2 := exec (DefWindowProcW_Hook (mkOs 2000 55 (Some 9)) 8 WM_EXITSIZEMOVE 0) s1 in
  w_alpha s1 !! root = Some (to_BYTE (g_targetOpacity sys_child)) /\
  w_alpha s2 !! root = Some 255 /\
  layered s2 root = false /\
  active (anim s2 root) = false /\
  hTimer (anim s2 root) = NULL /\
  w_timers s2 = del_timer (hTimer (anim sys_child root)) (w_timers sys_child).
Proof.
  split; [reflexivity|]. split; [vm_compute; discriminate|].
  apply (X11_instant_drag_round_trip (mkOs 1000 55 (Some 9)) (mkOs 2000 55 (Some 9))
           8 0 WM_EXITSIZEMOVE 0 sys_child);
    [reflexivity | vm_compute; discriminate | left; reflexivity].
Defined.

(** X12: the fields of the records keep within the range of their C++ types
    along every run of the process: from a state in which every record holds
    three bytes and a duration between 0 and the configured one, messages to
    the hook and timer callbacks only lead to such states. *)
Theorem X12_records_stay_in_range (P : Os -> Prop) (s s' : System) :
  run P s s' -> records_ok s -> records_ok s'.
Proof. apply run_records_ok. Qed.

Lemma X12_witness :
  run any_os sys0 sys_back /\ records_ok sys0 /\ records_ok sys_back.
Proof.
  assert (Hrun : run any_os sys0 sys_back).
  { unfold sys_back, sys_drag_mid, sys_drag.
    apply run_Message; [|exact I]. apply run_Tick.
    apply run_Message; [apply run_refl|exact I]. }
  assert (H0 : records_ok sys0).
  { intros hwnd st H. vm_compute in H. discriminate H. }
  split; [exact Hrun|]. split; [exact H0|].
  exact (X12_records_stay_in_range any_os sys0 sys_back Hrun H0).
Defined.

(** X13: [lastApplied] is the truth about the window: along every run of the
    process that starts with well-formed records, the [lastApplied] of every
    record is the alpha the window was last given (255 for a window that was
    never given one), so that a new fade starts from the opacity the window
    has. *)
Theorem X13_lastApplied_is_window_alpha (P : Os -> Prop) (s s' : System) :
  run P s s' -> records_ok s -> alpha_remembered s ->
  forall hwnd st, g_anim s' !! hwnd = Some st ->
    lastApplied st = default 255 (w_alpha s' !! hwnd).
Proof.
  intros Hrun Hok Hrem hwnd st Hst.
  pose proof (run_remembered P s s' Hrun Hok Hrem hwnd) as H.
  unfold anim in H. rewrite Hst in H. exact H.
Qed.

Lemma X13_witness :
  run any_os sys0 sys_back /\ records_ok sys0 /\ alpha_remembered sys0 /\
  g_anim sys_back !! 7 = Some (mkWinAnim true 218 255 1070 120 218 11) /\
  lastApplied (mkWinAnim true 218 255 1070 120 218 11)
  = default 255 (w_alpha sys_back !! 7).
Proof.
  assert (Hrun : run any_os sys0 sys_back).
  { unfold sys_back, sys_drag_mid, sys_drag.
    apply run_Message; [|exact I]. apply run_Tick.
    apply run_Message; [apply run_refl|exact I]. }
  assert (H0 : records_ok sys0).
  { intros hwnd st H. vm_compute in H. discriminate H. }
  assert (H1 : alpha_remembered sys0).
  { intros hwnd. reflexivity. }
  assert (Hst : g_anim sys_back !! 7 = Some (mkWinAnim true 218 255 1070 120 218 11)).
  { vm_compute. reflexivity. }
  split; [exact Hrun|]. split; [exact H0|]. split; [exact H1|]. split; [exact Hst|].
  exact (X13_lastApplied_is_window_alpha any_os sys0 sys_back Hrun H0 H1 7 _ Hst).
Defined.

(** X14: no timer is orphaned: in every reachable state each live timer has
    a non-null handle, its context window has a record, that record's tick
    handle is this timer, and no other live timer has the same context. *)
Theorem X14_no_orphan_timer (s : System) (h : HANDLE) (hwnd : HWND) :
  reachable timer_nonnull s -> w_timers s !! h = Some hwnd ->
  h <> NULL /\
  (exists st, g_anim s !! hwnd = Some st /\ hTimer st = h) /\
  (forall h', w_timers s !! h' = Some hwnd -> h' = h).
Proof.
  intros Hr Hh. pose proof (reachable_tracked s Hr) as HT.
  destruct (HT _ _ Hh) as [Hn He]. split; [exact Hn|]. split.
  - unfold anim in He. destruct (g_anim s !! hwnd) as [st|]; cbn in He.
    + exists st. split; [reflexivity|exact He].
    + congruence.
  - intros h' Hh'. exact (tracked_one_tick s hwnd HT _ _ Hh' Hh).
Qed.

Lemma X14_witness :
  reachable timer_nonnull sys_fading /\ w_timers sys_fading !! 9 = Some 7 /\
  9 <> NULL /\
  (exists st, g_anim sys_fading !! 7 = Some st /\ hTimer st = 9) /\
  (forall h', w_timers sys_fading !! h' = Some 7 -> h' = 9).
Proof.
  assert (Hr : reachable timer_nonnull sys_fading).
  { unfold sys_fading. apply reach_StartFade; [apply reach_init; reflexivity | discriminate]. }
  assert (Hh : w_timers sys_fading !! 9 = Some 7) by (vm_compute; reflexivity).
  split; [exact Hr|]. split; [exact Hh|].
  exact (X14_no_orphan_timer sys_fading 9 7 Hr Hh).
Defined.

(** X15: once the hook has handled [WM_DESTROY] or [WM_NCDESTROY] in a
    reachable state, no live timer has the destroyed root window as its
    context: no tick is left to fire for it. *)
Theorem X15_destroy_cancels_ticks (os : Os) (hWnd : HWND) (Msg wParam : Z)
    (s : System) :
  reachable timer_nonnull s -> g_enabled s = true ->
  Msg = WM_DESTROY \/ Msg = WM_NCDESTROY ->
  forall k, w_timers (exec (DefWindowProcW_Hook os hWnd Msg wParam) s) !! k
            <> Some (root_of s hWnd).
Proof.
  intros Hr He HM k Hk. rewrite (hook_destroy os hWnd Msg wParam s He HM) in Hk.
  rewrite on_destroy_timers in Hk.
  destruct (tracked_cancelled s _ _ _ (reachable_tracked s Hr) Hk) as [Hne _].
  congruence.
Qed.

Lemma X15_witness :
  reachable timer_nonnull sys_fading /\ g_enabled sys_fading = true /\
  forall k, w_timers (exec (DefWindowProcW_Hook (mkOs 1010 55 None) 7 WM_DESTROY 0)
                        sys_fading) !! k
            <> Some (root_of sys_fading 7).
Proof.
  assert (Hr : reachable timer_nonnull sys_fading).
  { unfold sys_fading. apply reach_StartFade; [apply reach_init; reflexivity | discriminate]. }
  split; [exact Hr|]. split; [reflexivity|].
  apply (X15_destroy_cancels_ticks (mkOs 1010 55 None) 7 WM_DESTROY 0 sys_fading Hr);
    [reflexivity | left; reflexivity].
Defined.

(** X16: the name the process is matched by is the part of the module path
    after its last backslash, lowered; the path is taken as it fits the
    buffer of [MAX_PATH] units. *)
Theorem X16_exe_name_is_basename `{WCType} (h : Host) (dir name : list Z) :
  os_ModulePath h = dir ++ 92 :: name ->
  Forall (fun c => c <> 0) (dir ++ 92 :: name) ->
  (length (dir ++ 92%Z :: name) < MAX_PATH)%nat ->
  Forall (fun c => c <> 92) name ->
  CurrentExeNameLower h = ToLower name.
Proof. apply exe_name_basename. Qed.

Lemma X16_witness :
  @CurrentExeNameLower ascii_ctype host_notepad
  = @ToLower ascii_ctype [110; 111; 116; 101; 112; 97; 100; 46; 101; 120; 101].
Proof.
  apply (@X16_exe_name_is_basename ascii_ctype host_notepad
           [67; 58; 92; 65; 112; 112; 115]
           [110; 111; 116; 101; 112; 97; 100; 46; 101; 120; 101]).
  - reflexivity.
  - repeat constructor; discriminate.
  - vm_compute. lia.
  - repeat constructor; discriminate.
Defined.

(** X17: a list made of separators only (commas, semicolons, line feeds,
    carriage returns, tabs, spaces, or nothing at all) yields the empty set. *)
Theorem X17_parse_separators_only `{WCType} (buf : list Z) :
  Forall (fun c => is_sep c = true) buf -> ParseAppListToSet (Some buf) = ∅.
Proof. intros Hb. rewrite Parse_loop. apply parse_loop_seps, Hb. Qed.

Lemma X17_witness :
  @ParseAppListToSet ascii_ctype (Some [44; 32; 59; 10; 13; 9]) = ∅.
Proof.
  apply (@X17_parse_separators_only ascii_ctype [44; 32; 59; 10; 13; 9]).
  repeat constructor.
Defined.

(** X18: every entry of the set [ParseAppListToSet] returns is the lowering
    of a token that is not empty, holds no separator (so no space either)
    and has no [iswspace] unit at its ends. *)
Theorem X18_parse_entries_trimmed `{WCType} (s : option (list Z)) (x : list Z) :
  x ∈ ParseAppListToSet s -> exists tok, trimmed_token tok /\ x = ToLower tok.
Proof.
  destruct s as [buf|]; [|intros Hx; apply elem_of_empty in Hx; contradiction].
  rewrite Parse_loop. apply parse_loop_entries; [constructor|].
  intros y Hy. apply elem_of_empty in Hy. contradiction.
Qed.

Lemma X18_witness :
  [110; 111; 116; 101; 112; 97; 100; 46; 101; 120; 101]
    ∈ @ParseAppListToSet ascii_ctype (wh_appList host_notepad) /\
  exists tok, @trimmed_token ascii_ctype tok /\
    [110; 111; 116; 101; 112; 97; 100; 46; 101; 120; 101] = @ToLower ascii_ctype tok.
Proof.
  assert (Hx : [110; 111; 116; 101; 112; 97; 100; 46; 101; 120; 101]
                 ∈ @ParseAppListToSet ascii_ctype (wh_appList host_notepad)).
  { refine (bool_decide_unpack _ _). vm_compute. exact I. }
  split; [exact Hx|].
  exact (@X18_parse_entries_trimmed ascii_ctype (wh_appList host_notepad) _ Hx).
Defined.

(** X19: a separator other than NUL splits the list: the entries of
    [a ++ c :: b] are those of [a] together with those of [b].  So the order
    of the entries and their repetition do not matter. *)
Theorem X19_parse_splits_at_separator `{WCType} (a b : list Z) (c : Z) :
  Forall (fun x => x <> 0) a -> is_sep c = true -> c <> 0 ->
  ParseAppListToSet (Some (a ++ c :: b))
  = ParseAppListToSet (Some a) ∪ ParseAppListToSet (Some b).
Proof.
  intros Ha Hc Hc0. rewrite !Parse_loop.
  rewrite (parse_loop_app a c b [] ∅ Ha Hc Hc0), parse_loop_union.
  apply union_comm_L.
Qed.

Lemma X19_witness :
  @ParseAppListToSet ascii_ctype
    (Some ([67; 111; 100; 101; 46; 101; 120; 101] ++
           59 :: [32; 78; 111; 116; 101; 112; 97; 100; 46; 69; 88; 69; 10]))
  = @ParseAppListToSet ascii_ctype (Some [67; 111; 100; 101; 46; 101; 120; 101])
    ∪ @ParseAppListToSet ascii_ctype
        (Some [32; 78; 111; 116; 101; 112; 97; 100; 46; 69; 88; 69; 10]).
Proof.
  apply (@X19_parse_splits_at_separator ascii_ctype).
  - repeat constructor; discriminate.
  - reflexivity.
  - discriminate.
Defined.

(** X20: a list that is one trimmed token yields exactly that token,
    lowered. *)
Theorem X20_parse_single_token `{WCType} (tok : list Z) :
  trimmed_token tok -> ParseAppListToSet (Some tok) = {[ ToLower tok ]}.
Proof.
  intros Htok. pose proof Htok as (_ & Hns & _). rewrite Parse_loop.
  rewrite <- (app_nil_r tok) at 1. rewrite (parse_loop_token tok [] [] ∅ Hns).
  cbn [app parse_loop]. rewrite (add_token_trimmed tok ∅ Htok). apply union_empty_r_L.
Qed.

Lemma X20_witness :
  @trimmed_token ascii_ctype [78; 111; 116; 101; 112; 97; 100; 46; 69; 88; 69] /\
  @ParseAppListToSet ascii_ctype (Some [78; 111; 116; 101; 112; 97; 100; 46; 69; 88; 69])
  = {[ @ToLower ascii_ctype [78; 111; 116; 101; 112; 97; 100; 46; 69; 88; 69] ]}.
Proof.
  assert (Ht : @trimmed_token ascii_ctype [78; 111; 116; 101; 112; 97; 100; 46; 69; 88; 69]).
  { split; [discriminate|]. split; [repeat constructor|]. split; reflexivity. }
  split; [exact Ht|].
  exact (@X20_parse_single_token ascii_ctype _ Ht).
Defined.

(** X21: [LoadSettings] stores an opacity clamped to [[0, 255]], which the
    cast to [BYTE] of the hook then leaves as it is, and a fade duration that
    is not negative; it touches no record, no window and no timer. *)
Theorem X21_LoadSettings_ranges `{WCType} (h : Host) (md : Mod) :
  let s := m_sys md in
  let s' := m_sys (LoadSettings h md) in
  g_targetOpacity s' = Z.min 255 (Z.max 0 (wh_opacity h)) /\
  to_BYTE (g_targetOpacity s') = g_targetOpacity s' /\
  g_fadeMs s' = Z.max 0 (wh_fadeMs h) /\
  g_scope (LoadSettings h md) = wh_scope h /\
  g_anim s' = g_anim s /\ w_alpha s' = w_alpha s /\ w_exstyle s' = w_exstyle s /\
  w_timers s' = w_timers s /\ g_timerQueue s' = g_timerQueue s /\ w_calls s' = w_calls s.
Proof.
  cbv zeta. unfold LoadSettings.
  cbn [m_sys g_scope with_settings g_targetOpacity g_fadeMs g_anim w_alpha w_exstyle
       w_timers g_timerQueue w_calls].
  assert (Hc : clamp (wh_opacity h) 0 255 = Z.min 255 (Z.max 0 (wh_opacity h))).
  { unfold clamp. destruct (Z.ltb_spec (wh_opacity h) 0); [lia|].
    destruct (Z.ltb_spec 255 (wh_opacity h)); lia. }
  rewrite Hc. repeat split.
  - unfold to_BYTE. apply Z.mod_small. lia.
  - destruct (Z.ltb_spec (wh_fadeMs h) 0); lia.
Qed.

(** X22: matching is by name, whatever the case and the directory: when the
    list holds, between separators or at one of its ends, a token that
    lowers to the same string as the name of the executable, the process
    counts as listed, and [Wh_ModSettingsChanged] enables the mod exactly
    when the scope is not 0.  With scope 0 the hook from then on passes every
    message through without any effect, while the alpha of every window is
    left as the settings change found it: a window dimmed by a drag in
    progress is not restored by the end of that drag. *)
Theorem X22_listed_exe_matches `{WCType} (h : Host) (md : Mod)
    (a tok b dir name : list Z) :
  wh_appList h = Some (a ++ tok ++ b) ->
  Forall (fun c => c <> 0) a ->
  a = [] \/ (exists a' c, a = a' ++ [c] /\ is_sep c = true) ->
  b = [] \/ (exists c b', b = c :: b' /\ is_sep c = true) ->
  trimmed_token tok ->
  os_ModulePath h = dir ++ 92 :: name ->
  Forall (fun c => c <> 0) (dir ++ 92 :: name) ->
  (length (dir ++ 92%Z :: name) < MAX_PATH)%nat ->
  Forall (fun c => c <> 92) name ->
  ToLower name = ToLower tok ->
  let s' := m_sys (Wh_ModSettingsChanged h md) in
  g_enabled s' = negb (wh_scope h =? 0) /\
  w_alpha s' = w_alpha (m_sys md) /\
  (wh_scope h = 0 ->
   forall os hWnd Msg wParam, DefWindowProcW_Hook os hWnd Msg wParam s' = (tt, s')).
Proof.
  intros Hl Ha0 Ha Hb Htok Hp Hp0 Hlen Hn Heq. cbv zeta. unfold Wh_ModSettingsChanged.
  assert (He : g_enabled (m_sys (LoadSettings h md)) = negb (wh_scope h =? 0)).
  { rewrite LoadSettings_enabled. cbv zeta.
    rewrite (exe_name_basename h dir name Hp Hp0 Hlen Hn), Heq, Hl.
    change (default [] (Some (a ++ tok ++ b))) with (a ++ tok ++ b).
    rewrite (bool_decide_eq_true_2 _ (token_listed a tok b Ha0 Ha Hb Htok)).
    destruct (wh_scope h =? 0); reflexivity. }
  split; [exact He|]. split; [reflexivity|].
  intros Hs os hWnd Msg wParam. apply hook_disabled. rewrite He, Hs. reflexivity.
Qed.

Lemma X22_witness :
  let s' := m_sys (Wh_ModSettingsChanged (H := ascii_ctype) host_notepad (mkMod sys_drag 0 [])) in
  g_enabled s' = negb (wh_scope host_notepad =? 0) /\
  w_alpha s' = w_alpha (m_sys (mkMod sys_drag 0 [])) /\
  (wh_scope host_notepad = 0 ->
   forall os hWnd Msg wParam, DefWindowProcW_Hook os hWnd Msg wParam s' = (tt, s')).
Proof.
  apply (@X22_listed_exe_matches ascii_ctype host_notepad (mkMod sys_drag 0 [])
           [67; 111; 100; 101; 46; 101; 120; 101; 59; 32]
           [78; 111; 116; 101; 112; 97; 100; 46; 69; 88; 69]
           [10]
           [67; 58; 92; 65; 112; 112; 115]
           [110; 111; 116; 101; 112; 97; 100; 46; 101; 120; 101]).
  - reflexivity.
  - repeat constructor; discriminate.
  - right. exists [67; 111; 100; 101; 46; 101; 120; 101; 59], 32. split; reflexivity.
  - right. exists 10, []. split; reflexivity.
  - split; [discriminate|]. split; [repeat constructor|]. split; reflexivity.
  - reflexivity.
  - repeat constructor; discriminate.
  - vm_compute. lia.
  - repeat constructor; discriminate.
  - reflexivity.
Defined.

(** X23: with nothing listed (a null or empty string, or separators only)
    the process is not listed: the mod is enabled exactly when the scope is
    0, in every process. *)
Theorem X23_nothing_listed `{WCType} (h : Host) (md : Mod) :
  Forall (fun c => is_sep c = true) (default [] (wh_appList h)) ->
  g_enabled (m_sys (LoadSettings h md)) = (wh_scope h =? 0).
Proof.
  intros Hl. rewrite LoadSettings_enabled. cbv zeta.
  rewrite (parse_loop_seps _ ∅ Hl).
  rewrite bool_decide_eq_false_2 by apply not_elem_of_empty.
  destruct (wh_scope h =? 0); reflexivity.
Qed.

Lemma X23_witness :
  g_enabled (m_sys (LoadSettings (H := ascii_ctype) host_plain mod0))
  = (wh_scope host_plain =? 0).
Proof.
  apply (@X23_nothing_listed ascii_ctype host_plain mod0). constructor.
Defined.

(** X24: [Wh_ModInit] returns what [Wh_SetFunctionHook] answered, and what
    it set up governs the whole run that follows: when the queue it created
    is not null, [g_timerQueue] stays that queue, and the opacity, the fade
    duration and the enabling stay as [LoadSettings] computed them, through
    every message and timer callback. *)
Theorem X24_init_governs_run `{WCType} (P : Os -> Prop) (h : Host) (os : Os)
    (md : Mod) (s' : System) :
  os_CreateTimerQueue os <> NULL ->
  run P (m_sys (snd (Wh_ModInit h os md))) s' ->
  fst (Wh_ModInit h os md) = wh_SetFunctionHook h /\
  g_timerQueue s' = os_CreateTimerQueue os /\
  g_targetOpacity s' = Z.min 255 (Z.max 0 (wh_opacity h)) /\
  g_fadeMs s' = Z.max 0 (wh_fadeMs h) /\
  g_enabled s' = g_enabled (m_sys (LoadSettings h md)).
Proof.
  intros Hq Hrun.
  destruct (Wh_ModInit_fields h os md) as (Hr & Hq1 & Hs1 & _).
  pose proof (run_settings _ _ _ Hrun) as Hs. rewrite Hs1 in Hs.
  pose proof (run_queue _ _ _ Hrun) as Hq2. rewrite Hq1 in Hq2.
  destruct (LoadSettings_values h md) as (Ho & Hf).
  split; [exact Hr|]. split; [exact (Hq2 Hq)|].
  unfold settings_of in Hs. rewrite <- Ho, <- Hf.
  repeat split; congruence.
Qed.

Lemma X24_witness :
  run any_os (m_sys (snd (Wh_ModInit (H := ascii_ctype) host_plain (mkOs 900 55 None) mod0)))
      sys_run /\
  fst (Wh_ModInit (H := ascii_ctype) host_plain (mkOs 900 55 None) mod0) = true /\
  g_timerQueue sys_run = 55 /\
  g_targetOpacity sys_run = Z.min 255 (Z.max 0 200) /\
  g_fadeMs sys_run = Z.max 0 80 /\
  g_enabled sys_run = g_enabled (m_sys (LoadSettings (H := ascii_ctype) host_plain mod0)).
Proof.
  assert (Hrun : run any_os
                   (m_sys (snd (Wh_ModInit (H := ascii_ctype) host_plain (mkOs 900 55 None) mod0)))
                   sys_run).
  { unfold sys_run, mod_init. apply run_Tick. apply run_Message; [apply run_refl|exact I]. }
  split; [exact Hrun|].
  apply (@X24_init_governs_run ascii_ctype any_os host_plain (mkOs 900 55 None) mod0 sys_run);
    [discriminate | exact Hrun].
Defined.

(** X25: [Wh_ModUninit] releases what the engine holds: in a state where
    every live timer is the tick handle recorded for its window, it leaves no
    record, no live timer and a null [g_timerQueue], and it has called
    [DeleteTimerQueue] once, on the queue, unless there was none. *)
Theorem X25_Wh_ModUninit_releases (md : Mod) :
  timers_tracked (m_sys md) ->
  let md' := Wh_ModUninit md in
  g_anim (m_sys md') = ∅ /\
  w_timers (m_sys md') = ∅ /\
  g_timerQueue (m_sys md') = NULL /\
  w_queues_deleted md'
  = (if g_timerQueue (m_sys md) =? NULL then [] else [g_timerQueue (m_sys md)])
    ++ w_queues_deleted md.
Proof.
  intros HT. cbv zeta.
  destruct (Wh_ModUninit_fields md) as (Ha & Hq & Ht & _ & _ & _ & Hd & _).
  rewrite Ht, (uninit_loop_cancels _ HT). repeat split; assumption.
Qed.

Lemma X25_witness :
  timers_tracked (m_sys (mkMod sys_fading 0 [])) /\
  let md' := Wh_ModUninit (mkMod sys_fading 0 []) in
  g_anim (m_sys md') = ∅ /\
  w_timers (m_sys md') = ∅ /\
  g_timerQueue (m_sys md') = NULL /\
  w_queues_deleted md'
  = (if g_timerQueue (m_sys (mkMod sys_fading 0 [])) =? NULL then []
     else [g_timerQueue (m_sys (mkMod sys_fading 0 []))])
    ++ w_queues_deleted (mkMod sys_fading 0 []).
Proof.
  assert (HT : timers_tracked (m_sys (mkMod sys_fading 0 []))).
  { apply reachable_tracked. unfold sys_fading. cbn [m_sys].
    apply reach_StartFade; [apply reach_init; reflexivity | discriminate]. }
  split; [exact HT|].
  exact (X25_Wh_ModUninit_releases (mkMod sys_fading 0 []) HT).
Defined.

(** X26: [Wh_ModUninit] gives no window its opacity back: the alpha and the
    extended style of every window are what they were, so a window that is
    translucent when the mod is unloaded stays translucent. *)
Theorem X26_Wh_ModUninit_keeps_windows (md : Mod) (hwnd : HWND) :
  let s := m_sys md in
  let s' := m_sys (Wh_ModUninit md) in
  w_alpha s' !! hwnd = w_alpha s !! hwnd /\
  w_exstyle s' !! hwnd = w_exstyle s !! hwnd /\
  layered s' hwnd = layered s hwnd.
Proof.
  cbv zeta. destruct (Wh_ModUninit_fields md) as (_ & _ & _ & Hal & Hx & _).
  unfold layered. rewrite Hal, Hx. repeat split.
Qed.

(** X27: unloading twice is unloading once: a second [Wh_ModUninit] finds no
    record and no queue and changes nothing; [DeleteTimerQueue] is not
    called again. *)
Theorem X27_Wh_ModUninit_idempotent (md : Mod) :
  Wh_ModUninit (Wh_ModUninit md) = Wh_ModUninit md.
Proof.
  destruct (Wh_ModUninit_fields md) as (Ha & Hq & _).
  apply Wh_ModUninit_fixed; assumption.
Qed.

(** X28: the life cycle closes: after [Wh_ModInit] on a process with no
    record and no timer, the timer queue being created, whatever messages and
    timer callbacks follow, [Wh_ModUninit] deletes exactly the queue that
    [Wh_ModInit] created and leaves no record, no live timer and a null
    [g_timerQueue]. *)
Theorem X28_life_cycle `{WCType} (h : Host) (os : Os) (md : Mod) (s' : System) :
  g_anim (m_sys md) = ∅ -> w_timers (m_sys md) = ∅ ->
  os_CreateTimerQueue os <> NULL ->
  let md1 := snd (Wh_ModInit h os md) in
  run timer_nonnull (m_sys md1) s' ->
  let md2 := Wh_ModUninit (mkMod s' (g_scope md1) (w_queues_deleted md1)) in
  w_queues_deleted md2 = os_CreateTimerQueue os :: w_queues_deleted md /\
  g_anim (m_sys md2) = ∅ /\
  w_timers (m_sys md2) = ∅ /\
  g_timerQueue (m_sys md2) = NULL.
Proof.
  intros Ha0 Ht0 Hq. cbv zeta. intros Hrun.
  destruct (Wh_ModInit_fields h os md) as (_ & Hq1 & _ & _ & Ht1 & _ & _ & Hd1).
  assert (HT1 : timers_tracked (m_sys (snd (Wh_ModInit h os md)))).
  { apply tracked_empty. rewrite Ht1. exact Ht0. }
  pose proof (run_tracked _ _ Hrun HT1) as HT.
  pose proof (run_queue _ _ _ Hrun) as Hq2. rewrite Hq1 in Hq2. specialize (Hq2 Hq).
  set (md' := mkMod s' (g_scope (snd (Wh_ModInit h os md)))
                (w_queues_deleted (snd (Wh_ModInit h os md)))).
  destruct (Wh_ModUninit_fields md') as (Ha & Hqn & Ht & _ & _ & _ & Hd & _).
  cbn [m_sys w_queues_deleted md'] in Ha, Hqn, Ht, Hd.
  rewrite Ht, (uninit_loop_cancels _ HT), Hd, Hq2, Hd1.
  destruct (Z.eqb_spec (os_CreateTimerQueue os) NULL); [contradiction|].
  repeat split; assumption.
Qed.

Lemma X28_witness :
  run timer_nonnull (m_sys mod_init) sys_run /\
  let md2 := Wh_ModUninit (mkMod sys_run (g_scope mod_init) (w_queues_deleted mod_init)) in
  w_queues_deleted md2 = 55 :: w_queues_deleted mod0 /\
  g_anim (m_sys md2) = ∅ /\
  w_timers (m_sys md2) = ∅ /\
  g_timerQueue (m_sys md2) = NULL.
Proof.
  assert (Hrun : run timer_nonnull (m_sys mod_init) sys_run).
  { unfold sys_run. apply run_Tick. apply run_Message; [apply run_refl|discriminate]. }
  split; [exact Hrun|].
  apply (@X28_life_cycle ascii_ctype host_plain (mkOs 900 55 None) mod0 sys_run);
    [reflexivity | reflexivity | discriminate | exact Hrun].
Defined.

(** X29: a whole drag with animation.  The drag begins
    ([WM_ENTERSIZEMOVE]) and a tick comes once the fade duration has passed:
    the root window then has the configured opacity.  The drag ends (by any
    of the messages that end it) and a tick comes once the duration has
    passed again: the window has alpha 255, its translucency bit is cleared,
    its record is inactive with a null handle and no timer is left for it. *)
Theorem X29_drag_cycle (os1 os2 : Os) (hWnd : HWND) (w1 Msg wParam now1 now2 : Z)
    (s : System) :
  g_enabled s = true -> g_fadeMs s < 2 ^ 31 ->
  root_of s hWnd ∈ w_windows s -> timers_tracked s ->
  0 <= lastApplied (anim s (root_of s hWnd)) <= 255 ->
  timer_nonnull os1 -> timer_nonnull os2 ->
  Z.max 0 (g_fadeMs s) <= elapsed now1 (os_GetTickCount64 os1) ->
  Z.max 0 (g_fadeMs s) <= elapsed now2 (os_GetTickCount64 os2) ->
  Msg = WM_EXITSIZEMOVE \/ Msg = WM_CAPTURECHANGED \/ Msg = WM_CANCELMODE \/
  (Msg = WM_NCLBUTTONUP /\ wParam = HTCAPTION) ->
  let root := root_of s hWnd in
  let s1 := exec (DefWindowProcW_Hook os1 hWnd WM_ENTERSIZEMOVE w1) s in
  let s2 := exec (FadeTickCb now1 root) s1 in
  let s3 := exec (DefWindowProcW_Hook os2 hWnd Msg wParam) s2 in
  let s4 := exec (FadeTickCb now2 root) s3 in
  w_alpha s2 !! root = Some (to_BYTE (g_targetOpacity s)) /\
  w_alpha s4 !! root = Some 255 /\
  layered s4 root = false /\
  active (anim s4 root) = false /\
  hTimer (anim s4 root) = NULL /\
  (forall k, w_timers s4 !! k <> Some root).
Proof.
  intros He Hf Hw HT Hl Ho1 Ho2 Ht1 Ht2 HM. cbv zeta.
  set (root := root_of s hWnd) in *. set (tgt := to_BYTE (g_targetOpacity s)).
  rewrite (hook_enter os1 hWnd w1 s He). fold root tgt.
  destruct (fade_completes os1 root tgt (g_fadeMs s) now1 s Hw HT Ho1 Hl
              (to_BYTE_range _) Hf Ht1) as (Ha2 & Hl2 & _).
  pose proof (StartFade_settings os1 root tgt (g_fadeMs s) s) as Hs1.
  pose proof (StartFade_tracked os1 root tgt (g_fadeMs s) s Ho1 HT) as HT1.
  set (s1 := exec (StartFade os1 root tgt (g_fadeMs s)) s) in *.
  pose proof (proj1 (FadeTickCb_settings now1 root s1)) as Hs2. rewrite Hs1 in Hs2.
  pose proof (FadeTickCb_tracked now1 root s1 HT1) as HT2.
  set (s2 := exec (FadeTickCb now1 root) s1) in *.
  assert (He2 : g_enabled s2 = true) by (rewrite (settings_enabled _ _ Hs2); exact He).
  rewrite (hook_home os2 hWnd Msg wParam s2 He2 HM).
  rewrite (settings_root _ _ hWnd Hs2), (settings_fade _ _ Hs2). fold root.
  assert (Hw2 : root ∈ w_windows s2) by (rewrite (settings_windows _ _ Hs2); exact Hw).
  assert (Hl2' : 0 <= lastApplied (anim s2 root) <= 255).
  { rewrite Hl2. apply to_BYTE_range. }
  destruct (fade_completes os2 root 255 (g_fadeMs s) now2 s2 Hw2 HT2 Ho2 Hl2'
              ltac:(lia) Hf Ht2) as (Ha4 & _ & Hact & Hh & Hk & Hlay).
  repeat split; assumption.
Qed.

Lemma X29_witness :
  g_enabled sys0 = true /\ root_of sys0 7 ∈ w_windows sys0 /\ timers_tracked sys0 /\
  let root := root_of sys0 7 in
  let s1 := exec (DefWindowProcW_Hook (mkOs 1000 55 (Some 9)) 7 WM_ENTERSIZEMOVE 0) sys0 in
  let s2 := exec (FadeTickCb 1120 root) s1 in
  let s3 := exec (DefWindowProcW_Hook (mkOs 5000 55 (Some 11)) 7 WM_EXITSIZEMOVE 0) s2 in
  let s4 := exec (FadeTickCb 5125 root) s3 in
  w_alpha s2 !! root = Some (to_BYTE (g_targetOpacity sys0)) /\
  w_alpha s4 !! root = Some 255 /\
  layered s4 root = false /\
  active (anim s4 root) = false /\
  hTimer (anim s4 root) = NULL /\
  (forall k, w_timers s4 !! k <> Some root).
Proof.
  assert (Hw : root_of sys0 7 ∈ w_windows sys0).
  { refine (bool_decide_unpack _ _). vm_compute. exact I. }
  assert (HT : timers_tracked sys0) by (apply tracked_empty; reflexivity).
  split; [reflexivity|]. split; [exact Hw|]. split; [exact HT|].
  apply (X29_drag_cycle (mkOs 1000 55 (Some 9)) (mkOs 5000 55 (Some 11)) 7 0
           WM_EXITSIZEMOVE 0 1120 5125 sys0);
    [reflexivity | reflexivity | exact Hw | exact HT | vm_compute; split; discriminate
    | discriminate | discriminate | vm_compute; discriminate | vm_compute; discriminate
    | left; reflexivity].
Defined.

(** X30: a fade never goes back: of two successive ticks on an active
    record, the second coming no earlier than the first, the alpha the second
    leaves on the window is at least as close to the target as the alpha the
    first one applied. *)
Theorem X30_fade_never_goes_back (now1 now2 : Z) (hwnd : HWND) (s : System)
    (st : WinAnim) :
  hwnd ∈ w_windows s -> g_anim s !! hwnd = Some st -> active st = true ->
  0 <= startAlpha st <= 255 -> 0 <= targetAlpha st <= 255 -> durationMs st < 2 ^ 31 ->
  elapsed now1 (startTick st) <= elapsed now2 (startTick st) ->
  let s1 := exec (FadeTickCb now1 hwnd) s in
  let s2 := exec (FadeTickCb now2 hwnd) s1 in
  exists a1 a2,
    w_alpha s1 !! hwnd = Some a1 /\ w_alpha s2 !! hwnd = Some a2 /\
    Z.abs (targetAlpha st - a2) <= Z.abs (targetAlpha st - a1).
Proof.
  intros Hw Hst Hact Hs Hg Hd He. cbv zeta.
  assert (Hrun : tick_runs s hwnd = true).
  { unfold tick_runs. rewrite bool_decide_eq_true_2 by exact Hw. rewrite Hst. exact Hact. }
  assert (Han : anim s hwnd = st) by (unfold anim; rewrite Hst; reflexivity).
  pose proof (FadeTickCb_anim now1 hwnd s Hrun) as Ha1. rewrite Han in Ha1.
  pose proof (FadeTickCb_alpha now1 hwnd s Hrun) as Hal1. rewrite Han in Hal1.
  set (s1 := exec (FadeTickCb now1 hwnd) s) in *.
  exists (tick_alpha st now1).
  destruct (tick_done st now1) eqn:Hdone.
  - assert (Hskip : tick_runs s1 hwnd = false).
    { unfold tick_runs. rewrite Ha1, lookup_insert_eq. unfold tick_rec. rewrite Hdone.
      apply andb_false_r. }
    exists (tick_alpha st now1). unfold exec at 1. rewrite (FadeTickCb_skip now2 hwnd s1 Hskip).
    cbn [snd]. rewrite Hal1, lookup_insert_eq. repeat split. lia.
  - assert (Hrun1 : tick_runs s1 hwnd = true).
    { unfold tick_runs. rewrite Ha1, lookup_insert_eq. unfold tick_rec. rewrite Hdone.
      unfold s1. rewrite (settings_windows _ _ (proj1 (FadeTickCb_settings now1 hwnd s))).
      rewrite bool_decide_eq_true_2 by exact Hw. exact Hact. }
    exists (tick_alpha st now2).
    rewrite (FadeTickCb_alpha now2 hwnd s1 Hrun1), Hal1, !lookup_insert_eq.
    rewrite (anim_insert_eq _ _ _ _ Ha1). unfold tick_rec. rewrite Hdone.
    rewrite tick_alpha_lastApplied. repeat split.
    apply tick_alpha_mono; [lia|lia|exact Hd|exact He].
Qed.

Lemma X30_witness :
  7 ∈ w_windows sys_fading /\
  g_anim sys_fading !! 7 = Some (mkWinAnim true 255 120 1000 100 255 9) /\
  let s1 := exec (FadeTickCb 1030 7) sys_fading in
  let s2 := exec (FadeTickCb 1045 7) s1 in
  exists a1 a2,
    w_alpha s1 !! 7 = Some a1 /\ w_alpha s2 !! 7 = Some a2 /\
    Z.abs (120 - a2) <= Z.abs (120 - a1).
Proof.
  assert (Hw : 7 ∈ w_windows sys_fading).
  { refine (bool_decide_unpack _ _). vm_compute. exact I. }
  assert (Hst : g_anim sys_fading !! 7 = Some (mkWinAnim true 255 120 1000 100 255 9)).
  { vm_compute. reflexivity. }
  split; [exact Hw|]. split; [exact Hst|].
  apply (X30_fade_never_goes_back 1030 1045 7 sys_fading
           (mkWinAnim true 255 120 1000 100 255 9) Hw Hst);
    [reflexivity | cbn; lia | cbn; lia | reflexivity | vm_compute; discriminate].
Defined.

(** * Fading to 255, twice *)

Lemma pending_runs s hwnd h start dur :
  fade_pending s hwnd h start dur ->
  tick_runs s hwnd = true /\ exists st, g_anim s !! hwnd = Some st /\ anim s hwnd = st.
Proof.
  intros (Hw & Hact & _). unfold tick_runs. rewrite bool_decide_eq_true_2 by exact Hw.
  unfold anim in *. destruct (g_anim s !! hwnd) as [st|]; cbn in *; [|discriminate].
  split; [exact Hact|]. exists st. split; reflexivity.
Qed.

(** A tick that comes before the duration has elapsed leaves the fade under
    way, with the same tick scheduled. *)
Lemma pending_tick_early s hwnd h start dur now :
  fade_pending s hwnd h start dur -> elapsed now start < dur ->
  fade_pending (exec (FadeTickCb now hwnd) s) hwnd h start dur.
Proof.
  intros Hp He. destruct (pending_runs _ _ _ _ _ Hp) as (Hrun & _).
  destruct Hp as (Hw & Hact & Htgt & Hs & Hst & Hdu & Hd & Hh & Hht & Hlive & Huniq).
  assert (Hdone : tick_done (anim s hwnd) now = false).
  { rewrite tick_done_iff by (rewrite Hdu; exact Hd). rewrite Hst, Hdu. apply Z.leb_gt, He. }
  pose proof (anim_insert_eq _ _ _ _ (FadeTickCb_anim now hwnd s Hrun)) as Ha.
  unfold tick_rec in Ha. rewrite Hdone in Ha.
  pose proof (FadeTickCb_timers now hwnd s Hrun) as Ht. rewrite Hdone in Ht.
  unfold fade_pending. rewrite Ha, Ht.
  rewrite (settings_windows _ _ (proj1 (FadeTickCb_settings now hwnd s))).
  cbn [active targetAlpha startAlpha startTick durationMs hTimer set_lastApplied].
  repeat split; assumption || lia.
Qed.

(** The first tick that comes once the duration has elapsed ends the fade at
    255. *)
Lemma pending_tick_late s hwnd h start dur now :
  fade_pending s hwnd h start dur -> dur <= elapsed now start ->
  ends_at_255 (exec (FadeTickCb now hwnd) s) hwnd.
Proof.
  intros Hp He. destruct (pending_runs _ _ _ _ _ Hp) as (Hrun & _).
  destruct Hp as (Hw & Hact & Htgt & Hs & Hst & Hdu & Hd & Hh & Hht & Hlive & Huniq).
  assert (Hdone : tick_done (anim s hwnd) now = true).
  { rewrite tick_done_iff by (rewrite Hdu; exact Hd). rewrite Hst, Hdu. apply Z.leb_le, He. }
  assert (Hal : tick_alpha (anim s hwnd) now = 255).
  { rewrite (tick_alpha_done (anim s hwnd) now); [exact Htgt|lia|rewrite Htgt; lia|exact Hdone]. }
  pose proof (anim_insert_eq _ _ _ _ (FadeTickCb_anim now hwnd s Hrun)) as Ha.
  unfold tick_rec in Ha. rewrite Hdone, Htgt in Ha.
  unfold ends_at_255.
  rewrite (FadeTickCb_alpha now hwnd s Hrun), (FadeTickCb_layered now hwnd s Hrun).
  rewrite (FadeTickCb_timers now hwnd s Hrun), Ha, Hal, Hdone, Htgt, lookup_insert_eq.
  cbn [lastApplied active]. repeat split.
  intros k Hk. apply del_timer_lookup in Hk as [Hk Hne].
  rewrite Hht in Hne. pose proof (Huniq k Hk). destruct Hne; congruence.
Qed.

Lemma pending_ticks early : forall s hwnd h start dur,
  fade_pending s hwnd h start dur ->
  Forall (fun now => elapsed now start < dur) early ->
  fade_pending (ticks early hwnd s) hwnd h start dur.
Proof.
  induction early as [|now early IH]; intros s hwnd h start dur Hp He; [exact Hp|].
  inversion He as [|? ? Hnow Hrest]; subst. unfold ticks. cbn [foldl].
  apply IH; [|exact Hrest]. apply pending_tick_early; assumption.
Qed.

Lemma pending_fades s hwnd h start dur :
  fade_pending s hwnd h start dur -> fades_to_255 s hwnd.
Proof.
  intros Hp. right. exists h.
  pose proof Hp as (_ & _ & _ & _ & Hst & Hdu & _ & Hh & _).
  split; [exact Hh|]. rewrite Hst, Hdu. intros early He. cbv zeta.
  pose proof (pending_ticks early s hwnd h start dur Hp He) as Hp'.
  pose proof Hp' as (_ & Hact & _ & _ & _ & _ & _ & _ & _ & Hlive & Huniq).
  split; [exact Hact|]. split; [exact Hlive|]. split; [exact Huniq|].
  intros now Hnow. exact (pending_tick_late _ _ _ _ _ now Hp' Hnow).
Qed.

(** What a request to fade to 255 leaves behind when its tick can be
    scheduled. *)
Lemma StartFade_255_fades os s hwnd d :
  timers_tracked s -> timer_created os -> hwnd ∈ w_windows s ->
  0 <= lastApplied (anim s hwnd) < 256 -> d < 2 ^ 31 ->
  fades_to_255 (exec (StartFade os hwnd 255 d) s) hwnd.
Proof.
  intros HT Hos Hw Hb Hd.
  pose proof (StartFade_tracked os hwnd 255 d s (timer_created_nonnull os Hos) HT) as HT1.
  pose proof (anim_insert_eq _ _ _ _ (StartFade_anim os hwnd 255 d s)) as Ha.
  destruct (StartFade_fast 255 d (anim s hwnd)) eqn:Hf.
  - left. unfold StartFade_rec in Ha. rewrite Hf in Ha. unfold ends_at_255.
    rewrite StartFade_alpha, StartFade_layered, Hf, Ha, lookup_insert_eq.
    cbn [lastApplied active]. repeat split.
    apply (tracked_none _ hwnd HT1). rewrite Ha. reflexivity.
  - destruct Hos as (h & Hh & Hn).
    apply (pending_fades _ hwnd h (os_GetTickCount64 os) (Z.max 0 d)).
    unfold StartFade_rec in Ha. rewrite Hf, Hh in Ha. unfold fade_pending.
    rewrite Ha, StartFade_timers, Hf, Hh.
    rewrite (settings_windows _ _ (StartFade_settings os hwnd 255 d s)).
    cbn [active targetAlpha startAlpha startTick durationMs hTimer default from_option id].
    cbv zeta. rewrite lookup_insert_eq.
    repeat split; try assumption; try lia.
    intros k Hk. apply (tracked_one_tick _ hwnd HT1 k h).
    + rewrite StartFade_timers, Hf, Hh. exact Hk.
    + rewrite StartFade_timers, Hf, Hh. cbv zeta. apply lookup_insert_eq.
Qed.

(** C8, as stated, fails: with window 7 resting at opacity 120, a first
    request to fade to 255 schedules the tick 11, and a tick that comes once
    the duration has elapsed would bring the window to 255.  A second
    identical request during which [CreateTimerQueueTimer] fails cancels that
    tick and schedules none: no tick is left at all, the window stays at 120
    with an active record and a null handle, and its terminal opacity is not
    255, while it is after the first request alone. *)
Lemma C8_counterexample :
  let os1 := mkOs 1200 55 (Some 11) in
  let os2 := mkOs 1201 55 None in
  let once := exec (StartFade os1 7 255 100) sys_dim in
  let twice := exec (StartFade os2 7 255 100) once in
  reachable timer_nonnull sys_dim /\ timer_nonnull os1 /\ timer_nonnull os2 /\
  w_timers once !! 11 = Some 7 /\
  w_alpha (exec (FadeTickCb 1300 7) once) !! 7 = Some 255 /\
  fades_to_255 once 7 /\
  w_timers twice = ∅ /\
  w_alpha twice !! 7 = Some 120 /\
  active (anim twice 7) = true /\
  hTimer (anim twice 7) = NULL /\
  ~ fades_to_255 twice 7.
Proof.
  cbv zeta.
  assert (Hr : reachable timer_nonnull sys_dim).
  { unfold sys_dim, sys_mid, sys_fading. do 2 apply reach_Tick.
    apply reach_StartFade; [apply reach_init; reflexivity | discriminate]. }
  assert (Hw : 7 ∈ w_windows sys_dim).
  { refine (bool_decide_unpack _ _). vm_compute. exact I. }
  assert (Hb : 0 <= lastApplied (anim sys_dim 7) < 256) by (vm_compute; split; [discriminate|reflexivity]).
  assert (Ht : w_timers (exec (StartFade (mkOs 1201 55 None) 7 255 100)
                           (exec (StartFade (mkOs 1200 55 (Some 11)) 7 255 100) sys_dim)) = ∅)
    by (vm_compute; reflexivity).
  assert (Ea : w_alpha (exec (StartFade (mkOs 1201 55 None) 7 255 100)
                          (exec (StartFade (mkOs 1200 55 (Some 11)) 7 255 100) sys_dim)) !! 7
               = Some 120) by (vm_compute; reflexivity).
  split; [exact Hr|]. split; [discriminate|]. split; [discriminate|].
  split; [vm_compute; reflexivity|]. split; [vm_compute; reflexivity|].
  split.
  { apply StartFade_255_fades; [apply reachable_tracked, Hr| |exact Hw|exact Hb|reflexivity].
    exists 11. split; [reflexivity|discriminate]. }
  split; [exact Ht|]. split; [exact Ea|].
  split; [vm_compute; reflexivity|]. split; [vm_compute; reflexivity|].
  intros [(Ha & _)|(h & _ & H)].
  - rewrite Ea in Ha. discriminate Ha.
  - destruct (H [] ltac:(constructor)) as (_ & Hlive & _). unfold ticks in Hlive.
    cbn [foldl] in Hlive. rewrite Ht, lookup_empty in Hlive. discriminate Hlive.
Qed.

(** C8, amended: in a reachable state, for an existing window whose
    [lastApplied] is a byte and an [int] duration, when each of the two
    [CreateTimerQueueTimer] calls succeeds with a non-null handle, issuing
    [StartFade(hwnd, 255, d)] twice in immediate succession acts as issuing
    it once.  After one call as after two the terminal opacity is 255: the
    window rests at 255 with no tick scheduled, or one tick is scheduled for
    it, stays the only one through every tick that comes before the duration
    has elapsed, and the first tick that comes once it has elapsed leaves the
    window resting at 255.  At most one tick is scheduled for the window
    after each call; the first API call of the second request is the
    cancellation of the tick the first one scheduled, and the tick found
    afterwards is the one the second request created.  The second request
    leaves the alpha, the translucency bit and the record's target, duration,
    last applied opacity and active flag as the first did. *)
Theorem C8_StartFade_255_twice (os1 os2 : Os) (s : System) (hwnd : HWND) (d : Z) :
  reachable timer_nonnull s ->
  timer_created os1 -> timer_created os2 ->
  hwnd ∈ w_windows s ->
  0 <= lastApplied (anim s hwnd) < 256 -> d < 2 ^ 31 ->
  let s1 := exec (StartFade os1 hwnd 255 d) s in
  let s2 := exec (StartFade os2 hwnd 255 d) s1 in
  fades_to_255 s1 hwnd /\ fades_to_255 s2 hwnd /\
  at_most_one_tick s1 hwnd /\ at_most_one_tick s2 hwnd /\
  (forall h, w_timers s1 !! h = Some hwnd ->
     exists later, w_calls s2
       = later ++ Call_DeleteTimerQueueTimer (g_timerQueue s1) h :: w_calls s1) /\
  (active (anim s2 hwnd) = true ->
     exists h2, os_CreateTimerQueueTimer os2 = Some h2 /\ h2 <> NULL /\
       hTimer (anim s2 hwnd) = h2 /\ w_timers s2 !! h2 = Some hwnd /\
       forall k, w_timers s2 !! k = Some hwnd -> k = h2) /\
  w_alpha s2 = w_alpha s1 /\
  layered s2 hwnd = layered s1 hwnd /\
  targetAlpha (anim s2 hwnd) = targetAlpha (anim s1 hwnd) /\
  durationMs (anim s2 hwnd) = durationMs (anim s1 hwnd) /\
  lastApplied (anim s2 hwnd) = lastApplied (anim s1 hwnd) /\
  active (anim s2 hwnd) = active (anim s1 hwnd).
Proof.
  intros Hr H1 H2 Hw Hb Hd s1 s2.
  pose proof (timer_created_nonnull os1 H1) as Hn1.
  pose proof (timer_created_nonnull os2 H2) as Hn2.
  pose proof (reachable_tracked s Hr) as HT.
  pose proof (StartFade_tracked os1 hwnd 255 d s Hn1 HT) as HT1. fold s1 in HT1.
  pose proof (StartFade_tracked os2 hwnd 255 d s1 Hn2 HT1) as HT2. fold s2 in HT2.
  pose proof (anim_insert_eq _ _ _ _ (StartFade_anim os1 hwnd 255 d s)) as Ha1. fold s1 in Ha1.
  pose proof (anim_insert_eq _ _ _ _ (StartFade_anim os2 hwnd 255 d s1)) as Ha2. fold s2 in Ha2.
  pose proof (StartFade_fast_again os1 d (anim s hwnd)) as Hff. rewrite <- Ha1 in Hff.
  assert (Hb1 : 0 <= lastApplied (anim s1 hwnd) < 256).
  { rewrite Ha1. unfold StartFade_rec. destruct (StartFade_fast 255 d (anim s hwnd)); cbn; lia. }
  assert (Hw1 : hwnd ∈ w_windows s1).
  { unfold s1. rewrite (settings_windows _ _ (StartFade_settings os1 hwnd 255 d s)). exact Hw. }
  split; [exact (StartFade_255_fades os1 s hwnd d HT H1 Hw Hb Hd)|].
  split; [exact (StartFade_255_fades os2 s1 hwnd d HT1 H2 Hw1 Hb1 Hd)|].
  split; [apply tracked_one_tick, HT1|]. split; [apply tracked_one_tick, HT2|].
  split.
  { intros h Hh. destruct (HT1 _ _ Hh) as [Hn He].
    destruct (StartFade_calls_cancel os2 hwnd 255 d s1) as [later Hl]. fold s2 in Hl.
    rewrite He in Hl. destruct (Z.eqb_spec h NULL) as [|_]; [contradiction|].
    exists later. exact Hl. }
  split.
  { destruct H2 as (h2 & Hh2 & Hnz). intros Hact. exists h2.
    assert (Hf2 : StartFade_fast 255 d (anim s1 hwnd) = false).
    { destruct (StartFade_fast 255 d (anim s1 hwnd)) eqn:Hf; [|reflexivity].
      rewrite Ha2 in Hact. unfold StartFade_rec in Hact. rewrite Hf in Hact. discriminate Hact. }
    assert (Hlive : w_timers s2 !! h2 = Some hwnd).
    { unfold s2. rewrite StartFade_timers, Hf2, Hh2. cbv zeta. apply lookup_insert_eq. }
    split; [exact Hh2|]. split; [exact Hnz|].
    split; [rewrite Ha2; unfold StartFade_rec; rewrite Hf2, Hh2; reflexivity|].
    split; [exact Hlive|].
    intros k Hk. exact (tracked_one_tick s2 hwnd HT2 k h2 Hk Hlive). }
  split.
  { unfold s2. rewrite StartFade_alpha, Hff. destruct (StartFade_fast 255 d (anim s hwnd)) eqn:Hf;
      [|reflexivity].
    unfold s1. rewrite StartFade_alpha, Hf. apply insert_insert_eq. }
  split.
  { unfold s2. rewrite StartFade_layered, Hff. unfold s1. rewrite StartFade_layered. reflexivity. }
  rewrite Ha2. unfold StartFade_rec at 1 2 3 4. rewrite Hff.
  rewrite Ha1. unfold StartFade_rec.
  destruct (StartFade_fast 255 d (anim s hwnd)) eqn:Hf; cbn.
  all: repeat split; reflexivity.
Qed.

Lemma C8_witness :
  reachable timer_nonnull sys_dim /\
  timer_created (mkOs 1200 55 (Some 11)) /\ timer_created (mkOs 1201 55 (Some 12)) /\
  7 ∈ w_windows sys_dim /\
  0 <= lastApplied (anim sys_dim 7) < 256 /\ 100 < 2 ^ 31 /\
  let s1 := exec (StartFade (mkOs 1200 55 (Some 11)) 7 255 100) sys_dim in
  let s2 := exec (StartFade (mkOs 1201 55 (Some 12)) 7 255 100) s1 in
  fades_to_255 s1 7 /\ fades_to_255 s2 7 /\
  at_most_one_tick s1 7 /\ at_most_one_tick s2 7 /\
  (forall h, w_timers s1 !! h = Some 7 ->
     exists later, w_calls s2
       = later ++ Call_DeleteTimerQueueTimer (g_timerQueue s1) h :: w_calls s1) /\
  (active (anim s2 7) = true ->
     exists h2, os_CreateTimerQueueTimer (mkOs 1201 55 (Some 12)) = Some h2 /\ h2 <> NULL /\
       hTimer (anim s2 7) = h2 /\ w_timers s2 !! h2 = Some 7 /\
       forall k, w_timers s2 !! k = Some 7 -> k = h2) /\
  w_alpha s2 = w_alpha s1 /\
  layered s2 7 = layered s1 7 /\
  targetAlpha (anim s2 7) = targetAlpha (anim s1 7) /\
  durationMs (anim s2 7) = durationMs (anim s1 7) /\
  lastApplied (anim s2 7) = lastApplied (anim s1 7) /\
  active (anim s2 7) = active (anim s1 7).
Proof.
  assert (Hr : reachable timer_nonnull sys_dim).
  { unfold sys_dim, sys_mid, sys_fading. do 2 apply reach_Tick.
    apply reach_StartFade; [apply reach_init; reflexivity | discriminate]. }
  assert (H1 : timer_created (mkOs 1200 55 (Some 11))).
  { exists 11. split; [reflexivity|discriminate]. }
  assert (H2 : timer_created (mkOs 1201 55 (Some 12))).
  { exists 12. split; [reflexivity|discriminate]. }
  assert (Hw : 7 ∈ w_windows sys_dim).
  { refine (bool_decide_unpack _ _). vm_compute. exact I. }
  assert (E : lastApplied (anim sys_dim 7) = 120) by (vm_compute; reflexivity).
  assert (Hb : 0 <= lastApplied (anim sys_dim 7) < 256) by (rewrite E; lia).
  split; [exact Hr|]. split; [exact H1|]. split; [exact H2|]. split; [exact Hw|].
  split; [exact Hb|]. split; [reflexivity|].
  apply (C8_StartFade_255_twice (mkOs 1200 55 (Some 11)) (mkOs 1201 55 (Some 12)) sys_dim 7 100);
    [exact Hr | exact H1 | exact H2 | exact Hw | exact Hb | reflexivity].
Defined.
